(** * Verification of the action-resolution pipeline of [operate/models/apis.py]

    A shallow embedding of the model backends of the self-operating computer
    (response normalisation, click resolution, fallback and retry paths,
    target extraction, candidate selection, verification probe), and the
    properties of its specification proved or refuted on that embedding.

    Conventions of the embedding.
    - A Python [str] is a [string]; characters are modelled on the ASCII
      range: a byte above 127 is neither a word character nor white space
      and is left alone by [lower].
    - A parsed JSON document is a [json]; a Python [dict] with string keys
      is a [gmap string json].
    - Python floats that only carry pixel positions, confidences and
      percentages are modelled as rationals ([Q]).
    - A Python exception is a value of [exn]; code that may raise returns
      a [result]. The message history, which the backends mutate in place,
      is threaded through a state and exception monad [M].
    - The model, the screen, the OCR engine and the object detector are the
      outside [world]: one [attempt] for each invocation of a backend
      function. [json.loads], the prompts and number formatting are the
      fields of a [config]; the helpers of [operate/utils], which are not
      part of the sources, are the fields of a record [helpers], with an
      instance modelled from the specification.
    - A function that calls itself ([call_gpt_4o], [call_ollama_llava])
      takes as [fuel] the depth of recursion that the interpreter still
      allows; at depth 0 the call ends as the code does at the recursion
      limit. *)

From Stdlib Require Import Ascii String QArith Qminmax Qround.
From stdpp Require Import base option list strings gmap.

Local Open Scope nat_scope.

(* ================================================================== *)
(** * Part I. Definitions *)
(* ================================================================== *)

(** ** Characters and Python string methods *)

Module Text.

Definition code (c : ascii) : nat := nat_of_ascii c.

Definition in_range (lo hi : nat) (c : ascii) : bool :=
  (lo <=? code c) && (code c <=? hi).

Definition is_upper (c : ascii) : bool := in_range 65 90 c.
Definition is_lower (c : ascii) : bool := in_range 97 122 c.
Definition is_digit (c : ascii) : bool := in_range 48 57 c.

(** [\w] on the ASCII range. *)
Definition is_word (c : ascii) : bool :=
  is_upper c || is_lower c || is_digit c || (code c =? 95).

(** [str.isspace] and [\s] on the ASCII range: tab, line feed, vertical
    tab, form feed, carriage return, the four separators 28..31, space. *)
Definition is_space (c : ascii) : bool := in_range 9 13 c || in_range 28 32 c.

(** The two quote characters, ['] (39) and the double quote (34). *)
Definition is_quote (c : ascii) : bool := (code c =? 39) || (code c =? 34).

Definition not_quote (c : ascii) : bool := negb (is_quote c).

Definition lower_char (c : ascii) : ascii :=
  if is_upper c then ascii_of_nat (code c + 32) else c.

(** [s.lower()] *)
Fixpoint lower (s : string) : string :=
  match s with
  | EmptyString => EmptyString
  | String c s' => String (lower_char c) (lower s')
  end.

(** [s.startswith(p)] *)
Fixpoint startswith (p s : string) : bool :=
  match p, s with
  | EmptyString, _ => true
  | String a p', String b s' => if ascii_dec a b then startswith p' s' else false
  | String _ _, EmptyString => false
  end.

(** [sub in s] *)
Fixpoint str_in (sub s : string) : bool :=
  if startswith sub s then true
  else match s with
       | EmptyString => false
       | String _ s' => str_in sub s'
       end.

Fixpoint drop_chars (n : nat) (s : string) : string :=
  match n, s with
  | 0, _ => s
  | S n', String _ s' => drop_chars n' s'
  | S _, EmptyString => EmptyString
  end.

(** [s[:n]] *)
Fixpoint take_chars (n : nat) (s : string) : string :=
  match n, s with
  | 0, _ => EmptyString
  | S n', String c s' => String c (take_chars n' s')
  | S _, EmptyString => EmptyString
  end.

(** [s.split(sep, 1)[1]] for a non-empty [sep]: what follows the first
    occurrence of [sep]; [None] when [sep] does not occur (the list
    returned by [split] then has one element only). *)
Fixpoint after_first (sep s : string) : option string :=
  if startswith sep s then Some (drop_chars (String.length sep) s)
  else match s with
       | EmptyString => None
       | String _ s' => after_first sep s'
       end.

(** [s.split(c)[0]] for a one-character separator. *)
Fixpoint before_first (c : ascii) (s : string) : string :=
  match s with
  | EmptyString => EmptyString
  | String a s' => if ascii_dec a c then EmptyString else String a (before_first c s')
  end.

Fixpoint lstrip (s : string) : string :=
  match s with
  | EmptyString => EmptyString
  | String c s' => if is_space c then lstrip s' else s
  end.

Fixpoint rev_onto (s acc : string) : string :=
  match s with
  | EmptyString => acc
  | String c s' => rev_onto s' (String c acc)
  end.

Definition rev (s : string) : string := rev_onto s EmptyString.

Definition rstrip (s : string) : string := rev (lstrip (rev s)).

(** [s.strip()] *)
Definition strip (s : string) : string := rstrip (lstrip s).

(** [len(s.split())]: the number of maximal runs of non-space characters;
    [inword] tells whether the previous character belonged to a run. *)
Fixpoint count_words (inword : bool) (s : string) : nat :=
  match s with
  | EmptyString => 0
  | String c s' =>
      if is_space c then count_words false s'
      else if inword then count_words true s'
           else S (count_words true s')
  end.

(** [s.endswith(p)] *)
Definition endswith (p s : string) : bool := startswith (rev p) (rev s).

(** [s.splitlines()] on the ASCII range: a line ends at line feed,
    carriage return (one boundary together with a following line feed),
    vertical tab, form feed or one of the separators 28..30. *)
Definition is_linebreak (c : ascii) : bool := in_range 10 13 c || in_range 28 30 c.

Fixpoint splitlines_aux (cur : string) (s : string) : list string :=
  match s with
  | EmptyString =>
      match cur with EmptyString => [] | _ => [rev cur] end
  | String c s' =>
      if is_linebreak c then
        match s' with
        | String d s'' =>
            if (code c =? 13) && (code d =? 10)
            then rev cur :: splitlines_aux EmptyString s''
            else rev cur :: splitlines_aux EmptyString s'
        | EmptyString => [rev cur]
        end
      else splitlines_aux (String c cur) s'
  end.

Definition splitlines (s : string) : list string := splitlines_aux EmptyString s.

(** [sep.join(parts)] *)
Fixpoint join (sep : string) (parts : list string) : string :=
  match parts with
  | [] => EmptyString
  | [p] => p
  | p :: rest => p +:+ sep +:+ join sep rest
  end.

End Text.

(** ** Regular expressions ([re]) with Python's backtracking semantics *)

Module Re.
Import Text.

(** The constructs used by the patterns of [apis.py]. [Star] is greedy;
    [Grp] is capture group 1; [WordB] is [\b]. *)
Inductive re : Type :=
| Cls (p : ascii -> bool)
| Cat (r1 r2 : re)
| Alt (r1 r2 : re)
| Star (r : re)
| WordB
| Grp (r : re).

Definition Plus (r : re) : re := Cat r (Star r).

(** State of capture group 1: not entered, being matched (characters
    accumulated in reverse), closed. *)
Inductive capture : Type :=
| CapNone
| CapOpen (acc : string)
| CapDone (g : string).

Definition record (a : ascii) (c : capture) : capture :=
  match c with
  | CapOpen acc => CapOpen (String a acc)
  | _ => c
  end.

Definition close (c : capture) : capture :=
  match c with
  | CapOpen acc => CapDone (rev acc)
  | _ => c
  end.

Definition group1 (c : capture) : string :=
  match c with
  | CapDone g => g
  | _ => EmptyString
  end.

Definition word_before (prev : option ascii) : bool :=
  match prev with Some a => is_word a | None => false end.

Definition word_after (s : string) : bool :=
  match s with String a _ => is_word a | EmptyString => false end.

(** A continuation of a match: the character before the rest, the rest,
    the state of the capture. *)
Definition cont (R : Type) : Type := option ascii -> string -> capture -> option R.

(** Greedy repetition: at most [n] more rounds of [step], one more round
    being tried before the continuation [k]. *)
Fixpoint star_loop {R : Type} (step : option ascii -> string -> capture -> cont R -> option R)
    (k : cont R) (n : nat) (prev : option ascii) (s : string) (c : capture) : option R :=
  match n with
  | 0 => k prev s c
  | S n' =>
      match step prev s c (star_loop step k n') with
      | Some x => Some x
      | None => k prev s c
      end
  end.

(** [rmatch r prev s c k]: match [r] at the head of [s] ([prev] is the
    character before it), then continue with [k]; alternatives are tried
    in Python's order (left branch first, longest repetition first) and
    the first one for which the continuation succeeds is taken. No
    repeated sub-pattern of this file matches the empty string, so a
    repetition on [s] makes at most [length s] rounds. *)
Fixpoint rmatch {R : Type} (r : re) (prev : option ascii) (s : string) (c : capture)
    (k : cont R) {struct r} : option R :=
  match r with
  | Cls p =>
      match s with
      | String a s' => if p a then k (Some a) s' (record a c) else None
      | EmptyString => None
      end
  | Cat r1 r2 =>
      rmatch r1 prev s c (fun prev' s' c' => rmatch r2 prev' s' c' k)
  | Alt r1 r2 =>
      match rmatch r1 prev s c k with
      | Some x => Some x
      | None => rmatch r2 prev s c k
      end
  | Star r1 => star_loop (rmatch r1) k (String.length s) prev s c
  | WordB =>
      if xorb (word_before prev) (word_after s) then k prev s c else None
  | Grp r1 =>
      rmatch r1 prev s (CapOpen EmptyString)
        (fun prev' s' c' => k prev' s' (close c'))
  end.

(** A match: group 1, the character before the rest, the rest. *)
Definition found : Type := string * option ascii * string.

Definition match_here (r : re) (prev : option ascii) (s : string) : option found :=
  rmatch r prev s CapNone (fun prev' s' c' => Some (group1 c', prev', s')).

(** [re.search]: the leftmost position at which the pattern matches. *)
Fixpoint search_from (r : re) (prev : option ascii) (s : string) : option found :=
  match match_here r prev s with
  | Some m => Some m
  | None =>
      match s with
      | String a s' => search_from r (Some a) s'
      | EmptyString => None
      end
  end.

(** [re.search(r, s)]: group 1 of the first match. *)
Definition search (r : re) (s : string) : option string :=
  match search_from r None s with
  | Some (g, _, _) => Some g
  | None => None
  end.

(** [re.findall]: group 1 of the successive non-overlapping matches, left
    to right. Every pattern of this file consumes at least one character,
    so the scan resumes at the end of each match. *)
Fixpoint findall_from (fuel : nat) (r : re) (prev : option ascii) (s : string)
    : list string :=
  match fuel with
  | 0 => []
  | S fuel' =>
      match search_from r prev s with
      | Some (g, prev', s') =>
          if String.length s' <? String.length s
          then g :: findall_from fuel' r prev' s'
          else [g]
      | None => []
      end
  end.

Definition findall (r : re) (s : string) : list string :=
  findall_from (S (String.length s)) r None s.

End Re.

(** ** The Text Target Extractor: [extract_target_from_text] *)

Module Extract.
Import Text Re.

Definition is_dash_or_dot (c : ascii) : bool := (code c =? 45) || (code c =? 46).

(** The pattern [Q([^Q]+)Q] of the source, where [Q] stands for the class
    of the two quote characters. *)
Definition quoted_pattern : re :=
  Cat (Cls is_quote) (Cat (Grp (Plus (Cls not_quote))) (Cls is_quote)).

(** (\w+[-\.]\w+[-\.]\w+|\w+[-\.]\w+) *)
Definition file_pattern : re :=
  let w := Plus (Cls is_word) in
  let d := Cls is_dash_or_dot in
  Grp (Alt (Cat w (Cat d (Cat w (Cat d w)))) (Cat w (Cat d w))).

(** \b([A-Z][a-z]+(?:\s+[A-Z][a-z]+)* )\b *)
Definition cap_word_pattern : re :=
  let capword := Cat (Cls is_upper) (Plus (Cls is_lower)) in
  Cat WordB
    (Cat (Grp (Cat capword (Star (Cat (Plus (Cls is_space)) capword)))) WordB).

Definition file_hints : list string :=
  ["-main"; "folder"; "file"; "image"; "doc"; "."; "sbc"].

Definition click_phrases : list string :=
  ["click on "; "click the "; "clicking on "; "clicking the "; "open "; "opening "].

(** Priority 2: the first file-like token that contains one of the hints. *)
Definition looks_like_file (m : string) : bool :=
  existsb (fun x => str_in x (lower m)) file_hints.

Definition priority2 (text : string) : option string :=
  List.find looks_like_file (findall file_pattern text).

(** Priority 3: the loop over [click_phrases]; a phrase that occurs but
    whose target is not 2 to 5 words long lets the loop go on. *)
Fixpoint priority3 (phrases : list string) (text : string) : option string :=
  match phrases with
  | [] => None
  | phrase :: rest =>
      match after_first phrase (lower text) with
      | Some tail =>
          let target := strip (before_first "," (before_first "." tail)) in
          let n := count_words false target in
          if (2 <=? n) && (n <=? 5) then Some target else priority3 rest text
      | None => priority3 rest text
      end
  end.

(** Priority 4: the first capitalised phrase longer than 3 characters. *)
Definition priority4 (text : string) : option string :=
  List.find (fun m => 3 <? String.length m) (findall cap_word_pattern text).

Definition extract_target_from_text (text : string) : string :=
  match findall quoted_pattern text with
  | q :: _ => q
  | [] =>
      match priority2 text with
      | Some m => m
      | None =>
          match priority3 click_phrases text with
          | Some target => target
          | None =>
              match priority4 text with
              | Some m => m
              | None => text
              end
          end
      end
  end.

End Extract.

(** ** JSON values, operations and exceptions *)

(** What [json.loads] returns. A number is a rational; an object is a
    Python [dict]. *)
#[warnings="-register-all"] Inductive json : Type :=
| JNull
| JBool (b : bool)
| JNum (q : Q)
| JStr (s : string)
| JArr (l : list json)
| JObj (m : gmap string json).

(** The exception classes that the code raises or tells apart. *)
Inductive exn : Type :=
| KeyError
| IndexError
| AttributeError
| TypeError
| UnboundLocalError
| JSONDecodeError
| ResponseError          (* ollama.ResponseError *)
| ClientError            (* network or client failure of a model call *)
| CaptureError           (* the screen capture or an image operation failed *)
| ResolveError           (* an OCR helper found no element *)
| ZeroDivisionError
| ModelNotRecognizedException.

Inductive result (A : Type) : Type :=
| Ok (a : A)
| Raise (e : exn).
Arguments Ok {A} a.
Arguments Raise {A} e.

Module Py.
Import Text.

(** Truth value of a Python object ([if v], [not v]). *)
Definition truthy (v : json) : bool :=
  match v with
  | JNull => false
  | JBool b => b
  | JNum q => negb (Qeq_bool q 0)
  | JStr s => negb (String.eqb s EmptyString)
  | JArr l => match l with [] => false | _ => true end
  | JObj m => negb (bool_decide (m = ∅))
  end.

(** [for x in v]: the items iterated over; a dict yields its keys, a
    string its characters, a scalar is not iterable. *)
Fixpoint chars (s : string) : list json :=
  match s with
  | EmptyString => []
  | String c s' => JStr (String c EmptyString) :: chars s'
  end.

Definition iterate (v : json) : result (list json) :=
  match v with
  | JArr l => Ok l
  | JObj m => Ok (JStr <$> (map_to_list m).*1)
  | JStr s => Ok (chars s)
  | JNull | JBool _ | JNum _ => Raise TypeError
  end.

(** [v.get]: only a dict has the method. *)
Definition as_dict (v : json) : result (gmap string json) :=
  match v with
  | JObj m => Ok m
  | _ => Raise AttributeError
  end.

(** [m.get(k)] is [m !! k] with [None] read as Python's [None]. *)
Definition get (m : gmap string json) (k : string) : json :=
  default JNull (m !! k).

(** [v == "lit"] for a string literal. *)
Definition eq_str (v : json) (lit : string) : bool :=
  match v with
  | JStr s => String.eqb s lit
  | _ => false
  end.

(** [m[k]] *)
Definition item (m : gmap string json) (k : string) : result json :=
  match m !! k with
  | Some v => Ok v
  | None => Raise KeyError
  end.

(** [v[:n]]: strings and lists can be sliced. *)
Definition slice_to (n : nat) (v : json) : result json :=
  match v with
  | JStr s => Ok (JStr (take_chars n s))
  | JArr l => Ok (JArr (take n l))
  | _ => Raise TypeError
  end.

End Py.

(** ** OCR results, detection maps and the click resolvers *)

(** One OCR triple: the quadrilateral (four corner points, in pixels),
    the recognised text, the confidence. *)
Record ocr_element : Type := {
  corners : (Q * Q) * (Q * Q) * (Q * Q) * (Q * Q);
  otext : string;
  oconf : Q
}.

Definition ocr_result : Type := list ocr_element.

(** A rectangle [(x1, y1, x2, y2)] in pixels, and the detection map
    (label to rectangle) of one screenshot. *)
Definition box : Type := Q * Q * Q * Q.

(** Width and height of an image; a real image has positive sides. *)
Definition size : Type := positive * positive.

Definition fraction (v : Q) (side : positive) : Q := v / (Zpos side # 1).

Definition Qmin4 (a b c d : Q) : Q := Qmin (Qmin a b) (Qmin c d).
Definition Qmax4 (a b c d : Q) : Q := Qmax (Qmax a b) (Qmax c d).

(** Centre of the rectangle that covers the quadrilateral. *)
Definition quad_center (e : ocr_element) : Q * Q :=
  let '(p1, p2, p3, p4) := corners e in
  ((Qmin4 p1.1 p2.1 p3.1 p4.1 + Qmax4 p1.1 p2.1 p3.1 p4.1) / 2,
   (Qmin4 p1.2 p2.2 p3.2 p4.2 + Qmax4 p1.2 p2.2 p3.2 p4.2) / 2)%Q.

Module Resolver.
Import Text.

(** Index of the first element that satisfies [p]. *)
Fixpoint index_where (p : ocr_element -> bool) (r : ocr_result) : option nat :=
  match r with
  | [] => None
  | e :: r' => if p e then Some 0 else S <$> index_where p r'
  end.

(** Modelled from the spec: [get_text_element] of [operate/utils/ocr.py]
    is not part of the sources. Section 4.3: the resolver picks the OCR
    element whose text best matches the target, deterministically,
    preferring an exact match over a partial one (substring containment),
    and fails when no element matches. The target must be a string. *)
Definition get_text_element (r : ocr_result) (target : json) : result nat :=
  match target with
  | JStr t =>
      match index_where (fun e => String.eqb (otext e) t) r with
      | Some i => Ok i
      | None =>
          match index_where (fun e => str_in t (otext e)) r with
          | Some i => Ok i
          | None => Raise ResolveError
          end
      end
  | _ => Raise TypeError
  end.

(** Modelled from the spec: [get_text_coordinates] of
    [operate/utils/ocr.py] is not part of the sources. Section 4.3 and the
    scenario of section 8: the centre of the element's box as a fraction
    of the screenshot's width and height. *)
Definition get_text_coordinates (r : ocr_result) (i : nat) (screen : size)
    : result (Q * Q) :=
  match r !! i with
  | Some e =>
      let (cx, cy) := quad_center e in
      Ok (fraction cx screen.1, fraction cy screen.2)
  | None => Raise IndexError
  end.

(** Modelled from the spec: [get_label_coordinates] of
    [operate/utils/label.py] is not part of the sources. Section 4.4: the
    box of the label in the detection map, unresolved when the label is
    absent. *)
Definition get_label_coordinates (label : json) (labels : gmap string box)
    : option box :=
  match label with
  | JStr l => labels !! l
  | _ => None
  end.

(** Modelled from the spec: [get_click_position_in_percent] of
    [operate/utils/label.py] is not part of the sources. Section 4.4: the
    centre of the box as a fraction of the image size; nothing when the
    box is unresolved. *)
Definition get_click_position_in_percent (coordinates : option box) (image_size : size)
    : option (Q * Q) :=
  match coordinates with
  | Some (x1, y1, x2, y2) =>
      Some (fraction ((x1 + x2) / 2)%Q image_size.1,
            fraction ((y1 + y2) / 2)%Q image_size.2)
  | None => None
  end.

End Resolver.

(** ** The Multi-Strategy Target Locator: selection among the candidates *)

Module Locator.

Inductive source_kind : Type := Template | TextMatch | Icon | Shape.

(** An entry of [results] in [find_ui_element_by_text_and_vision]. *)
Record candidate : Type := {
  kind : source_kind;
  confidence : Q;
  center : Q * Q;
  bbox : box
}.

(** [results.sort(key=confidence, reverse=True)]: Python's sort is stable,
    also with [reverse=True]: candidates of equal confidence keep the
    order in which they were appended. *)
Fixpoint insert_desc (x : candidate) (sorted : list candidate) : list candidate :=
  match sorted with
  | [] => [x]
  | e :: rest =>
      if Qlt_le_dec (confidence x) (confidence e)
      then e :: insert_desc x rest
      else x :: sorted
  end.

Fixpoint sort_desc (l : list candidate) : list candidate :=
  match l with
  | [] => []
  | x :: l' => insert_desc x (sort_desc l')
  end.

(** The end of [find_ui_element_by_text_and_vision] (from [if results:]):
    [results] is the pool filled by the template, OCR and shape
    approaches, in that order; [screen] is [screenshot.size]. The result
    is [None] when nothing was found. *)
Definition find_ui_element_by_text_and_vision (results : list candidate) (screen : size)
    : option (Q * Q) :=
  match results with
  | [] => None
  | _ :: _ =>
      match sort_desc results with
      | best_match :: _ =>
          let (center_x, center_y) := center best_match in
          Some (fraction center_x screen.1, fraction center_y screen.2)
      | [] => None
      end
  end.

End Locator.

(** ** The Verification Probe: [verify_success] *)

Module Verify.

(** A screenshot as a numpy array: [shape] is (rows, columns), [pixels]
    the three channels of each pixel, row after row. *)
Record image : Type := {
  rows : nat;
  cols : nat;
  pixels : list (Z * Z * Z)
}.

Definition shape (img : image) : nat * nat := (rows img, cols img).

Definition well_formed (img : image) : Prop :=
  length (pixels img) = rows img * cols img.

(** The two functions of OpenCV that the probe relies on and that are not
    arithmetic on one pixel: [cv2.resize(img, (cols, rows))] and the
    grey value [cv2.cvtColor(_, COLOR_BGR2GRAY)] of one pixel. *)
Record opencv : Type := {
  resize : image -> nat -> nat -> image;
  gray : Z * Z * Z -> Z
}.

(** [cv2.absdiff] on one pixel. *)
Definition absdiff_pixel (p q : Z * Z * Z) : Z * Z * Z :=
  let '(a, b, c) := p in
  let '(d, e, f) := q in
  (Z.abs (a - d), Z.abs (b - e), Z.abs (c - f)).

(** [cv2.absdiff]: fails on arrays of different shapes. *)
Definition absdiff (a b : image) : result image :=
  if decide (shape a = shape b)
  then Ok {| rows := rows a; cols := cols a;
             pixels := zip_with absdiff_pixel (pixels a) (pixels b) |}
  else Raise CaptureError.

(** [cv2.threshold(g, 30, 255, THRESH_BINARY)] on one grey value. *)
Definition threshold (g : Z) : Z := if (30 <? g)%Z then 255%Z else 0%Z.

(** [np.count_nonzero] *)
Definition count_nonzero (l : list Z) : nat :=
  length (filter (fun v => v ≠ 0%Z) l).

Definition verify_success (cv : opencv) (screenshot_before screenshot_after : image)
    (task_type : string) : result bool :=
  let before_np := screenshot_before in
  let after_np :=
    if decide (shape before_np = shape screenshot_after) then screenshot_after
    else resize cv screenshot_after (cols before_np) (rows before_np) in
  if String.eqb task_type "open_folder" then
    match absdiff before_np after_np with
    | Ok diff =>
        let gray_diff := gray cv <$> pixels diff in
        let thresholded := threshold <$> gray_diff in
        let changed_pixels := count_nonzero thresholded in
        let total_pixels := length thresholded in
        if decide (total_pixels = 0) then Raise ZeroDivisionError
        else
          let change_percentage :=
            ((Z.of_nat changed_pixels # 1) / (Z.of_nat total_pixels # 1) * 100)%Q in
          Ok (if Qlt_le_dec 15 change_percentage then true else false)
    | Raise e => Raise e
    end
  else Ok false.

End Verify.

(** ** Messages, the session state and the outside world *)

Inductive block : Type :=
| BText (text : string)
| BImageUrl (url : string)
| BImage (data : string).

Inductive body : Type :=
| CText (s : string)
| CBlocks (l : list block).

Record message : Type := { role : string; content : body }.

(** What the outside presents to one invocation of a backend function:
    the turn-local screenshot, the answers of the model and the results of
    the OCR and detection passes on that screenshot. *)
Record attempt : Type := {
  capture : option exn;            (* [Some e]: capturing or encoding the screen raises [e] *)
  img_base64 : string;
  reply : result string;           (* the model call: raises, or the raw text of the answer *)
  repair : result string;          (* the answer to the corrective request of claude-3 *)
  readtext : result ocr_result;    (* [easyocr.Reader(..).readtext(screenshot)] *)
  labelled : result (string * gmap string box);   (* [add_labels] *)
  screen : size
}.

(** The n-th invocation of a backend function in a session sees [w n]. *)
Definition world : Type := nat -> attempt.

(** The collaborators that are functions of their arguments only. *)
Record config : Type := {
  json_loads : string -> option json;              (* [None]: JSONDecodeError *)
  get_user_first_message_prompt : string;
  get_user_prompt : string;
  get_system_prompt : string -> string -> string;  (* model, objective *)
  format_2f : Q -> string                          (* the format [:.2f] *)
}.

(** The helpers of [operate/utils], which the backends call. *)
Record helpers : Type := {
  get_text_element : ocr_result -> json -> result nat;
  get_text_coordinates : ocr_result -> nat -> size -> result (Q * Q);
  get_label_coordinates : json -> gmap string box -> option box;
  get_click_position_in_percent : option box -> size -> option (Q * Q)
}.

Definition spec_helpers : helpers := {|
  get_text_element := Resolver.get_text_element;
  get_text_coordinates := Resolver.get_text_coordinates;
  get_label_coordinates := Resolver.get_label_coordinates;
  get_click_position_in_percent := Resolver.get_click_position_in_percent
|}.

(** The message history is one Python list shared by all the calls of a
    session; [attempts] counts the invocations of backend functions. *)
Record state : Type := { messages : list message; attempts : nat }.

(** A computation on the session: a value or an exception, and the
    session as the computation leaves it (mutations survive an
    exception); [None] stands for a computation that has no outcome. That
    the backends always have one is part of C2. *)
Definition M (A : Type) : Type := state -> option (result A * state).

Definition ret {A} (a : A) : M A := fun s => Some (Ok a, s).
Definition raise {A} (e : exn) : M A := fun s => Some (Raise e, s).

Definition bind {A B} (m : M A) (k : A -> M B) : M B :=
  fun s =>
    match m s with
    | Some (Ok a, s') => k a s'
    | Some (Raise e, s') => Some (Raise e, s')
    | None => None
    end.

(** [try: m except Exception as e: h e] *)
Definition catch {A} (m : M A) (h : exn -> M A) : M A :=
  fun s =>
    match m s with
    | Some (Raise e, s') => h e s'
    | other => other
    end.

Definition lift {A} (r : result A) : M A :=
  match r with Ok a => ret a | Raise e => raise e end.

Definition rbind {A B} (r : result A) (k : A -> result B) : result B :=
  match r with Ok a => k a | Raise e => Raise e end.

Notation "'let!' x := m 'in' k" := (bind m (fun x => k))
  (at level 10, x name, m at level 100, k at level 200).
Notation "'do!' m 'in' k" := (bind m (fun _ => k))
  (at level 10, m at level 100, k at level 200).
Notation "'let?' x := r 'in' k" := (rbind r (fun x => k))
  (at level 10, x name, r at level 100, k at level 200).

(** [messages.append(m)] *)
Definition append (m : message) : M unit :=
  fun s => Some (Ok tt, {| messages := messages s ++ [m]; attempts := attempts s |}).

(** [messages[0] = m]: IndexError on an empty list. *)
Definition set_first (m : message) : M unit :=
  fun s =>
    match messages s with
    | [] => Some (Raise IndexError, s)
    | _ :: rest => Some (Ok tt, {| messages := m :: rest; attempts := attempts s |})
    end.

Definition get_messages : M (list message) := fun s => Some (Ok (messages s), s).

(** Entering a backend function: the next slice of the world. *)
Definition enter (w : world) : M attempt :=
  fun s => Some (Ok (w (attempts s)),
                 {| messages := messages s; attempts := S (attempts s) |}).

(** The screen capture and the reading of the file. *)
Definition captured (a : attempt) : M unit :=
  match capture a with Some e => raise e | None => ret tt end.

(** Run [m] on another list of messages; the session's list is untouched. *)
Definition on_messages {A} (other : list message) (m : M A) : M A :=
  fun s =>
    match m {| messages := other; attempts := attempts s |} with
    | Some (r, s') => Some (r, {| messages := messages s; attempts := attempts s' |})
    | None => None
    end.

Definition obj (fields : list (string * json)) : json := JObj (list_to_map fields).

(** ** The response normaliser of [call_claude_37] *)

Module Normalizer.
Import Text Re Py.

Definition is_char (a : ascii) (c : ascii) : bool := bool_decide (c = a).

(** The letter [a], whatever its case ([re.IGNORECASE]). *)
Definition is_letter (a : ascii) (c : ascii) : bool := bool_decide (lower_char c = a).

(** (\b\w+-\w+-\w+\b|\bsbc[- ]\w+\b) with [re.IGNORECASE] *)
Definition sbc_pattern : re :=
  let w := Plus (Cls is_word) in
  let dash := Cls (is_char "-") in
  Grp (Alt
    (Cat WordB (Cat w (Cat dash (Cat w (Cat dash (Cat w WordB))))))
    (Cat WordB (Cat (Cls (is_letter "s")) (Cat (Cls (is_letter "b")) (Cat (Cls (is_letter "c"))
      (Cat (Cls (fun c => is_char "-" c || is_char " " c)) (Cat w WordB))))))).

(** (\[.*\]|\{.*\}) with [re.DOTALL] *)
Definition json_block : re :=
  let any := Star (Cls (fun _ => true)) in
  Grp (Alt (Cat (Cls (is_char "[")) (Cat any (Cls (is_char "]"))))
           (Cat (Cls (is_char "{")) (Cat any (Cls (is_char "}"))))).

Definition click_indicators : list string :=
  ["click on"; "click the"; "clicking on"; "clicking the"].

(** The loop over [click_indicators]: the first indicator that occurs
    decides, also when what follows it is empty. *)
Fixpoint by_indicator (indicators : list string) (thought : string) : string :=
  match indicators with
  | [] => EmptyString
  | indicator :: rest =>
      match after_first indicator (lower thought) with
      | Some tail => strip (before_first "," (before_first "." tail))
      | None => by_indicator rest thought
      end
  end.

(** [target_description] before the test [if not target_description]. *)
Definition target_description (m : gmap string json) : result json :=
  match m !! "text" with
  | Some v => Ok v
  | None =>
      match m !! "thought" with
      | Some (JStr thought) =>
          match search Extract.quoted_pattern thought with
          | Some g => Ok (JStr g)
          | None =>
              match search sbc_pattern thought with
              | Some g => Ok (JStr g)
              | None => Ok (JStr (by_indicator click_indicators thought))
              end
          end
      | Some _ => Raise TypeError
      | None => Ok (JStr EmptyString)
      end
  end.

(** An empty description is replaced by a text built from
    [operation['x']] and [operation['y']], which must exist. From here
    on the description is only printed. *)
Definition described (m : gmap string json) : result unit :=
  let? td := target_description m in
  if truthy td then Ok tt
  else (let? x := item m "x" in let? y := item m "y" in Ok tt).

(** The [try] around the double-click marker: the flag is set only when
    both coordinates can be read. *)
Definition flag_double_click (m : gmap string json) : gmap string json :=
  match m !! "x", m !! "y" with
  | Some _, Some _ => <["double_click" := JBool true]> m
  | _, _ => m
  end.

(** One step of the loop that computes [need_double_click]. *)
Definition wants_double_click (op : json) : result bool :=
  let? m := as_dict op in
  if truthy (default (JBool false) (m !! "double_click")) then Ok true
  else
    match m !! "thought" with
    | Some (JStr thought) =>
        Ok (str_in "double" (lower thought) && str_in "click" (lower thought))
    | Some _ => Raise AttributeError
    | None => Ok false
    end.

Fixpoint need_double_click (ops : list json) : result bool :=
  match ops with
  | [] => Ok false
  | op :: rest =>
      let? b := wants_double_click op in
      if b then Ok true else need_double_click rest
  end.

(** The loop [for i, operation in enumerate(parsed_content)]. *)
Fixpoint process (need : bool) (i : nat) (ops : list json) : result (list json) :=
  match ops with
  | [] => Ok []
  | op :: rest =>
      let? m := as_dict op in
      if eq_str (get m "operation") "click" then
        let? u := described m in
        let m' := if need && (i =? 0) then flag_double_click m else m in
        if need && (0 <? i) then process need (S i) rest
        else (let? tail := process need (S i) rest in Ok (JObj m' :: tail))
      else (let? tail := process need (S i) rest in Ok (op :: tail))
  end.

Definition wait_operation : json :=
  obj [("operation", JStr "wait"); ("duration", JNum 1)].

(** From the parsed content to the list that [call_claude_37] returns
    when nothing raises. *)
Definition normalize (parsed_content : json) : result (list json) :=
  let? ops := iterate parsed_content in
  let? need := need_double_click ops in
  let? processed_content := process need 0 ops in
  Ok (match processed_content with [] => [wait_operation] | _ => processed_content end).

(** The operation returned by the [except] clause of [call_claude_37]. *)
Definition safe_operation : json :=
  obj [("thought", JStr "Continuing task after error");
       ("operation", JStr "wait"); ("duration", JNum 1)].

(** What the turn returns for a parsed content, the [except] clause
    included. *)
Definition returned_batch (parsed_content : json) : list json :=
  match normalize parsed_content with
  | Ok batch => batch
  | Raise _ => [safe_operation]
  end.

(** A JSON text written with ['] where the source has the double quote. *)
Definition dq (s : string) : string :=
  (fix go (s : string) : string :=
     match s with
     | EmptyString => EmptyString
     | String c s' => String (if bool_decide (c = "'"%char) then "034"%char else c) (go s')
     end) s.

Definition done_text : string :=
  dq "[{'thought': 'Task complete', 'operation': 'done'}]".
Definition wait_text : string :=
  dq "[{'thought': 'Continuing task', 'operation': 'wait', 'duration': 1}]".

(** [clean_json] *)
Definition newline : string := String "010" EmptyString.

Definition clean_json (content : string) : string :=
  let content :=
    if startswith "```json" content then strip (drop_chars 7 content)
    else if startswith "```" content then strip (drop_chars 3 content)
    else content in
  let content :=
    if endswith "```" content
    then strip (take_chars (String.length content - 3) content)
    else content in
  join newline (strip <$> splitlines content).

(** The JSON text that [call_claude_37] parses, from the raw answer. *)
Definition json_text (raw : string) : string :=
  if startswith "[" (strip raw) || startswith "{" (strip raw) then clean_json raw
  else
    match search json_block raw with
    | Some g => clean_json g
    | None =>
        if str_in "done" (lower raw) || str_in "complete" (lower raw)
        then done_text else wait_text
    end.

Definition parse (cfg : config) (raw : string) : json :=
  match json_loads cfg (json_text raw) with
  | Some v => v
  | None =>
      JArr [obj [("thought", JStr "Continuing with task");
                 ("operation", JStr "wait"); ("duration", JNum 1)]]
  end.

End Normalizer.

(** ** The backends *)

Module Backend.
Import Text Py Normalizer.

Section Backends.

Context (cfg : config) (hp : helpers) (w : world).

Definition user_prompt (s : state) : string :=
  if length (messages s) =? 1
  then get_user_first_message_prompt cfg
  else get_user_prompt cfg.

Definition remember : string :=
  "**REMEMBER** Only output json format, do not append any other text.".

(** The user message of the OpenAI-style backends: a text block and the
    screenshot as a data URL. *)
Definition vision_message (text image : string) : message :=
  {| role := "user";
     content := CBlocks [BText text; BImageUrl ("data:image/jpeg;base64," +:+ image)] |}.

Definition assistant_message (text : string) : message :=
  {| role := "assistant"; content := CText text |}.

Definition system_message (model objective : string) : message :=
  {| role := "system"; content := CText (get_system_prompt cfg model objective) |}.

Definition append_vision (suffix image : string) : M unit :=
  fun s => append (vision_message (user_prompt s +:+ suffix) image) s.

(** [json.loads] as a step that may raise. *)
Definition loads (text : string) : result json :=
  match json_loads cfg text with
  | Some v => Ok v
  | None => Raise JSONDecodeError
  end.

(** [call_gpt_4o]. The [except] clause prints [content]: when the
    failure came before [content] was assigned (capture or model call),
    that raises UnboundLocalError out of the function; when the answer
    was received but is not JSON, the function calls itself again on
    the same message list. The function keeps no count of these calls:
    what ends them is the recursion limit of the interpreter. [fuel] is
    the number of frames that the interpreter still grants to this
    recursion; with none left, the first call in the body of the [try]
    ([config.initialize_openai()]) raises RecursionError, [content] is
    not assigned and the [except] clause raises UnboundLocalError. *)
Fixpoint call_gpt_4o (fuel : nat) : M json :=
  match fuel with
  | 0 => raise UnboundLocalError
  | S fuel' =>
      let! a := enter w in
      let! raw :=
        catch
          (do! captured a in
           do! append_vision EmptyString (img_base64 a) in
           lift (reply a))
          (fun _ => raise UnboundLocalError) in
      let content := clean_json raw in
      match json_loads cfg content with
      | Some parsed =>
          do! append (assistant_message content) in
          ret parsed
      | None => call_gpt_4o fuel'
      end
  end.

(** [gpt_4_fallback] *)
Definition gpt_4_fallback (fuel : nat) (objective : string) : M json :=
  do! set_first (system_message "gpt-4o" objective) in
  call_gpt_4o fuel.

(** [confirm_system_prompt] *)
Definition confirm_system_prompt (objective model : string) : M unit :=
  set_first (system_message model objective).

(** The body of [if operation.get("operation") == "click":] in the
    OCR-augmented backends; [shorten] is what the backend does to
    [text_to_click] before it hands it to [get_text_element]. *)
Definition click_by_text (shorten : json -> result json) (a : attempt)
    (m : gmap string json) : result json :=
  let text_to_click := get m "text" in
  let? result := readtext a in
  let? target := shorten text_to_click in
  let? text_element_index := get_text_element hp result target in
  let? coordinates := get_text_coordinates hp result text_element_index (screen a) in
  Ok (JObj (<["y" := JNum coordinates.2]> (<["x" := JNum coordinates.1]> m))).

(** The loop [for operation in content:] of the OCR-augmented backends. *)
Fixpoint resolve_text_clicks (shorten : json -> result json) (a : attempt)
    (ops : list json) : result (list json) :=
  match ops with
  | [] => Ok []
  | op :: rest =>
      let? m := as_dict op in
      if eq_str (get m "operation") "click" then
        let? op' := click_by_text shorten a m in
        let? tail := resolve_text_clicks shorten a rest in
        Ok (op' :: tail)
      else
        (let? tail := resolve_text_clicks shorten a rest in
         Ok (op :: tail))
  end.

(** The common text of [call_gpt_4o_with_ocr], [call_o1_with_ocr] and
    [call_qwen_vl_with_ocr]; [suffix] is what the backend adds to the
    user prompt. *)
Definition with_ocr (suffix : string) (fuel : nat) (objective model : string) : M json :=
  let! a := enter w in
  catch
    (do! confirm_system_prompt objective model in
     do! captured a in
     do! append_vision suffix (img_base64 a) in
     let! raw := lift (reply a) in
     let content_str := clean_json raw in
     let! content := lift (loads content_str) in
     let! processed_content :=
       lift (let? ops := iterate content in resolve_text_clicks Ok a ops) in
     do! append (assistant_message content_str) in
     ret (JArr processed_content))
    (fun _ => gpt_4_fallback fuel objective).

Definition call_gpt_4o_with_ocr : nat -> string -> string -> M json :=
  with_ocr EmptyString.

Definition call_o1_with_ocr : nat -> string -> string -> M json :=
  with_ocr EmptyString.

Definition call_qwen_vl_with_ocr : nat -> string -> string -> M json :=
  with_ocr remember.

(** The first (and only) iteration of the loop of [call_gpt_4o_labeled]. *)
Definition label_first (fuel : nat) (a : attempt) (label_coordinates : gmap string box)
    (operation : json) : M json :=
  let! m := lift (as_dict operation) in
  if eq_str (get m "operation") "click" then
    let label := get m "label" in
    let coordinates := get_label_coordinates hp label label_coordinates in
    match get_click_position_in_percent hp coordinates (screen a) with
    | None => call_gpt_4o fuel
    | Some (x, y) =>
        ret (JArr [JObj (<["y" := JStr (format_2f cfg y)]>
                         (<["x" := JStr (format_2f cfg x)]> m))])
    end
  else ret (JArr [operation]).

(** [call_gpt_4o_labeled]: [return processed_content] is the last
    statement of the loop body; with no operation at all the function
    reaches its end and returns [None]. *)
Definition call_gpt_4o_labeled (fuel : nat) (objective model : string) : M json :=
  let! a := enter w in
  catch
    (do! confirm_system_prompt objective model in
     do! captured a in
     let! labels := lift (labelled a) in
     do! append_vision EmptyString labels.1 in
     let! raw := lift (reply a) in
     let content := clean_json raw in
     do! append (assistant_message content) in
     let! parsed := lift (loads content) in
     let! ops := lift (iterate parsed) in
     match ops with
     | [] => ret JNull
     | operation :: _ => label_first fuel a labels.2 operation
     end)
    (fun _ => call_gpt_4o fuel).

(** [call_ollama_llava]: the same recursion and the same end at the
    recursion limit ([config.initialize_ollama()] is the first call of
    the [try]; RecursionError is no [ollama.ResponseError]). *)
Fixpoint call_ollama_llava (fuel : nat) : M json :=
  match fuel with
  | 0 => raise UnboundLocalError
  | S fuel' =>
      let! a := enter w in
      let! received :=
        catch
          (do! captured a in
           do! (fun s => append {| role := "user"; content := CText (user_prompt s) |} s) in
           let! raw := lift (reply a) in
           ret (Some (strip raw)))
          (fun e =>
             match e with
             | ResponseError => ret None
             | _ => raise UnboundLocalError
             end) in
      match received with
      | None => ret JNull
      | Some text =>
          let content := clean_json text in
          match json_loads cfg content with
          | Some parsed =>
              do! append (assistant_message content) in
              ret parsed
          | None => call_ollama_llava fuel'
          end
      end
  end.

(** [call_gemini_pro_vision] *)
Definition call_gemini_pro_vision (fuel : nat) : M json :=
  let! a := enter w in
  catch
    (do! captured a in
     let! raw := lift (reply a) in
     lift (loads (drop_chars 1 raw)))
    (fun _ => call_gpt_4o fuel).

(** The conversion of the history in the [except] clause of
    [call_claude_3_with_ocr]. *)
Definition to_gpt4_block (b : block) : block :=
  match b with
  | BImage data => BImageUrl ("data:image/png;base64," +:+ data)
  | _ => b
  end.

Definition to_gpt4_message (m : message) : option message :=
  if String.eqb (role m) "user" then
    Some {| role := "user";
            content := CBlocks (match content m with
                                | CBlocks l => to_gpt4_block <$> l
                                | CText _ => []
                                end) |}
  else if String.eqb (role m) "assistant" then
    Some {| role := "assistant"; content := content m |}
  else None.

Definition gpt4_messages (msgs : list message) : result (list message) :=
  match msgs with
  | [] => Raise IndexError
  | first :: rest => Ok (first :: omap to_gpt4_message rest)
  end.

(** [call_claude_3_with_ocr]: one corrective request when the first
    answer is not JSON; only the first three characters of the text to
    click are handed to [get_text_element]. *)
Definition call_claude_3_with_ocr (fuel : nat) (objective model : string) : M json :=
  let! a := enter w in
  catch
    (do! confirm_system_prompt objective model in
     do! captured a in
     do! (fun s => append {| role := "user";
                             content := CBlocks [BImage (img_base64 a);
                                                 BText (user_prompt s +:+ remember)] |} s) in
     let! raw := lift (reply a) in
     let! answer :=
       match json_loads cfg (clean_json raw) with
       | Some parsed => ret (clean_json raw, parsed)
       | None =>
           let! raw' := lift (repair a) in
           let! parsed := lift (loads (clean_json raw')) in
           ret (clean_json raw', parsed)
       end in
     let! processed_content :=
       lift (let? ops := iterate answer.2 in resolve_text_clicks (slice_to 3) a ops) in
     do! append (assistant_message answer.1) in
     ret (JArr processed_content))
    (fun _ =>
       let! msgs := get_messages in
       let! converted := lift (gpt4_messages msgs) in
       on_messages converted (gpt_4_fallback fuel objective)).

(** [call_claude_37] *)
Definition call_claude_37 : M json :=
  let! a := enter w in
  catch
    (do! captured a in
     let! raw := lift (reply a) in
     let! processed_content := lift (normalize (parse cfg raw)) in
     do! append (assistant_message raw) in
     ret (JArr processed_content))
    (fun _ => ret (JArr [safe_operation])).

(** [get_next_action]: the operation part of what the dispatcher
    returns. *)
Definition get_next_action (fuel : nat) (model objective : string) : M json :=
  if String.eqb model "gpt-4" then call_gpt_4o fuel
  else if String.eqb model "claude-3.7" then call_claude_37
  else if String.eqb model "qwen-vl" then call_qwen_vl_with_ocr fuel objective model
  else if String.eqb model "gpt-4-with-som" then call_gpt_4o_labeled fuel objective model
  else if String.eqb model "gpt-4-with-ocr" then call_gpt_4o_with_ocr fuel objective model
  else if String.eqb model "o1-with-ocr" then call_o1_with_ocr fuel objective model
  else if String.eqb model "agent-1" then ret (JStr "coming soon")
  else if String.eqb model "gemini-pro-vision" then call_gemini_pro_vision fuel
  else if String.eqb model "llava" then call_ollama_llava fuel
  else if String.eqb model "claude-3" then call_claude_3_with_ocr fuel objective model
  else raise ModelNotRecognizedException.

End Backends.

End Backend.

(** ** Notions of the specification *)

Module Spec.
Import Text.

Fixpoint all_chars (p : ascii -> bool) (s : string) : bool :=
  match s with
  | EmptyString => true
  | String c s' => p c && all_chars p s'
  end.





End Spec.

(** ** The quoted pattern, step by step *)

Module QuotedAux.
Import Text Re Extract Spec.



End QuotedAux.

(** ** What the verification probe compares and counts *)

Module VerifySpec.
Import Verify.

(** The after image as it is compared: resized to the shape of the
    before image when the shapes differ. *)
Definition compared (cv : opencv) (before after : image) : image :=
  if decide (shape before = shape after) then after
  else resize cv after (cols before) (rows before).

(** The absolute difference of two channel values: how far apart they
    are. *)
Definition distance (a b : Z) : Z := (Z.max a b - Z.min a b)%Z.

(** A pixel counts as changed when the grey value of the absolute
    difference, taken channel by channel, exceeds the luminance threshold
    30. *)
Definition changed_pixel (cv : opencv) (pq : (Z * Z * Z) * (Z * Z * Z)) : bool :=
  let '((b1, g1, r1), (b2, g2, r2)) := pq in
  (30 <? gray cv (distance b1 b2, distance g1 g2, distance r1 r2))%Z.

Definition changed_count (cv : opencv) (a b : image) : nat :=
  length (filter (fun pq => changed_pixel cv pq = true) (zip (pixels a) (pixels b))).

End VerifySpec.

(** ** Batches of operations *)

Module NormalizerSpec.
Import Text Py Normalizer.

(** The operation is a click: [operation.get("operation") == "click"]. *)
Definition is_click (op : json) : bool :=
  match op with
  | JObj m => eq_str (get m "operation") "click"
  | _ => false
  end.

(** The operation carries an explicit double-click flag. *)
Definition has_flag (m : gmap string json) : Prop :=
  exists v, m !! "double_click" = Some v /\ truthy v = true.

(** The words [double] and [click] both occur in the thought, whatever
    their case. *)
Definition mentions_double_click (m : gmap string json) : Prop :=
  exists t, m !! "thought" = Some (JStr t) /\
    str_in "double" (lower t) = true /\ str_in "click" (lower t) = true.

Definition heuristic_fires (ops : list json) : Prop :=
  exists m, JObj m ∈ ops /\ (has_flag m \/ mentions_double_click m).

(** The thought of the operation, when it is looked at, is a text. *)
Definition thought_is_text (m : gmap string json) : Prop :=
  m !! "text" = None ->
  forall v, m !! "thought" = Some v -> exists t, v = JStr t.

Definition has_coordinates (m : gmap string json) : Prop :=
  is_Some (m !! "x") /\ is_Some (m !! "y").

(** A target can be read off the thought: a quoted run, a name such as
    sbc-images-main, or a phrase after one of the click indicators. *)
Definition names_a_target (thought : string) : Prop :=
  is_Some (Re.search Extract.quoted_pattern thought) \/
  is_Some (Re.search sbc_pattern thought) \/
  by_indicator click_indicators thought <> EmptyString.

(** The click can be described. With a text: the text is not empty (nor
    any other false value), or the click carries both coordinates.
    Without a text: its thought, when it has one, is a string, and either
    a target can be read off it or the click carries both coordinates. *)
Definition describable (m : gmap string json) : Prop :=
  match m !! "text" with
  | Some v => truthy v = true \/ has_coordinates m
  | None =>
      match m !! "thought" with
      | Some (JStr thought) => names_a_target thought \/ has_coordinates m
      | Some _ => False
      | None => has_coordinates m
      end
  end.

End NormalizerSpec.

(** ** Sessions and the answers of the model *)

Module BackendSpec.
Import Text Py Normalizer Backend NormalizerSpec.

Definition entered (s : state) : state :=
  {| messages := messages s; attempts := S (attempts s) |}.

Definition with_message (m : message) (s : state) : state :=
  {| messages := messages s ++ [m]; attempts := attempts s |}.



Definition gpt_vision (cfg : config) (a : attempt) (s : state) : message :=
  vision_message (user_prompt cfg s +:+ EmptyString) (img_base64 a).



Definition llava_vision (cfg : config) (s : state) : message :=
  {| role := "user"; content := CText (user_prompt cfg s) |}.

(** The session when the model is asked: the system prompt of the
    backend installed, the vision message appended. *)
Definition asked (cfg : config) (suffix model objective : string) (a : attempt)
    (s : state) : state :=
  let s' := {| messages := system_message cfg model objective :: tail (messages s);
               attempts := S (attempts s) |} in
  with_message (vision_message (user_prompt cfg s' +:+ suffix) (img_base64 a)) s'.

(** The target of the click finds no element in the OCR result. *)
Definition unresolvable (hp : helpers) (a : attempt) (m : gmap string json) : Prop :=
  exists r e, readtext a = Ok r /\ get_text_element hp r (get m "text") = Raise e.

(** How an operation of the output batch comes from the operation of the
    parsed batch: a click receives the coordinates that the resolver
    computed for its text, any other operation is unchanged. *)
Definition resolved_from (hp : helpers) (a : attempt) (op op' : json) : Prop :=
  match op with
  | JObj m =>
      if eq_str (get m "operation") "click" then
        exists r i xy,
          readtext a = Ok r /\
          get_text_element hp r (get m "text") = Ok i /\
          get_text_coordinates hp r i (screen a) = Ok xy /\
          op' = JObj (<["y" := JNum xy.2]> (<["x" := JNum xy.1]> m))
      else op' = op
  | _ => False
  end.

(** The session when [call_gpt_4o_labeled] starts to look at the
    operations: the vision message and the answer are in the history. *)
Definition labeled_asked (cfg : config) (model objective image raw : string)
    (s : state) : state :=
  let s' := {| messages := system_message cfg model objective :: tail (messages s);
               attempts := S (attempts s) |} in
  with_message (assistant_message (clean_json raw))
    (with_message (vision_message (user_prompt cfg s' +:+ EmptyString) image) s').

(** The hand-over of [call_gpt_4o_labeled] to [call_gpt_4o]: the call
    sits inside the [try], so a failure of that call is answered by one
    more call from the [except] clause. *)
Definition handed_over (cfg : config) (w : world) (fuel : nat) : M json :=
  catch (call_gpt_4o cfg w fuel) (fun _ => call_gpt_4o cfg w fuel).

(** Something raises during the turn of [call_claude_37]: the capture,
    the model call, or the processing of the operations. *)
Definition turn_fails (cfg : config) (a : attempt) : Prop :=
  capture a <> None \/
  (exists e, reply a = Raise e) \/
  (exists raw e, reply a = Ok raw /\ normalize (parse cfg raw) = Raise e).

End BackendSpec.

(** ** Exact matches in an OCR result *)

Module ResolverSpec.
Import Text Py Backend.

(** The element of index [i] is the first one whose text is exactly [t]. *)
Definition first_exact (r : ocr_result) (t : string) (i : nat) (e : ocr_element) : Prop :=
  r !! i = Some e /\ otext e = t /\
  forall j e', j < i -> r !! j = Some e' -> otext e' <> t.

(** The click with the centre of the element as its coordinates. *)
Definition placed (m : gmap string json) (e : ocr_element) (a : attempt) : json :=
  JObj (<["y" := JNum (fraction (quad_center e).2 (screen a).2)]>
        (<["x" := JNum (fraction (quad_center e).1 (screen a).1)]> m)).

End ResolverSpec.

(** ** The scenario of the Text Target Extractor *)

Module Scenario.



End Scenario.

(** ** Concrete sessions and screens *)

Module Examples.
Import Text Py Normalizer Backend.

(** A [json.loads] that knows the documents of the examples. *)
Definition loads_table (table : list (string * json)) (text : string) : option json :=
  snd <$> List.find (fun kv => String.eqb kv.1 text) table.

Definition digit (n : nat) : ascii := ascii_of_nat (48 + n).

Fixpoint decimal_onto (fuel n : nat) (acc : string) : string :=
  match fuel with
  | 0 => acc
  | S fuel' =>
      let acc' := String (digit (n mod 10)) acc in
      if n / 10 =? 0 then acc' else decimal_onto fuel' (n / 10) acc'
  end.

(** The format [:.2f] on a rational that is not negative and that is
    the value of a float: the exact value is rounded to the nearest
    hundredth, a tie to the even one (0.125 gives 0.12, 0.375 gives
    0.38). *)
Definition two_decimals (q : Q) : string :=
  let scaled := (q * 100)%Q in
  let low := Qfloor scaled in
  let n :=
    Z.to_nat
      match (scaled - inject_Z low ?= 1 # 2)%Q with
      | Lt => low
      | Gt => (low + 1)%Z
      | Eq => if Z.even low then low else (low + 1)%Z
      end in
  decimal_onto (S n) (n / 100) EmptyString
  +:+ String "." (String (digit (n / 10 mod 10)) (String (digit (n mod 10)) EmptyString)).

Definition config_of (table : list (string * json)) : config := {|
  json_loads := loads_table table;
  get_user_first_message_prompt := "What is the first action?";
  get_user_prompt := "What is the next action?";
  get_system_prompt := fun model objective => model +:+ ": " +:+ objective;
  format_2f := two_decimals
|}.

(** An attempt in which the screen is captured and the model answers
    [answer]; the OCR pass reads [seen], the detector finds [found]. *)
Definition attempt_of (answer : result string) (seen : ocr_result)
    (found : gmap string box) : attempt := {|
  capture := None;
  img_base64 := "c2NyZWVu";
  reply := answer;
  repair := Raise ClientError;
  readtext := Ok seen;
  labelled := Ok ("bGFiZWxz", found);
  screen := (1000, 800)%positive
|}.

Definition answers (raw : string) : attempt := attempt_of (Ok raw) [] ∅.

(** The world that presents the attempts of [l] in turn, then [last]
    for ever. *)
Definition world_of (l : list attempt) (last : attempt) : world :=
  fun n => default last (l !! n).

Definition session_start : state :=
  {| messages := [{| role := "system"; content := CText "objective" |}]; attempts := 0 |}.

(** *** Double clicks *)

Definition click_at_half : gmap string json :=
  list_to_map [("operation", JStr "click");
               ("thought", JStr "double click the Documents folder");
               ("x", JNum (1 # 2)); ("y", JNum (1 # 2))].

Definition click_at_half_text : string :=
  dq "[{'operation': 'click', 'thought': 'double click the Documents folder', 'x': 0.5, 'y': 0.5}, {'operation': 'click', 'thought': 'double click the Documents folder', 'x': 0.5, 'y': 0.5}]".

Definition click_on_text : gmap string json :=
  list_to_map [("operation", JStr "click");
               ("thought", JStr "double click the Documents folder");
               ("text", JStr "Documents")].

Definition click_on_text_text : string :=
  dq "[{'operation': 'click', 'thought': 'double click the Documents folder', 'text': 'Documents'}, {'operation': 'click', 'thought': 'double click the Documents folder', 'text': 'Documents'}]".

Definition press_enter : gmap string json :=
  list_to_map [("operation", JStr "press");
               ("thought", JStr "Double click did not work, press enter");
               ("keys", JArr [JStr "enter"])].

Definition press_then_click_text : string :=
  dq "[{'operation': 'press', 'thought': 'Double click did not work, press enter', 'keys': ['enter']}, {'operation': 'click', 'thought': 'double click the Documents folder', 'x': 0.5, 'y': 0.5}]".

Definition half_then_text_text : string :=
  dq "[{'operation': 'click', 'thought': 'double click the Documents folder', 'x': 0.5, 'y': 0.5}, {'operation': 'click', 'thought': 'double click the Documents folder', 'text': 'Documents'}]".

(** A click whose thought is not a text and that names no text. *)
Definition click_without_words : gmap string json :=
  list_to_map [("operation", JStr "click"); ("thought", JNum 1);
               ("x", JNum (1 # 2)); ("y", JNum (1 # 2))].

Definition half_then_mute_text : string :=
  dq "[{'operation': 'click', 'thought': 'double click the Documents folder', 'x': 0.5, 'y': 0.5}, {'operation': 'click', 'thought': 1, 'x': 0.5, 'y': 0.5}]".

Definition mixed_clicks_config : config :=
  config_of [(half_then_text_text, JArr [JObj click_at_half; JObj click_on_text]);
             (half_then_mute_text, JArr [JObj click_at_half; JObj click_without_words])].

Definition double_click_config : config :=
  config_of [(click_at_half_text, JArr [JObj click_at_half; JObj click_at_half]);
             (click_on_text_text, JArr [JObj click_on_text; JObj click_on_text]);
             (press_then_click_text, JArr [JObj press_enter; JObj click_at_half])].

End Examples.

Module BackendData.
Import Text Py Normalizer Backend Examples.

Definition press_op : json :=
  obj [("operation", JStr "press"); ("keys", JArr [JStr "enter"])].
Definition done_op : json := obj [("operation", JStr "done")].
Definition wait_op : json := obj [("operation", JStr "wait"); ("duration", JNum 1)].

Definition click_text (t : string) : gmap string json :=
  list_to_map [("operation", JStr "click"); ("text", JStr t)].
Definition click_label (l : string) : gmap string json :=
  list_to_map [("operation", JStr "click"); ("label", JStr l)].

(** The answers of the model in the examples, and what they parse to. *)
Definition nowhere_text : string :=
  dq "[{'operation': 'press', 'keys': ['enter']}, {'operation': 'click', 'text': 'Nowhere'}, {'operation': 'done'}]".
Definition documents_text : string :=
  dq "[{'operation': 'click', 'text': 'Documents'}]".
Definition label_text : string :=
  dq "[{'operation': 'click', 'label': '~9'}, {'operation': 'done'}]".
Definition label1_text : string :=
  dq "[{'operation': 'click', 'label': '~1'}, {'operation': 'done'}]".
Definition press_done_text : string :=
  dq "[{'operation': 'press', 'keys': ['enter']}, {'operation': 'done'}]".
Definition only_done_text : string := dq "[{'operation': 'done'}]".
Definition only_wait_text : string := dq "[{'operation': 'wait', 'duration': 1}]".

Definition backend_config : config :=
  config_of [(nowhere_text, JArr [press_op; JObj (click_text "Nowhere"); done_op]);
             (documents_text, JArr [JObj (click_text "Documents")]);
             (label_text, JArr [JObj (click_label "~9"); done_op]);
             (label1_text, JArr [JObj (click_label "~1"); done_op]);
             (press_done_text, JArr [press_op; done_op]);
             (only_done_text, JArr [done_op]);
             (only_wait_text, JArr [wait_op])].

(** The OCR result of the scenario of the specification: the text
    [Documents] in the box (100,200)-(180,230), after a shorter text
    [Doc] in the box (10,10)-(50,30), on a screenshot of 1000 by 800. *)
Definition rect (x1 y1 x2 y2 : Z) : (Q * Q) * (Q * Q) * (Q * Q) * (Q * Q) :=
  ((x1 # 1, y1 # 1), (x2 # 1, y1 # 1), (x2 # 1, y2 # 1), (x1 # 1, y2 # 1))%Q.

Definition doc_element : ocr_element :=
  {| corners := rect 10 10 50 30; otext := "Doc"; oconf := 9 # 10 |}.
Definition documents_element : ocr_element :=
  {| corners := rect 100 200 180 230; otext := "Documents"; oconf := 9 # 10 |}.
Definition desktop : ocr_result := [doc_element; documents_element].

Definition detected : gmap string box :=
  {[ "~1" := ((100 # 1, 200 # 1, 180 # 1, 230 # 1)%Q : box) ]}.

Definition sees (raw : string) : attempt := attempt_of (Ok raw) desktop detected.
Definition fails : attempt := attempt_of (Raise ClientError) desktop detected.


(** Two answers that are not JSON, then a valid one. *)
Definition third_time_lucky : world :=
  world_of [answers "Sure!"; answers "Here it is"] (answers only_done_text).

End BackendData.

Module VerifyData.
Import Verify.

(** Nearest-neighbour resampling, and the grey value that OpenCV
    computes for an 8-bit pixel (fixed-point weights 1868, 9617, 4899
    over 16384). *)
Definition nearest (img : image) (c r : nat) : image :=
  {| rows := r; cols := c;
     pixels :=
       flat_map (fun i =>
         map (fun j =>
                nth ((i * rows img / r) * cols img + j * cols img / c)
                    (pixels img) (0, 0, 0)%Z)
             (seq 0 c))
         (seq 0 r) |}.

Definition gray8 (p : Z * Z * Z) : Z :=
  let '(b, g, r) := p in
  ((1868 * b + 9617 * g + 4899 * r + 8192) / 16384)%Z.

Definition opencv_like : opencv := {| resize := nearest; gray := gray8 |}.

Definition black : Z * Z * Z := (0, 0, 0)%Z.
Definition white : Z * Z * Z := (255, 255, 255)%Z.

Definition desktop_before : image :=
  {| rows := 1; cols := 2; pixels := [black; black] |}.

Definition desktop_after : image :=
  {| rows := 2; cols := 2; pixels := [white; black; black; black] |}.

(** A white wall of two rows of four pixels, and the same wall with one
    black pixel: one pixel in eight has changed. *)
Definition wall_before : image :=
  {| rows := 2; cols := 4;
     pixels := [white; white; white; white; white; white; white; white] |}.

Definition wall_after : image :=
  {| rows := 2; cols := 4;
     pixels := [white; white; white; black; white; white; white; white] |}.

(** A white strip, and a taller screenshot whose first row is white. *)
Definition strip_before : image :=
  {| rows := 1; cols := 2; pixels := [white; white] |}.

Definition strip_after : image :=
  {| rows := 2; cols := 2; pixels := [white; white; black; black] |}.

End VerifyData.

(** ** More batches of operations *)

Module MoreSpec.
Import Text Py Normalizer NormalizerSpec.

(** The operation is not a click. *)
Definition other (op : json) : Prop := is_click op = false.

#[global] Instance other_dec (op : json) : Decision (other op).
Proof. unfold other. apply _. Defined.

End MoreSpec.

Module MoreData.
Import Text Py Normalizer Backend Examples BackendData.

(** A click that carries coordinates and nothing else. *)
Definition plain_click : gmap string json :=
  list_to_map [("operation", JStr "click"); ("x", JNum (1 # 4)); ("y", JNum (3 # 4))].

Definition plain_batch : list json := [press_op; JObj plain_click; done_op].

Definition double_batch : list json :=
  [JObj click_at_half; press_op; JObj click_at_half; done_op].

End MoreData.

(** ** Clicks that cannot be described *)

Module BareSpec.
Import Text Py Normalizer NormalizerSpec Examples BackendData.

(** A click that names no text, carries no thought and lacks a
    coordinate. *)
Definition bare_click (m : gmap string json) : Prop :=
  eq_str (get m "operation") "click" = true /\
  m !! "text" = None /\ m !! "thought" = None /\
  (m !! "x" = None \/ m !! "y" = None).

Definition click_only : gmap string json := list_to_map [("operation", JStr "click")].

Definition done_then_click_text : string :=
  dq "[{'operation': 'done'}, {'operation': 'click'}]".

Definition bare_config : config :=
  config_of [(done_then_click_text, JArr [done_op; JObj click_only])].

End BareSpec.

(** ** More sessions *)

Module MoreSessions.
Import Text Py Normalizer Backend Examples BackendData.

(** The model answers with an empty list of operations. *)
Definition empty_list_config : config := config_of [("[]", JArr [])].
Definition empty_list_world : world := world_of [] (attempt_of (Ok "[]") desktop detected).

(** Every model call fails. *)
Definition offline : world := world_of [] fails.

(** A session without any message. *)
Definition no_history : state := {| messages := []; attempts := 0 |}.

End MoreSessions.

(** ** Notions about the history *)

Module HistorySpec.
Import Text Py Normalizer Backend BackendSpec.

Definition from_user (m : message) : Prop := role m = "user".

(** The user message of [call_claude_3_with_ocr]. *)
Definition claude_vision (cfg : config) (a : attempt) (s : state) : message :=
  {| role := "user";
     content := CBlocks [BImage (img_base64 a); BText (user_prompt cfg s +:+ remember)] |}.

(** The session when [call_claude_3_with_ocr] asks the model. *)
Definition claude_asked (cfg : config) (model objective : string) (a : attempt)
    (s : state) : state :=
  let s' := {| messages := system_message cfg model objective :: tail (messages s);
               attempts := S (attempts s) |} in
  with_message (claude_vision cfg a s') s'.

(** The hand-over of [call_claude_3_with_ocr]: [gpt_4_fallback] on the
    converted copy of the history. *)
Definition claude_fallback (cfg : config) (w : world) (fuel : nat) (objective : string)
    : M json :=
  let! msgs := get_messages in
  let! converted := lift (gpt4_messages msgs) in
  on_messages converted (gpt_4_fallback cfg w fuel objective).

(** Every model call fails, the screen can be captured. *)
Definition network_down (w : world) : Prop :=
  forall n, capture (w n) = None /\ reply (w n) = Raise ClientError.

(** A block other than an Anthropic image block. *)
Definition not_image (b : block) : Prop :=
  match b with BImage _ => False | _ => True end.

(** A message as the conversion for gpt-4 leaves it. *)
Definition converted_message (m : message) : Prop :=
  (role m = "user" /\ exists l, content m = CBlocks l /\ Forall not_image l) \/
  role m = "assistant".

Definition user_or_assistant (m : message) : bool :=
  String.eqb (role m) "user" || String.eqb (role m) "assistant".

(** What the conversion makes of one block of a user message: an
    Anthropic image block becomes an image_url block that holds the same
    data as a data URL; any other block is kept as it is. *)
Inductive converts_block : block -> block -> Prop :=
| convert_image (data : string) :
    converts_block (BImage data) (BImageUrl ("data:image/png;base64," +:+ data))
| keep_text (text : string) : converts_block (BText text) (BText text)
| keep_image_url (url : string) : converts_block (BImageUrl url) (BImageUrl url).

(** What the conversion makes of one message: the blocks of a user
    message are converted one by one, in order; a user message whose
    content is a plain string loses it; an assistant message is kept. *)
Inductive converts : message -> message -> Prop :=
| convert_blocks (l l' : list block) :
    Forall2 converts_block l l' ->
    converts {| role := "user"; content := CBlocks l |}
             {| role := "user"; content := CBlocks l' |}
| convert_plain (t : string) :
    converts {| role := "user"; content := CText t |}
             {| role := "user"; content := CBlocks [] |}
| keep_assistant (c : body) :
    converts {| role := "assistant"; content := c |}
             {| role := "assistant"; content := c |}.

End HistorySpec.

(** ** The model identifiers *)

Module Models.

(** The identifiers whose backend ends in [call_gpt_4o], directly or
    through a fallback. *)
Definition gpt_backed : list string :=
  ["gpt-4"; "qwen-vl"; "gpt-4-with-som"; "gpt-4-with-ocr"; "o1-with-ocr";
   "gemini-pro-vision"; "llava"; "claude-3"].

(** The identifiers that [get_next_action] recognises. *)
Definition recognised : list string :=
  ["gpt-4"; "claude-3.7"; "qwen-vl"; "gpt-4-with-som"; "gpt-4-with-ocr"; "o1-with-ocr";
   "agent-1"; "gemini-pro-vision"; "llava"; "claude-3"].

End Models.

(** ** [get_last_assistant_message] *)

Module History.

(** The loop [for index in reversed(range(len(messages)))], with
    [upto] the number of indices still to visit. *)
Fixpoint scan_back (messages : list message) (upto : nat) : option message :=
  match upto with
  | 0 => None
  | S index =>
      match messages !! index with
      | Some m =>
          if String.eqb (role m) "assistant" then
            if index =? 0 then None else Some m
          else scan_back messages index
      | None => None
      end
  end.

Definition get_last_assistant_message (messages : list message) : option message :=
  scan_back messages (length messages).

End History.

Module RepairData.
Import Text Py Normalizer Backend Examples BackendData.

(** The first answer is prose, the answer to the corrective request is
    the JSON text of a click on [Documents]. *)
Definition repaired : attempt := {|
  capture := None;
  img_base64 := "c2NyZWVu";
  reply := Ok "Sure!";
  repair := Ok documents_text;
  readtext := Ok desktop;
  labelled := Ok ("bGFiZWxz", detected);
  screen := (1000, 800)%positive
|}.

End RepairData.

(** ** The history only grows *)

Module GrowthSpec.

(** From [s] to [s'], the messages after the first one are kept, in
    order, and messages are only added at the end; the first message may
    have been replaced. *)
Definition extends (s s' : state) : Prop :=
  (exists added, tail (messages s') = tail (messages s) ++ added) /\
  length (messages s) <= length (messages s') /\
  attempts s <= attempts s'.

(** Whatever the computation returns or raises, it has only extended the
    session. *)
Definition grows {A : Type} (m : M A) : Prop :=
  forall s r s', m s = Some (r, s') -> extends s s'.

End GrowthSpec.

(** ** Notions about matches *)

Module RegexSpec.
Import Text Re.

(** The least number of characters that a match of the pattern consumes. *)
Fixpoint min_len (r : re) : nat :=
  match r with
  | Cls _ => 1
  | Cat r1 r2 => min_len r1 + min_len r2
  | Alt r1 r2 => Nat.min (min_len r1) (min_len r2)
  | Star _ => 0
  | WordB => 0
  | Grp r1 => min_len r1
  end.

Fixpoint group_free (r : re) : bool :=
  match r with
  | Cls _ => true
  | Cat r1 r2 => group_free r1 && group_free r2
  | Alt r1 r2 => group_free r1 && group_free r2
  | Star r1 => group_free r1
  | WordB => true
  | Grp _ => false
  end.

(** The capture after the characters of [consumed] have been matched. *)
Fixpoint record_all (consumed : string) (c : capture) : capture :=
  match consumed with
  | EmptyString => c
  | String a t => record_all t (record a c)
  end.

(** Every match of the pattern consumes a character of the class [p]. *)
Fixpoint needs (p : ascii -> bool) (r : re) : Prop :=
  match r with
  | Cls q => forall a, q a = true -> p a = true
  | Cat r1 r2 => needs p r1 \/ needs p r2
  | Alt r1 r2 => needs p r1 /\ needs p r2
  | Star _ => False
  | WordB => False
  | Grp r1 => needs p r1
  end.

(** No character of [s] belongs to the class [p]. *)
Fixpoint free_of (p : ascii -> bool) (s : string) : bool :=
  match s with
  | EmptyString => true
  | String c s' => negb (p c) && free_of p s'
  end.

(** [g] is a piece of [s] of [n] characters or more. *)
Definition piece (n : nat) (s g : string) : Prop :=
  n <= String.length g /\ exists pre post, s = pre +:+ g +:+ post.

End RegexSpec.

(** ** Answers in prose *)

Module ProseSpec.
Import Text Re Py Normalizer Examples.

(** The two opening brackets that [call_claude_37] looks for. *)
Definition bracket (c : ascii) : bool := is_char "[" c || is_char "{" c.

Definition mentions_done (raw : string) : bool :=
  str_in "done" (lower raw) || str_in "complete" (lower raw).

(** What the two fixed texts of [call_claude_37] denote. *)
Definition done_task : json :=
  obj [("thought", JStr "Task complete"); ("operation", JStr "done")].
Definition wait_task : json :=
  obj [("thought", JStr "Continuing task"); ("operation", JStr "wait");
       ("duration", JNum 1)].

(** [json.loads] reads the two fixed texts as what they denote. *)
Definition reads_fixed_texts (cfg : config) : Prop :=
  json_loads cfg done_text = Some (JArr [done_task]) /\
  json_loads cfg wait_text = Some (JArr [wait_task]).

Definition prose_config : config :=
  config_of [(done_text, JArr [done_task]); (wait_text, JArr [wait_task])].

End ProseSpec.

(** ** A JSON block inside prose *)

Module BlockSpec.
Import Text Re.

(** The continuation [k] tried from the end of [s] backwards: what a
    greedy repetition of the class of all characters amounts to. *)
Fixpoint try_from_end {R : Type} (k : cont R) (prev : option ascii) (s : string)
    (c : capture) : option R :=
  match s with
  | EmptyString => k prev s c
  | String a s' =>
      match try_from_end k (Some a) s' (record a c) with
      | Some x => Some x
      | None => k prev s c
      end
  end.

(** [pre], then a block from an opening to a closing square bracket,
    then [post]. *)
Definition around (pre mid post : string) : string :=
  pre +:+ String "[" (mid +:+ String "]" post).

Definition block_of (mid : string) : string :=
  String "[" (mid +:+ String "]" EmptyString).

End BlockSpec.

(** ** Fenced answers *)

Module FenceSpec.
Import Text Spec.

Definition fence : string := "```".

(** The first character, when there is one, is not a blank. *)
Definition starts_clean (s : string) : bool :=
  match s with
  | EmptyString => true
  | String c _ => negb (is_space c)
  end.

(** Neither the first nor the last character is a blank. *)
Definition trimmed (s : string) : bool := starts_clean s && starts_clean (rev s).

Definition blank (ws : string) : bool := all_chars is_space ws.

(** A text that neither opens nor closes with a fence. *)
Definition unfenced (s : string) : bool :=
  negb (startswith fence s) && negb (endswith fence s).

(** [body] between an opening fence and a closing fence, with blanks
    (line breaks, spaces) after the one and before the other. *)
Definition fenced (opening ws1 body ws2 : string) : string :=
  opening +:+ ws1 +:+ body +:+ ws2 +:+ fence.

Definition one_line (s : string) : bool :=
  all_chars (fun c => negb (is_linebreak c)) s.

End FenceSpec.

(** ** The Multi-Strategy Target Locator: the three approaches *)

Module Finder.
Import Text Re Extract Locator.

(** [s.split()]: the maximal runs of characters other than white space. *)
Fixpoint split_aux (cur : string) (s : string) : list string :=
  match s with
  | EmptyString =>
      match cur with EmptyString => [] | _ => [rev cur] end
  | String c s' =>
      if is_space c then
        match cur with
        | EmptyString => split_aux EmptyString s'
        | _ => rev cur :: split_aux EmptyString s'
        end
      else split_aux (String c cur) s'
  end.

Definition split (s : string) : list string := split_aux EmptyString s.

(** [s.replace(old, new)] for a non-empty [old]: the occurrences are
    replaced from left to right, without overlap; [skip] counts the
    characters of an occurrence that are still to be passed over. *)
Fixpoint replace_aux (old new : string) (skip : nat) (s : string) : string :=
  match s with
  | EmptyString => EmptyString
  | String c s' =>
      match skip with
      | S n => replace_aux old new n s'
      | 0 =>
          if startswith old s
          then new +:+ replace_aux old new (String.length old - 1) s'
          else String c (replace_aux old new 0 s')
      end
  end.

Definition replace (old new s : string) : string := replace_aux old new 0 s.

Definition stop_words : list string :=
  ["the"; "a"; "an"; "to"; "on"; "in"; "by"; "it"; "this"; "that"; "for"; "with";
   "click"; "double"].

Definition target_words (target_description : string) : list string :=
  List.filter (fun word => negb (existsb (String.eqb word) stop_words))
    (split (lower target_description)).

Definition clean_target (target_description : string) : string :=
  join " " (target_words target_description).

(** A file of the folder [icon_templates]: its name, the shape (height,
    width) of the image that [cv2.imread] returns ([None] when it cannot
    be read), and [max_val], [max_loc] of [cv2.minMaxLoc] on the result of
    [cv2.matchTemplate], which raises when the template is larger than
    the screenshot. *)
Record template_file : Type := {
  filename : string;
  template : option (Z * Z);
  matched : result (Q * (Z * Z))
}.

(** A contour of the yellow mask: [cv2.contourArea], the moments and
    [cv2.boundingRect] (x, y, w, h). *)
Record contour : Type := {
  area : Q;
  m00 : Q;
  m10 : Q;
  m01 : Q;
  rect : Z * Z * Z * Z
}.

(** What the outside presents to one call of the locator: the files of
    the template folder (none when the folder does not exist), the OCR
    pass and the contour detection, either of which can raise, the
    similarity measure [SequenceMatcher(None, a, b).ratio()] and the size
    of the screenshot. *)
Record sight : Type := {
  icon_templates : list template_file;
  ocr_results : result ocr_result;
  contours : result (list contour);
  ratio : string -> string -> Q;
  screenshot_size : size
}.

(** *** Approach 1: template matching *)

Definition template_name (filename : string) : string :=
  replace ".jpg" EmptyString (replace ".png" EmptyString (replace "_" " " filename)).

Definition name_matches (target_description filename : string) : bool :=
  existsb (fun word => str_in word (lower (template_name filename)))
    (target_words target_description)
  || existsb (fun word => str_in word (clean_target target_description))
       (split (lower (template_name filename))).

Definition template_candidate (max_val : Q) (max_loc : Z * Z) (shape : Z * Z) : candidate :=
  let '(template_h, template_w) := shape in
  let top_left := max_loc in
  {| kind := Template;
     confidence := max_val * (3 # 2);
     center := (inject_Z (top_left.1 + template_w / 2),
                inject_Z (top_left.2 + template_h / 2));
     bbox := (inject_Z top_left.1, inject_Z top_left.2,
              inject_Z (top_left.1 + template_w), inject_Z (top_left.2 + template_h)) |}.

(** The loop over the files of the folder; a failure of
    [cv2.matchTemplate] is not caught. *)
Fixpoint approach1 (target_description : string) (files : list template_file)
    : result (list candidate) :=
  match files with
  | [] => Ok []
  | f :: rest =>
      if (endswith ".png" (filename f) || endswith ".jpg" (filename f))
         && name_matches target_description (filename f)
      then
        match template f with
        | None => approach1 target_description rest
        | Some shape =>
            let? found := matched f in
            let? others := approach1 target_description rest in
            if Qlt_le_dec (7 # 10) found.1
            then Ok (template_candidate found.1 found.2 shape :: others)
            else Ok others
        end
      else approach1 target_description rest
  end.

(** *** Approach 2: OCR text detection *)

(** [int(x)] and [astype(int)]: truncation towards zero. *)
Definition trunc (q : Q) : Z := Z.quot (Qnum q) (Zpos (Qden q)).

(** [np.array(bbox).astype(int)] *)
Definition bbox_points (e : ocr_element) : list (Z * Z) :=
  let '(p1, p2, p3, p4) := corners e in
  (fun p : Q * Q => (trunc p.1, trunc p.2)) <$> [p1; p2; p3; p4].

(** [np.mean] of a list of integers. *)
Definition mean (l : list Z) : Q :=
  (inject_Z (foldr Z.add 0%Z l) / inject_Z (Z.of_nat (length l)))%Q.

Definition minimum (l : list Z) : Z := foldr Z.min (hd 0%Z l) l.
Definition maximum (l : list Z) : Z := foldr Z.max (hd 0%Z l) l.

(** [bbox_rect] *)
Definition bbox_rect (e : ocr_element) : Z * Z * Z * Z :=
  let x_points := fst <$> bbox_points e in
  let y_points := snd <$> bbox_points e in
  (minimum x_points, minimum y_points, maximum x_points, maximum y_points).

Definition word_match (words : list string) (text_lower : string) : bool :=
  existsb (fun word => (2 <? String.length word) && str_in word text_lower) words.

(** The test [word_match or clean_target in text_lower or text_lower in
    clean_target]. *)
Definition matches (target_description : string) (e : ocr_element) : bool :=
  let text_lower := lower (otext e) in
  word_match (target_words target_description) text_lower
  || str_in (clean_target target_description) text_lower
  || str_in text_lower (clean_target target_description).

Definition match_score (v : sight) (target_description : string) (e : ocr_element) : Q :=
  let similarity := ratio v (clean_target target_description) (lower (otext e)) in
  let match_score := (similarity * oconf e)%Q in
  if Qlt_le_dec (8 # 10) similarity then (match_score * (3 # 2))%Q else match_score.

(** \w+[-\.]\w+ *)
Definition label_pattern : re :=
  Cat (Plus (Cls is_word)) (Cat (Cls is_dash_or_dot) (Plus (Cls is_word))).

Definition icon_words : list string := ["folder"; "file"; "image"; "doc"].

(** The text looks like the label of a desktop icon. *)
Definition icon_label (text_lower : string) : bool :=
  existsb (fun word => str_in word text_lower) icon_words
  || match search_from label_pattern None text_lower with
     | Some _ => true
     | None => false
     end
  || str_in "sbc" text_lower.

Definition text_candidate (v : sight) (target_description : string) (e : ocr_element)
    : candidate :=
  let '(x1, y1, x2, y2) := bbox_rect e in
  {| kind := TextMatch;
     confidence := match_score v target_description e;
     center := (mean (fst <$> bbox_points e), mean (snd <$> bbox_points e));
     bbox := (inject_Z x1, inject_Z y1, inject_Z x2, inject_Z y2) |}.

(** The square above the text, where the icon of the label is expected. *)
Definition icon_center (e : ocr_element) : Z * Z :=
  let '(x1, y1, x2, y2) := bbox_rect e in
  let icon_area_width := (x2 - x1)%Z in
  let icon_area_height := icon_area_width in
  let icon_area_top := Z.max 0 (y1 - icon_area_height - 10) in
  let icon_area_left := x1 in
  ((icon_area_left + icon_area_width / 2)%Z, (icon_area_top + icon_area_height / 2)%Z).

Definition icon_candidate (v : sight) (target_description : string) (e : ocr_element)
    : candidate :=
  let '(x1, y1, x2, y2) := bbox_rect e in
  let icon_area_width := (x2 - x1)%Z in
  let icon_area_height := icon_area_width in
  let icon_area_top := Z.max 0 (y1 - icon_area_height - 10) in
  let icon_area_left := x1 in
  {| kind := Icon;
     confidence := (match_score v target_description e * (12 # 10))%Q;
     center := (inject_Z (icon_center e).1, inject_Z (icon_center e).2);
     bbox := (inject_Z icon_area_left, inject_Z icon_area_top,
              inject_Z (icon_area_left + icon_area_width),
              inject_Z (icon_area_top + icon_area_height)) |}.

(** What one OCR triple adds to [results]. *)
Definition ocr_candidates (v : sight) (target_description : string) (e : ocr_element)
    : list candidate :=
  if matches target_description e then
    text_candidate v target_description e
    :: (if icon_label (lower (otext e))
        then [icon_candidate v target_description e] else [])
  else [].

(** The OCR pass sits in a [try]: when it raises, nothing is added. *)
Definition approach2 (v : sight) (target_description : string) : list candidate :=
  match ocr_results v with
  | Ok entries => flat_map (ocr_candidates v target_description) entries
  | Raise _ => []
  end.

(** *** Approach 3: folder icons by colour and shape *)

Definition shape_candidate (c : contour) : list candidate :=
  if Qlt_le_dec 100 (area c) then
    if Qlt_le_dec (area c) 5000 then
      if Qlt_le_dec 0 (m00 c) then
        let '(x, y, w, h) := rect c in
        [{| kind := Shape;
            confidence := 1 # 2;
            center := (inject_Z (trunc (m10 c / m00 c)), inject_Z (trunc (m01 c / m00 c)));
            bbox := (inject_Z x, inject_Z y, inject_Z (x + w), inject_Z (y + h)) |}]
      else []
    else []
  else [].

Definition approach3 (v : sight) (target_description : string) : list candidate :=
  let clean_target := clean_target target_description in
  if str_in "folder" clean_target || str_in "file" clean_target
     || str_in "sbc" clean_target
  then
    match contours v with
    | Ok found => flat_map shape_candidate found
    | Raise _ => []
    end
  else [].

(** [results] when the selection starts. *)
Definition results (v : sight) (target_description : string) : result (list candidate) :=
  let? templates := approach1 target_description (icon_templates v) in
  Ok (templates ++ approach2 v target_description ++ approach3 v target_description).

(** The whole function: the three approaches, then the selection. *)
Definition find_ui_element_by_text_and_vision (target_description : string) (v : sight)
    : result (option (Q * Q)) :=
  let? pool := results v target_description in
  Ok (Locator.find_ui_element_by_text_and_vision pool (screenshot_size v)).

End Finder.

(** ** Sights of the locator *)

Module FinderSpec.
Import Text Locator Finder.

(** The point that the selection returns for the candidate [c]. *)
Definition point_of (c : candidate) (screen : size) : Q * Q :=
  (fraction (center c).1 screen.1, fraction (center c).2 screen.2).

(** The confidence that the kind of a candidate implies. *)
Definition ranked (c : candidate) : Prop :=
  match kind c with
  | Shape => confidence c = 1 # 2
  | Template => (21 # 20 < confidence c)%Q
  | _ => True
  end.

End FinderSpec.

Module FinderData.
Import Text Locator Finder.

(** A label [sbc-images-main] that OCR reads at (100, 300)-(220, 320). *)
Definition label_element : ocr_element := {|
  corners := ((100, 300), (220, 300), (220, 320), (100, 320))%Q;
  otext := "sbc-images-main";
  oconf := 9 # 10
|}.

Definition other_element : ocr_element := {|
  corners := ((400, 20), (460, 20), (460, 40), (400, 40))%Q;
  otext := "Trash";
  oconf := 9 # 10
|}.

(** A similarity measure for the examples: 1 on equal texts, 0 otherwise. *)
Definition same_or_not (a b : string) : Q := if String.eqb a b then 1 else 0.

Definition desktop_sight : sight := {|
  icon_templates := [];
  ocr_results := Ok [other_element; label_element];
  contours := Ok [];
  ratio := same_or_not;
  screenshot_size := (1000, 800)%positive
|}.

(** A folder with one template that matches, and one yellow contour. *)
Definition folder_template : template_file := {|
  filename := "sbc_folder.png";
  template := Some (48, 48)%Z;
  matched := Ok (9 # 10, (100, 200)%Z)
|}.

Definition yellow_contour : contour := {|
  area := 900; m00 := 900; m10 := 450000; m01 := 90000; rect := (485, 85, 30, 30)%Z
|}.

Definition folder_sight : sight := {|
  icon_templates := [folder_template];
  ocr_results := Raise CaptureError;
  contours := Ok [yellow_contour];
  ratio := same_or_not;
  screenshot_size := (1000, 800)%positive
|}.

End FinderData.

(* ================================================================== *)
(** * Part II. Properties *)
(* ================================================================== *)

(** ** Strings *)

Module StringFacts.
Import Text.

Lemma append_cons (c : ascii) (s t : string) :
  String c s +:+ t = String c (s +:+ t).
Proof. reflexivity. Qed.

Lemma append_empty_l (t : string) : EmptyString +:+ t = t.
Proof. reflexivity. Qed.

Lemma append_empty_r (s : string) : s +:+ EmptyString = s.
Proof.
  induction s as [|c s IH]; [reflexivity|].
  rewrite append_cons. f_equal. exact IH.
Qed.

Lemma rev_onto_twice (s acc t : string) :
  rev_onto (rev_onto s acc) t = rev_onto acc (s +:+ t).
Proof.
  revert acc t. induction s as [|c s IH]; intros acc t; simpl.
  - reflexivity.
  - now rewrite IH, append_cons.
Qed.

Lemma rev_rev_onto (s : string) (a : ascii) :
  rev (rev_onto s (String a EmptyString)) = String a s.
Proof.
  unfold rev. rewrite rev_onto_twice. simpl. f_equal. apply append_empty_r.
Qed.

Lemma append_assoc (a b c : string) : (a +:+ b) +:+ c = a +:+ (b +:+ c).
Proof.
  induction a as [|x a IH]; [reflexivity|].
  rewrite !append_cons. f_equal. exact IH.
Qed.

Lemma lower_append (a b : string) : lower (a +:+ b) = lower a +:+ lower b.
Proof.
  induction a as [|x a IH]; [reflexivity|].
  rewrite append_cons. cbn [lower]. rewrite append_cons. f_equal. exact IH.
Qed.

Lemma startswith_append (p post : string) : startswith p (p +:+ post) = true.
Proof.
  induction p as [|x p IH]; [reflexivity|].
  rewrite append_cons. cbn [startswith].
  destruct (ascii_dec x x); [exact IH | congruence].
Qed.

Lemma startswith_inv (p s : string) :
  startswith p s = true -> exists post, s = p +:+ post.
Proof.
  revert s. induction p as [|x p IH]; intros s H.
  - now exists s.
  - destruct s as [|y s]; [discriminate|]. cbn [startswith] in H.
    destruct (ascii_dec x y) as [->|]; [|discriminate].
    destruct (IH s H) as [post ->]. now exists post.
Qed.

Lemma str_in_unfold (sub s : string) :
  str_in sub s
  = if startswith sub s then true
    else match s with EmptyString => false | String _ s' => str_in sub s' end.
Proof. destruct s; reflexivity. Qed.

(** [sub in s] holds exactly when [s] is [pre + sub + post]. *)
Lemma str_in_intro (sub pre post : string) :
  str_in sub (pre +:+ sub +:+ post) = true.
Proof.
  induction pre as [|x pre IH]; rewrite str_in_unfold.
  - rewrite append_empty_l. now rewrite startswith_append.
  - rewrite append_cons. destruct (startswith sub _); [reflexivity | exact IH].
Qed.

Lemma str_in_inv (sub s : string) :
  str_in sub s = true -> exists pre post, s = pre +:+ sub +:+ post.
Proof.
  induction s as [|x s IH]; rewrite str_in_unfold; intros H.
  - destruct (startswith sub EmptyString) eqn:E; [|discriminate].
    apply startswith_inv in E as [post ->]. now exists EmptyString, post.
  - destruct (startswith sub (String x s)) eqn:E.
    + apply startswith_inv in E as [post ->]. now exists EmptyString, post.
    + destruct (IH H) as (pre & post & ->). now exists (String x pre), post.
Qed.

Create Rewrite HintDb strs.
#[export] Hint Rewrite append_cons append_empty_l append_empty_r : strs.

End StringFacts.
Import StringFacts.

(** ** The quoted pattern *)

Module QuotedFacts.
Import Text Re Extract Spec QuotedAux.

Lemma rmatch_Cls {R} p prev a s c (k : cont R) :
  rmatch (Cls p) prev (String a s) c k
  = if p a then k (Some a) s (record a c) else None.
Proof. reflexivity. Qed.

Lemma rmatch_Cls_nil {R} p prev c (k : cont R) :
  rmatch (Cls p) prev EmptyString c k = None.
Proof. reflexivity. Qed.

Lemma rmatch_Cat {R} r1 r2 prev s c (k : cont R) :
  rmatch (Cat r1 r2) prev s c k
  = rmatch r1 prev s c (fun prev' s' c' => rmatch r2 prev' s' c' k).
Proof. reflexivity. Qed.

Lemma rmatch_Grp {R} r prev s c (k : cont R) :
  rmatch (Grp r) prev s c k
  = rmatch r prev s (CapOpen EmptyString) (fun prev' s' c' => k prev' s' (close c')).
Proof. reflexivity. Qed.

Lemma rmatch_Star {R} r prev s c (k : cont R) :
  rmatch (Star r) prev s c k = star_loop (rmatch r) k (String.length s) prev s c.
Proof. reflexivity. Qed.











End QuotedFacts.

(** ** C8: the Text Target Extractor returns the first quoted substring *)

Module ExtractProps.
Import Text Re Extract Spec QuotedFacts Scenario.




End ExtractProps.

(** ** What a match consumes *)

Module RegexFacts.
Import Text Re Extract RegexSpec QuotedFacts.

Lemma length_append (a b : string) :
  String.length (a +:+ b) = String.length a + String.length b.
Proof.
  induction a as [|x a IH]; [reflexivity|].
  rewrite append_cons. cbn [String.length]. now rewrite IH.
Qed.

Lemma record_all_append (a b : string) (c : capture) :
  record_all (a +:+ b) c = record_all b (record_all a c).
Proof.
  revert c. induction a as [|x a IH]; intros c; [reflexivity|].
  rewrite append_cons. cbn [record_all]. apply IH.
Qed.

Lemma record_all_open (consumed acc : string) :
  record_all consumed (CapOpen acc) = CapOpen (rev_onto consumed acc).
Proof.
  revert acc. induction consumed as [|x t IH]; intros acc; [reflexivity|].
  cbn [record_all record rev_onto]. apply IH.
Qed.

Lemma record_all_closed (consumed : string) (c : capture) :
  (forall acc, c <> CapOpen acc) -> record_all consumed c = c.
Proof.
  intros H. induction consumed as [|x t IH]; [reflexivity|].
  cbn [record_all]. destruct c; try exact IH. now destruct (H acc).
Qed.

Lemma rev_involutive (s : string) : rev (rev s) = s.
Proof.
  unfold rev. rewrite rev_onto_twice. cbn [rev_onto]. apply append_empty_r.
Qed.

(** A match of a pattern without group consumes a prefix of the subject,
    of [min_len] characters or more, and hands the rest to the
    continuation. *)
Lemma rmatch_sound {R : Type} (r : re) :
  group_free r = true ->
  forall prev s c (k : cont R) x,
    rmatch r prev s c k = Some x ->
    exists consumed prev' s',
      s = consumed +:+ s' /\ min_len r <= String.length consumed /\
      k prev' s' (record_all consumed c) = Some x.
Proof.
  induction r as [p | r1 IH1 r2 IH2 | r1 IH1 r2 IH2 | r1 IH1 | | r1 IH1];
    intros Hg prev s c k x H; cbn [group_free] in Hg.
  - destruct s as [|a s']; [now rewrite rmatch_Cls_nil in H|].
    rewrite rmatch_Cls in H. destruct (p a); [|discriminate].
    exists (String a EmptyString), (Some a), s'.
    split; [reflexivity|]. split; [cbn; lia | exact H].
  - apply andb_prop in Hg as [Hg1 Hg2]. rewrite rmatch_Cat in H.
    apply (IH1 Hg1) in H as (c1 & p1 & s1 & -> & Hl1 & H).
    apply (IH2 Hg2) in H as (c2 & p2 & s2 & -> & Hl2 & H).
    exists (c1 +:+ c2), p2, s2. split; [now rewrite append_assoc|].
    split; [rewrite length_append; cbn [min_len]; lia|].
    now rewrite record_all_append.
  - apply andb_prop in Hg as [Hg1 Hg2]. cbn [rmatch] in H.
    destruct (rmatch r1 prev s c k) as [y|] eqn:H1.
    + injection H as <-.
      apply (IH1 Hg1) in H1 as (c1 & p1 & s1 & -> & Hl1 & H1).
      exists c1, p1, s1. split; [reflexivity|]. split; [cbn [min_len]; lia | exact H1].
    + apply (IH2 Hg2) in H as (c2 & p2 & s2 & -> & Hl2 & H).
      exists c2, p2, s2. split; [reflexivity|]. split; [cbn [min_len]; lia | exact H].
  - rewrite rmatch_Star in H. cbn [min_len].
    remember (String.length s) as n eqn:En. clear En.
    revert prev s c H. induction n as [|n IHn]; intros prev s0 c H.
    + exists EmptyString, prev, s0. split; [reflexivity|]. split; [cbn; lia | exact H].
    + cbn [star_loop] in H.
      destruct (rmatch r1 prev s0 c (star_loop (rmatch r1) k n)) as [y|] eqn:H1.
      * injection H as <-.
        apply (IH1 Hg) in H1 as (c1 & p1 & s1 & -> & _ & H1).
        apply IHn in H1 as (c2 & p2 & s2 & -> & _ & H1).
        exists (c1 +:+ c2), p2, s2. split; [now rewrite append_assoc|].
        split; [lia|]. now rewrite record_all_append.
      * exists EmptyString, prev, s0. split; [reflexivity|]. split; [cbn; lia | exact H].
  - cbn [rmatch] in H. destruct (xorb _ _); [|discriminate].
    exists EmptyString, prev, s. split; [reflexivity|]. split; [cbn; lia | exact H].
  - discriminate.
Qed.

(** The group of a pattern holds what its body consumed. *)
Lemma rmatch_group {R : Type} (body : re) :
  group_free body = true ->
  forall prev s c (k : cont R) x,
    rmatch (Grp body) prev s c k = Some x ->
    exists g prev' s',
      s = g +:+ s' /\ min_len body <= String.length g /\
      k prev' s' (CapDone g) = Some x.
Proof.
  intros Hg prev s c k x H. rewrite rmatch_Grp in H.
  apply (rmatch_sound body Hg) in H as (g & p & s' & -> & Hl & H).
  exists g, p, s'. split; [reflexivity|]. split; [exact Hl|].
  rewrite record_all_open in H. cbn [close] in H.
  fold (rev g) in H. now rewrite rev_involutive in H.
Qed.

Lemma match_here_group (body : re) (prev : option ascii) (s g rest : string)
    (p : option ascii) :
  group_free body = true ->
  match_here (Grp body) prev s = Some (g, p, rest) ->
  min_len body <= String.length g /\ s = g +:+ rest.
Proof.
  intros Hg H. unfold match_here in H.
  apply (rmatch_group body Hg) in H as (g' & p' & s' & -> & Hl & H).
  cbn [group1] in H. injection H as <- <- <-. now split.
Qed.

Lemma match_here_framed (before body after : re) (prev : option ascii)
    (s g rest : string) (p : option ascii) :
  group_free before = true -> group_free body = true -> group_free after = true ->
  match_here (Cat before (Cat (Grp body) after)) prev s = Some (g, p, rest) ->
  min_len body <= String.length g /\
  exists a b, s = a +:+ g +:+ b +:+ rest /\ min_len before <= String.length a.
Proof.
  intros Hb Hg Ha H. unfold match_here in H. rewrite rmatch_Cat in H.
  apply (rmatch_sound before Hb) in H as (a & p1 & s1 & -> & Hla & H).
  rewrite rmatch_Cat in H.
  apply (rmatch_group body Hg) in H as (g' & p2 & s2 & -> & Hl & H).
  apply (rmatch_sound after Ha) in H as (b & p3 & s3 & -> & _ & H).
  rewrite record_all_closed in H by discriminate.
  cbn [group1] in H. injection H as <- <- <-. split; [exact Hl|].
  now exists a, b.
Qed.

(** What [re.search] and [re.findall] return, for a pattern each match of
    which has a group [g] with [P s g] on every subject [s = g' + rest]. *)
Lemma search_from_piece (r : re) (n : nat) :
  (forall prev s g p rest,
      match_here r prev s = Some (g, p, rest) ->
      n <= String.length g /\ exists a b, s = a +:+ g +:+ b +:+ rest) ->
  forall s prev g p rest,
    search_from r prev s = Some (g, p, rest) ->
    n <= String.length g /\ exists a b, s = a +:+ g +:+ b +:+ rest.
Proof.
  intros Hr. induction s as [|x s IH]; intros prev g p rest H; cbn [search_from] in H.
  - destruct (match_here r prev EmptyString) as [m|] eqn:Hm; [|discriminate].
    injection H as ->. eapply Hr; eauto.
  - destruct (match_here r prev (String x s)) as [m|] eqn:Hm.
    + injection H as ->. eapply Hr; eauto.
    + apply IH in H as (Hl & a & b & ->). split; [exact Hl|].
      exists (String x a), b. now rewrite append_cons.
Qed.

Lemma findall_from_piece (r : re) (n : nat) :
  (forall prev s g p rest,
      match_here r prev s = Some (g, p, rest) ->
      n <= String.length g /\ exists a b, s = a +:+ g +:+ b +:+ rest) ->
  forall fuel prev s, Forall (piece n s) (findall_from fuel r prev s).
Proof.
  intros Hr. induction fuel as [|fuel IH]; intros prev s; cbn [findall_from].
  - constructor.
  - destruct (search_from r prev s) as [[[g p] rest]|] eqn:Hs; [|constructor].
    apply (search_from_piece r n Hr) in Hs as (Hl & a & b & Hs).
    assert (piece n s g) as Hg.
    { split; [exact Hl|]. exists a, (b +:+ rest). exact Hs. }
    destruct (String.length rest <? String.length s).
    + constructor; [exact Hg|].
      eapply Forall_impl; [apply (IH p rest)|].
      intros g' (Hl' & pre & post & Hrest). split; [exact Hl'|].
      exists (a +:+ g +:+ b +:+ pre), post. rewrite Hs, Hrest.
      now rewrite !append_assoc.
    + constructor; [exact Hg | constructor].
Qed.

Lemma findall_quoted (text : string) :
  Forall (piece 1 text) (findall quoted_pattern text).
Proof.
  apply findall_from_piece. intros prev s g p rest H.
  unfold quoted_pattern in H.
  apply match_here_framed in H as (Hl & a & b & -> & _); try reflexivity.
  split; [exact Hl | now exists a, b].
Qed.

Lemma findall_file (text : string) :
  Forall (piece 3 text) (findall file_pattern text).
Proof.
  apply findall_from_piece. intros prev s g p rest H.
  unfold file_pattern in H.
  apply match_here_group in H as (Hl & ->); [|reflexivity].
  split; [exact Hl|]. exists EmptyString, EmptyString.
  now rewrite append_empty_l.
Qed.

Lemma findall_cap_word (text : string) :
  Forall (piece 2 text) (findall cap_word_pattern text).
Proof.
  apply findall_from_piece. intros prev s g p rest H.
  unfold cap_word_pattern in H.
  apply match_here_framed in H as (Hl & a & b & -> & _); try reflexivity.
  split; [exact Hl | now exists a, b].
Qed.

End RegexFacts.

(** ** C6: the locator returns the best candidate, or nothing *)

Module LocatorProps.
Import Locator.

(** The head of the sorted pool is the first candidate of the pool whose
    confidence is maximal. *)
Lemma sort_desc_head (l : list candidate) :
  l <> [] ->
  exists l1 best l2 tl,
    l = l1 ++ best :: l2 /\
    Forall (fun c => (confidence c < confidence best)%Q) l1 /\
    Forall (fun c => (confidence c <= confidence best)%Q) l2 /\
    sort_desc l = best :: tl.
Proof.
  induction l as [|x l IH]; [congruence|]. intros _.
  destruct l as [|y l'].
  - exists [], x, [], []. repeat split; constructor.
  - destruct IH as (l1 & b & l2 & tl & Hl & H1 & H2 & Hs); [congruence|].
    cbn [sort_desc] in *. rewrite Hs. cbn [insert_desc].
    destruct (Qlt_le_dec (confidence x) (confidence b)) as [Hlt|Hle].
    + exists (x :: l1), b, l2, (insert_desc x tl).
      rewrite Hl. repeat split; auto.
    + exists [], x, (y :: l'), (b :: tl). rewrite Hl.
      repeat split; auto.
      apply Forall_app. split; [|constructor].
      * eapply Forall_impl; [exact H1|]. intros c Hc. cbn in Hc.
        apply Qlt_le_weak. eapply Qlt_le_trans; eauto.
      * exact Hle.
      * eapply Forall_impl; [exact H2|]. intros c Hc. cbn in Hc.
        eapply Qle_trans; eauto.
Qed.

(** C6. For every candidate pool: when the pool is empty, the locator
    returns [None]; when it is not, the locator returns the centre of a
    candidate of highest confidence (the first such candidate of the
    pool), its abscissa divided by the width and its ordinate divided by
    the height of the screenshot. *)
Theorem locator_returns_best (results : list candidate) (screen : size) :
  match results with
  | [] => find_ui_element_by_text_and_vision results screen = None
  | _ :: _ =>
      exists l1 best l2,
        results = l1 ++ best :: l2 /\
        Forall (fun c => (confidence c < confidence best)%Q) l1 /\
        Forall (fun c => (confidence c <= confidence best)%Q) l2 /\
        find_ui_element_by_text_and_vision results screen
        = Some (((center best).1 / inject_Z (Zpos screen.1))%Q,
                ((center best).2 / inject_Z (Zpos screen.2))%Q)
  end.
Proof.
  destruct results as [|x l]; [reflexivity|].
  destruct (sort_desc_head (x :: l)) as (l1 & b & l2 & tl & Hl & H1 & H2 & Hs);
    [congruence|].
  exists l1, b, l2. repeat split; auto.
  unfold find_ui_element_by_text_and_vision. rewrite Hs.
  now destruct (center b).
Qed.

(** A pool of three on a screenshot of 1000 by 800: a shape, then two
    candidates of the same, highest confidence. The first of the two is
    returned, at 160/1000 of the width and 310/800 of the height. *)
Lemma locator_returns_best_witness :
  find_ui_element_by_text_and_vision
    [{| kind := Shape; confidence := 1 # 2; center := (500, 100)%Q;
        bbox := (485, 85, 515, 115)%Q |};
     {| kind := TextMatch; confidence := 27 # 20; center := (160, 310)%Q;
        bbox := (100, 300, 220, 320)%Q |};
     {| kind := Icon; confidence := 27 # 20; center := (160, 230)%Q;
        bbox := (100, 170, 220, 290)%Q |}]
    (1000, 800)%positive
  = Some (160 # 1000, 310 # 800).
Proof.
  destruct (locator_returns_best
              [{| kind := Shape; confidence := 1 # 2; center := (500, 100)%Q;
                  bbox := (485, 85, 515, 115)%Q |};
               {| kind := TextMatch; confidence := 27 # 20; center := (160, 310)%Q;
                  bbox := (100, 300, 220, 320)%Q |};
               {| kind := Icon; confidence := 27 # 20; center := (160, 230)%Q;
                  bbox := (100, 170, 220, 290)%Q |}]
              (1000, 800)%positive)
    as (l1 & best & l2 & Hl & H1 & H2 & Hf).
  rewrite Hf. clear Hf.
  destruct l1 as [|a [|b [|c l1]]]; cbn [app] in Hl.
  - injection Hl as <- <-. apply Forall_cons in H2 as [H2 _].
    cbn in H2. destruct (H2 eq_refl).
  - injection Hl as <- <- <-. reflexivity.
  - injection Hl as <- <- <- <-. apply Forall_cons in H1 as [_ H1].
    apply Forall_cons in H1 as [H1 _]. cbn in H1. discriminate.
  - injection Hl as _ _ _ Hl. destruct l1; discriminate.
Defined.

End LocatorProps.

(** ** C9: the verification probe *)

Module VerifyProps.
Import Verify VerifySpec.

Lemma abs_distance (a b : Z) : Z.abs (a - b) = distance a b.
Proof. unfold distance. lia. Qed.

Lemma changed_pixel_absdiff (cv : opencv) (p q : Z * Z * Z) :
  changed_pixel cv (p, q) = (30 <? gray cv (absdiff_pixel p q))%Z.
Proof.
  destruct p as [[b1 g1] r1], q as [[b2 g2] r2].
  unfold changed_pixel, absdiff_pixel. now rewrite !abs_distance.
Qed.

Lemma count_thresholded (cv : opencv) (l1 l2 : list (Z * Z * Z)) :
  count_nonzero (threshold <$> (gray cv <$> zip_with absdiff_pixel l1 l2))
  = length (filter (fun pq => changed_pixel cv pq = true) (zip l1 l2)).
Proof.
  unfold count_nonzero. revert l2.
  induction l1 as [|p l1 IH]; intros [|q l2]; try reflexivity.
  cbn [zip_with fmap list_fmap zip]. rewrite !filter_cons.
  destruct (decide (threshold (gray cv (absdiff_pixel p q)) <> 0%Z)) as [H|H];
    destruct (decide (changed_pixel cv (p, q) = true)) as [H'|H'];
    cbn [length]; rewrite ?IH; try reflexivity; exfalso;
    rewrite changed_pixel_absdiff in H'; unfold threshold in *;
    destruct (30 <? gray cv (absdiff_pixel p q))%Z;
    first [congruence | apply H; discriminate].
Qed.

Lemma percentage_above (changed total : nat) :
  total <> 0 ->
  (15 < (Z.of_nat changed # 1) / (Z.of_nat total # 1) * 100)%Q
  <-> 15 * total < 100 * changed.
Proof.
  intros Ht. destruct total as [|t]; [congruence|].
  unfold Qlt, Qdiv, Qmult, Qinv. cbn [Qnum Qden].
  rewrite Nat2Z.inj_succ. unfold Z.succ.
  destruct (Z.of_nat t + 1)%Z as [|p|p] eqn:E; try lia.
  cbn [Qnum Qden]. lia.
Qed.

(** The probe, on the after image as it is compared. *)
Lemma verify_success_compared (cv : opencv) (before after : image) (task_type : string) :
  well_formed before ->
  well_formed (compared cv before after) ->
  shape (compared cv before after) = shape before ->
  rows before * cols before <> 0 ->
  exists b,
    verify_success cv before after task_type = Ok b /\
    (b = true <->
       task_type = "open_folder" /\
       15 * (rows before * cols before)
       < 100 * changed_count cv before (compared cv before after)).
Proof.
  intros Hwf Hwf' Hshape Hne.
  unfold verify_success. fold (compared cv before after).
  destruct (String.eqb task_type "open_folder") eqn:Htask.
  - apply String.eqb_eq in Htask.
    unfold absdiff. rewrite decide_True by (symmetry; exact Hshape).
    cbn [pixels].
    set (th := threshold <$> _).
    assert (Hlen : length th = rows before * cols before).
    { unfold th. rewrite !length_fmap, length_zip_with.
      unfold well_formed in *. injection Hshape as Hr Hc. rewrite Hwf, Hwf', Hr, Hc. lia. }
    rewrite decide_False by (rewrite Hlen; exact Hne).
    replace (count_nonzero th) with (changed_count cv before (compared cv before after))
      by (symmetry; apply count_thresholded).
    rewrite Hlen.
    destruct (Qlt_le_dec _ _) as [Hlt|Hle].
    + exists true. split; [reflexivity|].
      pose proof (proj1 (percentage_above _ _ Hne) Hlt). tauto.
    + exists false. split; [reflexivity|].
      split; [discriminate|]. intros [_ H].
      pose proof (proj2 (percentage_above _ _ Hne) H) as H'.
      exfalso. exact (Qlt_not_le _ _ H' Hle).
  - exists false. split; [reflexivity|].
    split; [discriminate|]. intros [H _]. subst.
    rewrite String.eqb_refl in Htask. discriminate.
Qed.

(** C9. For every pair of images and every task kind: for the kind
    [open_folder] the probe reports success exactly when more than 15
    percent of the pixels changed (grey value of the absolute difference
    above 30); for every other kind it reports failure. An after image of
    the shape of the before image is compared as it is; an after image of
    another shape is resized to the width and the height of the before
    image first. The images are rectangular arrays with at least one
    pixel and [cv2.resize] returns an array of the shape it was asked
    for. *)
Theorem verify_success_spec (cv : opencv) (before after : image) (task_type : string) :
  well_formed before ->
  rows before * cols before <> 0 ->
  (shape after = shape before -> well_formed after ->
   exists b,
     verify_success cv before after task_type = Ok b /\
     (b = true <->
        task_type = "open_folder" /\
        15 * (rows before * cols before) < 100 * changed_count cv before after)) /\
  (shape after <> shape before ->
   let resized := resize cv after (cols before) (rows before) in
   well_formed resized -> shape resized = shape before ->
   exists b,
     verify_success cv before after task_type = Ok b /\
     (b = true <->
        task_type = "open_folder" /\
        15 * (rows before * cols before) < 100 * changed_count cv before resized)).
Proof.
  intros Hwf Hne. split.
  - intros Hshape Hwf'.
    pose proof (verify_success_compared cv before after task_type Hwf) as H.
    unfold compared in H. rewrite decide_True in H by (symmetry; exact Hshape).
    now apply H.
  - intros Hshape resized Hwf' Hshape'.
    pose proof (verify_success_compared cv before after task_type Hwf) as H.
    unfold compared in H. rewrite decide_False in H by (intros E; now apply Hshape).
    now apply H.
Qed.

End VerifyProps.

(** ** The normaliser of [call_claude_37]: C5 and C10 *)

Module NormalizerProps.
Import Text Py Normalizer NormalizerSpec.

(** The groups of the two patterns of the description are never empty. *)
Lemma search_not_empty (r : Re.re) (n : nat) (t g : string) :
  (forall prev s g p rest,
      Re.match_here r prev s = Some (g, p, rest) ->
      S n <= String.length g /\ exists a b, s = a +:+ g +:+ b +:+ rest) ->
  Re.search r t = Some g -> g <> EmptyString.
Proof.
  intros Hr H. unfold Re.search in H.
  destruct (Re.search_from r None t) as [[[g' p] rest]|] eqn:Hs; [|discriminate].
  injection H as ->.
  apply (RegexFacts.search_from_piece r (S n) Hr) in Hs as [Hl _].
  intros ->. cbn in Hl. lia.
Qed.

Lemma search_quoted_not_empty (t g : string) :
  Re.search Extract.quoted_pattern t = Some g -> g <> EmptyString.
Proof.
  apply (search_not_empty _ 0). intros prev s g' p rest H.
  unfold Extract.quoted_pattern in H.
  apply RegexFacts.match_here_framed in H as (Hl & a & b & -> & _); try reflexivity.
  split; [exact Hl | now exists a, b].
Qed.

Lemma search_sbc_not_empty (t g : string) :
  Re.search sbc_pattern t = Some g -> g <> EmptyString.
Proof.
  apply (search_not_empty _ 0). intros prev s g' p rest H.
  unfold sbc_pattern in H.
  apply RegexFacts.match_here_group in H as (Hl & ->); [|reflexivity].
  split; [cbn in Hl; lia|]. exists EmptyString, EmptyString.
  now rewrite append_empty_l.
Qed.

Lemma truthy_text (g : string) : truthy (JStr g) = true <-> g <> EmptyString.
Proof.
  cbn [truthy]. rewrite negb_true_iff. split.
  - intros H ->. discriminate.
  - intros H. destruct g; [congruence | reflexivity].
Qed.

Lemma coordinates_items (m : gmap string json) :
  (let? x := item m "x" in let? y := item m "y" in Ok tt) = Ok tt <-> has_coordinates m.
Proof.
  unfold item, has_coordinates. split.
  - destruct (m !! "x"); [|discriminate]. cbn [rbind].
    destruct (m !! "y"); [|discriminate]. intros _. split; eauto.
  - intros [[x ->] [y ->]]. reflexivity.
Qed.

(** The code builds the description of exactly the clicks that can be
    described. *)
Lemma described_iff (m : gmap string json) : described m = Ok tt <-> describable m.
Proof.
  unfold described, target_description, describable.
  destruct (m !! "text") as [v|]; cbn [rbind].
  - destruct (truthy v); [tauto|]. rewrite coordinates_items.
    split; [now right | intros [H|H]; [discriminate | exact H]].
  - destruct (m !! "thought") as [[| | |thought| |]|]; cbn [rbind];
      try (split; [discriminate | tauto]).
    + unfold names_a_target.
      destruct (Re.search Extract.quoted_pattern thought) as [g|] eqn:Hq; cbn [rbind].
      { rewrite (proj2 (truthy_text g)) by (eapply search_quoted_not_empty; eauto).
        split; [intros _; left; left; eauto | reflexivity]. }
      destruct (Re.search sbc_pattern thought) as [g|] eqn:Hs; cbn [rbind].
      { rewrite (proj2 (truthy_text g)) by (eapply search_sbc_not_empty; eauto).
        split; [intros _; left; right; left; eauto | reflexivity]. }
      destruct (truthy (JStr (by_indicator click_indicators thought))) eqn:Ht.
      * apply truthy_text in Ht. split; [intros _; left; right; right; exact Ht | reflexivity].
      * rewrite coordinates_items. split; [now right|].
        intros [[[? H]|[[? H]|H]]|H]; try discriminate; [|exact H].
        apply truthy_text in H. congruence.
    + cbn [truthy String.eqb negb]. now rewrite coordinates_items.
Qed.

Lemma wants_when_fires (m : gmap string json) :
  has_flag m \/ mentions_double_click m -> wants_double_click (JObj m) = Ok true.
Proof.
  intros H. unfold wants_double_click. cbn [as_dict rbind].
  destruct (truthy (default (JBool false) (m !! "double_click"))) eqn:Hf; [reflexivity|].
  destruct H as [(v & Hv & Ht) | (t & Ht & Hd & Hc)].
  - rewrite Hv in Hf. cbn in Hf. congruence.
  - now rewrite Ht, Hd, Hc.
Qed.

Lemma need_when_fires (ops : list json) :
  heuristic_fires ops ->
  need_double_click ops = Ok true \/ exists e, need_double_click ops = Raise e.
Proof.
  intros (m & Hin & Hm). induction ops as [|op ops IH]; [inversion Hin|].
  cbn [need_double_click].
  apply elem_of_cons in Hin as [<- | Hin].
  - rewrite (wants_when_fires m Hm). now left.
  - destruct (wants_double_click op) as [[|]|e]; cbn [rbind]; eauto.
Qed.

(** With the heuristic on, every click after the first position is
    skipped. *)
Lemma process_skips_clicks (ops : list json) :
  forall i out, 0 < i -> process true i ops = Ok out ->
    Forall (fun op => is_click op = false) out.
Proof.
  induction ops as [|op ops IH]; intros i out Hi H; cbn [process] in H.
  - injection H as <-. constructor.
  - destruct op as [| | | | |m]; try discriminate. cbn [as_dict rbind] in H.
    destruct (eq_str (get m "operation") "click") eqn:Hc.
    + destruct (described m); [|discriminate]. cbn [rbind] in H.
      replace (0 <? i) with true in H by (symmetry; apply Nat.ltb_lt; exact Hi).
      cbn [andb] in H. eapply (IH (S i)); [lia | exact H].
    + destruct (process true (S i) ops) as [tail|] eqn:Ht; [|discriminate].
      injection H as <-. constructor; [exact Hc|].
      eapply (IH (S i)); [lia | exact Ht].
Qed.

Lemma safe_operation_not_click : is_click safe_operation = false.
Proof. reflexivity. Qed.

Lemma wait_operation_not_click : is_click wait_operation = false.
Proof. reflexivity. Qed.

(** The normaliser on a batch whose first operation is not a click. *)
Lemma returned_batch_no_click (ops : list json) :
  heuristic_fires ops ->
  (exists op rest, ops = op :: rest /\ is_click op = false) ->
  Forall (fun op => is_click op = false) (returned_batch (JArr ops)).
Proof.
  intros Hf (op & rest & -> & Hop).
  unfold returned_batch, normalize. cbn [iterate rbind].
  destruct (need_when_fires _ Hf) as [-> | [e ->]]; cbn [rbind].
  2: { repeat constructor. }
  cbn [process].
  destruct op as [| | | | |m]; cbn [as_dict rbind]; try (repeat constructor).
  cbn [is_click] in Hop. rewrite Hop.
  destruct (process true 1 rest) as [tail|] eqn:Ht; cbn [rbind];
    [|repeat constructor].
  constructor; [exact Hop|].
  eapply process_skips_clicks; [|exact Ht]. lia.
Qed.

(** A thought that contains the phrase [double click] (whatever its
    case) contains both words. *)
Lemma phrase_has_both_words (t : string) :
  str_in "double click" (lower t) = true ->
  str_in "double" (lower t) = true /\ str_in "click" (lower t) = true.
Proof.
  intros H. apply str_in_inv in H as (pre & post & ->). split.
  - change "double click" with ("double" +:+ " click").
    rewrite append_assoc. apply str_in_intro.
  - change "double click" with ("double " +:+ "click").
    rewrite (append_assoc "double "), <- (append_assoc pre). apply str_in_intro.
Qed.

Lemma described_ok (m : gmap string json) :
  thought_is_text m -> has_coordinates m -> described m = Ok tt.
Proof.
  intros Ht [[x Hx] [y Hy]]. unfold described, target_description, item.
  rewrite Hx, Hy.
  destruct (m !! "text") as [v|] eqn:Htext; cbn [rbind].
  - now destruct (truthy v).
  - destruct (m !! "thought") as [v|] eqn:Hth.
    + destruct (Ht Htext v Hth) as [t ->].
      destruct (Re.search _ t); cbn [rbind]; [now destruct (truthy _)|].
      destruct (Re.search _ t); cbn [rbind]; now destruct (truthy _).
    + reflexivity.
Qed.

Lemma flag_with_coordinates (m : gmap string json) :
  has_coordinates m -> flag_double_click m = <["double_click" := JBool true]> m.
Proof. intros [[x Hx] [y Hy]]. unfold flag_double_click. now rewrite Hx, Hy. Qed.

Lemma described_with_text (m : gmap string json) (v : json) :
  m !! "text" = Some v -> truthy v = true -> describable m.
Proof. intros Hv Ht. unfold describable. rewrite Hv. now left. Qed.

(** Two clicks, the first thought saying double click, the first click
    with coordinates: when the second click can be described, the first
    click is kept and flagged and the second is dropped; when it cannot,
    the normaliser raises. *)
Lemma normalize_two_clicks (m1 m2 : gmap string json) (t : string) :
  is_click (JObj m1) = true -> is_click (JObj m2) = true ->
  m1 !! "thought" = Some (JStr t) ->
  str_in "double click" (lower t) = true ->
  has_coordinates m1 ->
  normalize (JArr [JObj m1; JObj m2])
  = match described m2 with
    | Ok _ => Ok [JObj (<["double_click" := JBool true]> m1)]
    | Raise e => Raise e
    end.
Proof.
  intros Hc1 Hc2 Ht Hphrase Hxy1.
  assert (Hm : mentions_double_click m1).
  { exists t. split; [exact Ht|]. now apply phrase_has_both_words. }
  unfold normalize. cbn [iterate rbind need_double_click].
  rewrite (wants_when_fires m1 (or_intror Hm)). cbn [rbind process as_dict].
  cbn [is_click] in Hc1, Hc2. rewrite Hc1, Hc2.
  rewrite (described_ok m1); auto.
  - cbn [rbind andb Nat.eqb Nat.ltb Nat.leb].
    destruct (described m2); cbn [rbind]; [|reflexivity].
    now rewrite (flag_with_coordinates m1 Hxy1).
  - intros _ v Hv. rewrite Ht in Hv. injection Hv as <-. now exists t.
Qed.

End NormalizerProps.

(** ** Running the backends *)

Module BackendProps.
Import Text Py Normalizer Backend NormalizerSpec NormalizerProps BackendSpec.

Ltac run :=
  unfold bind, catch, enter, captured, lift, ret, raise, append, set_first,
    get_messages, on_messages; cbn [messages attempts].

(** [call_claude_37] makes one attempt and always returns a batch. *)
Lemma call_claude_37_run (cfg : config) (w : world) (s : state) :
  call_claude_37 cfg w s
  = let a := w (attempts s) in
    match capture a, reply a with
    | None, Ok raw =>
        match normalize (parse cfg raw) with
        | Ok batch =>
            Some (Ok (JArr batch), with_message (assistant_message raw) (entered s))
        | Raise _ => Some (Ok (JArr [safe_operation]), entered s)
        end
    | _, _ => Some (Ok (JArr [safe_operation]), entered s)
    end.
Proof.
  unfold call_claude_37. run.
  destruct (capture (w (attempts s))); [reflexivity|].
  destruct (reply (w (attempts s))) as [raw|e]; [|reflexivity].
  destruct (normalize (parse cfg raw)); reflexivity.
Qed.

(** C10. In [call_claude_37], when the double-click heuristic fires (an
    operation of the parsed batch carries a true [double_click] flag, or
    the words double and click both occur in a thought) and the first
    operation of the batch is not a click, the returned batch contains no
    click operation. *)
Theorem claude_37_no_click_when_first_is_not_click
    (cfg : config) (w : world) (s : state) (raw : string) (ops : list json) :
  capture (w (attempts s)) = None ->
  reply (w (attempts s)) = Ok raw ->
  parse cfg raw = JArr ops ->
  heuristic_fires ops ->
  (exists op rest, ops = op :: rest /\ is_click op = false) ->
  exists out s',
    call_claude_37 cfg w s = Some (Ok (JArr out), s') /\
    Forall (fun op => is_click op = false) out.
Proof.
  intros Hc Hr Hp Hf Hfirst.
  pose proof (returned_batch_no_click ops Hf Hfirst) as H.
  rewrite call_claude_37_run. cbn zeta. rewrite Hc, Hr, Hp.
  unfold returned_batch in H.
  destruct (normalize (JArr ops)) as [batch|e]; eauto.
Qed.

(** C5 (amended). Given a batch of two click operations where the first
    thought contains the phrase double click and the first click carries
    [x] and [y]: when the second click can be described (its target
    description is built without an exception; it need not carry
    coordinates), the normaliser of [call_claude_37] outputs exactly one
    operation, the first click, flagged as a double-click; when it
    cannot, the turn returns the fixed wait operation of the [except]
    clause and no click at all. *)
Theorem claude_37_collapses_double_click
    (cfg : config) (w : world) (s : state) (raw t : string) (m1 m2 : gmap string json) :
  capture (w (attempts s)) = None ->
  reply (w (attempts s)) = Ok raw ->
  parse cfg raw = JArr [JObj m1; JObj m2] ->
  is_click (JObj m1) = true -> is_click (JObj m2) = true ->
  m1 !! "thought" = Some (JStr t) ->
  str_in "double click" (lower t) = true ->
  has_coordinates m1 ->
  (describable m2 ->
   exists flagged s',
     call_claude_37 cfg w s = Some (Ok (JArr [JObj flagged]), s') /\
     flagged = <["double_click" := JBool true]> m1 /\
     is_click (JObj flagged) = true /\
     flagged !! "double_click" = Some (JBool true)) /\
  (~ describable m2 ->
   call_claude_37 cfg w s = Some (Ok (JArr [safe_operation]), entered s)).
Proof.
  intros Hc Hr Hp Hc1 Hc2 Ht Hphrase Hxy1.
  rewrite call_claude_37_run. cbn zeta. rewrite Hc, Hr, Hp.
  rewrite (normalize_two_clicks m1 m2 t) by assumption.
  rewrite <- described_iff. split.
  - intros ->. eexists _, _. split; [reflexivity|]. split; [reflexivity|]. split.
    + cbn [is_click] in *. unfold get in *. now rewrite lookup_insert_ne.
    + apply lookup_insert_eq.
  - intros Hn. destruct (described m2) as [[]|e]; [now destruct Hn | reflexivity].
Qed.

(** *** Retries: C2 *)

(** One round of [call_gpt_4o]. *)
Lemma call_gpt_4o_round (cfg : config) (w : world) (fuel : nat) (s : state) :
  call_gpt_4o cfg w (S fuel) s
  = let a := w (attempts s) in
    match capture a with
    | Some _ => Some (Raise UnboundLocalError, entered s)
    | None =>
        let s' := with_message (gpt_vision cfg a s) (entered s) in
        match reply a with
        | Raise _ => Some (Raise UnboundLocalError, s')
        | Ok raw =>
            match json_loads cfg (clean_json raw) with
            | Some parsed =>
                Some (Ok parsed, with_message (assistant_message (clean_json raw)) s')
            | None => call_gpt_4o cfg w fuel s'
            end
        end
    end.
Proof.
  cbn [call_gpt_4o]. unfold append_vision. run.
  destruct (capture (w (attempts s))); [reflexivity|].
  destruct (reply (w (attempts s))) as [raw|e]; [|reflexivity].
  destruct (json_loads cfg (clean_json raw)); reflexivity.
Qed.




Lemma call_ollama_llava_round (cfg : config) (w : world) (fuel : nat) (s : state) :
  call_ollama_llava cfg w (S fuel) s
  = let a := w (attempts s) in
    match capture a with
    | Some ResponseError => Some (Ok JNull, entered s)
    | Some _ => Some (Raise UnboundLocalError, entered s)
    | None =>
        let s' := with_message (llava_vision cfg s) (entered s) in
        match reply a with
        | Raise ResponseError => Some (Ok JNull, s')
        | Raise _ => Some (Raise UnboundLocalError, s')
        | Ok raw =>
            match json_loads cfg (clean_json (strip raw)) with
            | Some parsed =>
                Some (Ok parsed,
                      with_message (assistant_message (clean_json (strip raw))) s')
            | None => call_ollama_llava cfg w fuel s'
            end
        end
    end.
Proof.
  cbn [call_ollama_llava]. run.
  destruct (capture (w (attempts s))) as [[]|]; try reflexivity.
  destruct (reply (w (attempts s))) as [raw|[]]; try reflexivity.
  destruct (json_loads cfg (clean_json (strip raw))); reflexivity.
Qed.





(** *** The OCR-augmented backends: C1 and C7 *)

Lemma with_ocr_run (cfg : config) (hp : helpers) (w : world) (suffix : string)
    (fuel : nat) (objective model : string) (s : state) :
  messages s <> [] ->
  capture (w (attempts s)) = None ->
  with_ocr cfg hp w suffix fuel objective model s
  = let a := w (attempts s) in
    let s' := asked cfg suffix model objective a s in
    match reply a with
    | Raise _ => gpt_4_fallback cfg w fuel objective s'
    | Ok raw =>
        match json_loads cfg (clean_json raw) with
        | None => gpt_4_fallback cfg w fuel objective s'
        | Some content =>
            match (let? ops := iterate content in resolve_text_clicks hp Ok a ops) with
            | Ok processed =>
                Some (Ok (JArr processed),
                      with_message (assistant_message (clean_json raw)) s')
            | Raise _ => gpt_4_fallback cfg w fuel objective s'
            end
        end
    end.
Proof.
  intros Hm Hc. unfold with_ocr, confirm_system_prompt, append_vision, loads, asked. run.
  destruct (messages s) as [|first rest] eqn:Hs; [congruence|].
  rewrite Hc. cbn [tail].
  destruct (reply (w (attempts s))) as [raw|e]; [|reflexivity].
  destruct (json_loads cfg (clean_json raw)) as [content|]; [|reflexivity].
  destruct (let? ops := iterate content in resolve_text_clicks hp Ok _ ops);
    reflexivity.
Qed.

Lemma unresolvable_click_raises (hp : helpers) (a : attempt) (ops : list json)
    (m : gmap string json) :
  JObj m ∈ ops -> is_click (JObj m) = true -> unresolvable hp a m ->
  exists e, resolve_text_clicks hp Ok a ops = Raise e.
Proof.
  intros Hin Hc (r & e & Hr & He).
  induction ops as [|op ops IH]; [inversion Hin|].
  cbn [resolve_text_clicks].
  apply elem_of_cons in Hin as [<- | Hin].
  - cbn [as_dict rbind]. cbn [is_click] in Hc. rewrite Hc.
    unfold click_by_text. rewrite Hr. cbn [rbind]. rewrite He. cbn [rbind]. eauto.
  - destruct (as_dict op) as [m'|e']; cbn [rbind]; [|eauto].
    destruct (eq_str (get m' "operation") "click").
    + destruct (click_by_text hp Ok a m'); cbn [rbind]; [|eauto].
      destruct (IH Hin) as [e' ->]. cbn [rbind]. eauto.
    + destruct (IH Hin) as [e' ->]. cbn [rbind]. eauto.
Qed.

Lemma resolved_clicks (hp : helpers) (a : attempt) (ops : list json) :
  forall out, resolve_text_clicks hp Ok a ops = Ok out ->
    Forall2 (resolved_from hp a) ops out.
Proof.
  induction ops as [|op ops IH]; intros out H; cbn [resolve_text_clicks] in H.
  - injection H as <-. constructor.
  - destruct op as [| | | | |m]; try discriminate. cbn [as_dict rbind] in H.
    destruct (eq_str (get m "operation") "click") eqn:Hc.
    + unfold click_by_text in H.
      destruct (readtext a) as [r|] eqn:Hr; [|discriminate]. cbn [rbind] in H.
      destruct (get_text_element hp r (get m "text")) as [i|] eqn:Hi;
        [|discriminate]. cbn [rbind] in H.
      destruct (get_text_coordinates hp r i (screen a)) as [xy|] eqn:Hxy;
        [|discriminate]. cbn [rbind] in H.
      destruct (resolve_text_clicks hp Ok a ops) as [tl|]; [|discriminate].
      injection H as <-. constructor; [|now apply IH].
      cbn [resolved_from]. rewrite Hc. now exists r, i, xy.
    + destruct (resolve_text_clicks hp Ok a ops) as [tl|]; [|discriminate].
      injection H as <-. constructor; [|now apply IH].
      cbn [resolved_from]. now rewrite Hc.
Qed.

(** *** The label-augmented backend: C1 and C3 *)

Lemma call_gpt_4o_labeled_run (cfg : config) (hp : helpers) (w : world) (fuel : nat)
    (objective model : string) (s : state) (labels : string * gmap string box)
    (raw : string) (m : gmap string json) (rest : list json) :
  messages s <> [] ->
  capture (w (attempts s)) = None ->
  labelled (w (attempts s)) = Ok labels ->
  reply (w (attempts s)) = Ok raw ->
  json_loads cfg (clean_json raw) = Some (JArr (JObj m :: rest)) ->
  call_gpt_4o_labeled cfg hp w fuel objective model s
  = let a := w (attempts s) in
    let s' := labeled_asked cfg model objective labels.1 raw s in
    if is_click (JObj m) then
      match get_click_position_in_percent hp
              (get_label_coordinates hp (get m "label") labels.2) (screen a) with
      | Some (x, y) =>
          Some (Ok (JArr [JObj (<["y" := JStr (format_2f cfg y)]>
                                (<["x" := JStr (format_2f cfg x)]> m))]), s')
      | None => handed_over cfg w fuel s'
      end
    else Some (Ok (JArr [JObj m]), s').
Proof.
  intros Hm Hc Hl Hr Hj.
  unfold call_gpt_4o_labeled, confirm_system_prompt, append_vision, loads,
    labeled_asked, label_first, handed_over. run.
  destruct (messages s) as [|first tl] eqn:Hs; [congruence|].
  rewrite Hc, Hl, Hr. cbn [tail]. rewrite Hj. cbn [iterate as_dict is_click].
  destruct (eq_str (get m "operation") "click"); [|reflexivity].
  destruct (get_click_position_in_percent hp _ _) as [[x y]|]; reflexivity.
Qed.

(** C1 (amended). When a click of the batch cannot be resolved, no
    operation of that batch is emitted. In an OCR-augmented backend
    ([call_gpt_4o_with_ocr], [call_o1_with_ocr], [call_qwen_vl_with_ocr],
    which are [with_ocr]) a click whose text finds no OCR element makes
    the turn return what [gpt_4_fallback] returns. In
    [call_gpt_4o_labeled] a first operation that is a click whose label
    does not resolve makes the turn return what [call_gpt_4o] returns.
    When every click resolves, each click of the output carries the
    coordinates that the resolver returned for its text and every other
    operation is emitted unchanged: no click receives a coordinate from
    anywhere else. *)
Theorem unresolvable_click_abandons_batch
    (cfg : config) (hp : helpers) (w : world) (fuel : nat)
    (objective model : string) (s : state) :
  messages s <> [] ->
  capture (w (attempts s)) = None ->
  let a := w (attempts s) in
  (forall suffix raw ops m,
      reply a = Ok raw ->
      json_loads cfg (clean_json raw) = Some (JArr ops) ->
      JObj m ∈ ops -> is_click (JObj m) = true -> unresolvable hp a m ->
      with_ocr cfg hp w suffix fuel objective model s
      = gpt_4_fallback cfg w fuel objective (asked cfg suffix model objective a s)) /\
  (forall labels raw m rest,
      labelled a = Ok labels ->
      reply a = Ok raw ->
      json_loads cfg (clean_json raw) = Some (JArr (JObj m :: rest)) ->
      is_click (JObj m) = true ->
      get_click_position_in_percent hp
        (get_label_coordinates hp (get m "label") labels.2) (screen a) = None ->
      call_gpt_4o_labeled cfg hp w fuel objective model s
      = handed_over cfg w fuel (labeled_asked cfg model objective labels.1 raw s)) /\
  (forall suffix raw ops out,
      reply a = Ok raw ->
      json_loads cfg (clean_json raw) = Some (JArr ops) ->
      resolve_text_clicks hp Ok a ops = Ok out ->
      (exists s', with_ocr cfg hp w suffix fuel objective model s
                  = Some (Ok (JArr out), s')) /\
      Forall2 (resolved_from hp a) ops out).
Proof.
  intros Hm Hc a. split; [|split].
  - intros suffix raw ops m Hr Hj Hin Hclick Hun.
    rewrite with_ocr_run by assumption. cbn zeta. fold a. rewrite Hr, Hj.
    cbn [iterate rbind].
    destruct (unresolvable_click_raises hp a ops m Hin Hclick Hun) as [e ->].
    reflexivity.
  - intros labels raw m rest Hl Hr Hj Hclick Hpos.
    rewrite (call_gpt_4o_labeled_run cfg hp w fuel objective model s labels raw m rest)
      by assumption.
    cbn zeta. fold a. now rewrite Hclick, Hpos.
  - intros suffix raw ops out Hr Hj Hres. split.
    + rewrite with_ocr_run by assumption. cbn zeta. fold a. rewrite Hr, Hj.
      cbn [iterate rbind]. rewrite Hres. eauto.
    + now apply resolved_clicks.
Qed.

(** C3 (amended). On a parsed answer with one or more operations (the
    first one a dict), [call_gpt_4o_labeled] returns from inside the
    first round of its loop and never looks at the other operations.
    When the first operation is not a click, or is a click whose label
    resolves, the list it returns holds exactly one operation; when the
    first operation is a click whose label does not resolve, it returns
    what [call_gpt_4o] returns on the session, a list of any length. *)
Theorem labeled_returns_after_first_operation
    (cfg : config) (hp : helpers) (w : world) (fuel : nat)
    (objective model : string) (s : state) (labels : string * gmap string box)
    (raw : string) (m : gmap string json) (rest : list json) :
  messages s <> [] ->
  capture (w (attempts s)) = None ->
  labelled (w (attempts s)) = Ok labels ->
  reply (w (attempts s)) = Ok raw ->
  json_loads cfg (clean_json raw) = Some (JArr (JObj m :: rest)) ->
  let a := w (attempts s) in
  let s' := labeled_asked cfg model objective labels.1 raw s in
  let position :=
    get_click_position_in_percent hp
      (get_label_coordinates hp (get m "label") labels.2) (screen a) in
  (is_click (JObj m) = false ->
   call_gpt_4o_labeled cfg hp w fuel objective model s
   = Some (Ok (JArr [JObj m]), s')) /\
  (forall x y, is_click (JObj m) = true -> position = Some (x, y) ->
   call_gpt_4o_labeled cfg hp w fuel objective model s
   = Some (Ok (JArr [JObj (<["y" := JStr (format_2f cfg y)]>
                          (<["x" := JStr (format_2f cfg x)]> m))]), s')) /\
  (is_click (JObj m) = true -> position = None ->
   call_gpt_4o_labeled cfg hp w fuel objective model s = handed_over cfg w fuel s').
Proof.
  intros Hm Hc Hl Hr Hj a s' position.
  rewrite (call_gpt_4o_labeled_run cfg hp w fuel objective model s labels raw m rest)
    by assumption.
  cbn zeta. fold a s' position. split; [|split].
  - now intros ->.
  - now intros x y -> ->.
  - now intros -> ->.
Qed.

(** *** Failures: C7 *)

(** C7 (amended). In [call_claude_37], every failure during the turn
    (capture, network or client exception, an exception while the
    operations are processed) makes the turn return exactly one fixed
    operation: kind wait, duration 1, thought [Continuing task after
    error]. The OCR-augmented backends return no fixed operation: when
    the model call fails they return what [gpt_4_fallback] returns. *)
Theorem failure_of_a_turn (cfg : config) (hp : helpers) (w : world) (s : state) :
  let a := w (attempts s) in
  (turn_fails cfg a ->
   call_claude_37 cfg w s = Some (Ok (JArr [safe_operation]), entered s) /\
   safe_operation = obj [("thought", JStr "Continuing task after error");
                         ("operation", JStr "wait"); ("duration", JNum 1)]) /\
  (forall suffix fuel objective model e,
      messages s <> [] -> capture a = None -> reply a = Raise e ->
      with_ocr cfg hp w suffix fuel objective model s
      = gpt_4_fallback cfg w fuel objective (asked cfg suffix model objective a s)).
Proof.
  intros a. split.
  - intros H. split; [|reflexivity].
    rewrite call_claude_37_run. cbn zeta. fold a.
    destruct H as [H | [[e H] | (raw & e & Hr & H)]].
    + destruct (capture a); [reflexivity | congruence].
    + rewrite H. now destruct (capture a).
    + rewrite Hr, H. now destruct (capture a).
  - intros suffix fuel objective model e Hm Hc Hr.
    rewrite with_ocr_run by assumption. cbn zeta. fold a. now rewrite Hr.
Qed.

End BackendProps.

Module NormalizerExamples.
Import Text Py Normalizer Backend NormalizerSpec BackendSpec NormalizerProps BackendProps Examples.

(** C5, counterexample. Two text clicks (no [x], no [y]) whose first
    thought contains double click: one click comes out, and it carries no
    double-click flag. *)
Lemma claude_37_text_click_not_flagged :
  is_click (JObj click_on_text) = true /\
  str_in "double click" (lower "double click the Documents folder") = true /\
  (exists s',
     call_claude_37 double_click_config
       (world_of [] (answers click_on_text_text)) session_start
     = Some (Ok (JArr [JObj click_on_text]), s')) /\
  ~ has_flag click_on_text.
Proof.
  split; [reflexivity|]. split; [reflexivity|]. split.
  - eexists. vm_compute. reflexivity.
  - intros (v & Hv & _). vm_compute in Hv. discriminate.
Qed.

Lemma claude_37_collapses_double_click_witness :
  (exists s',
     call_claude_37 mixed_clicks_config
       (world_of [] (answers half_then_text_text)) session_start
     = Some (Ok (JArr [JObj (<["double_click" := JBool true]> click_at_half)]), s')) /\
  call_claude_37 mixed_clicks_config
    (world_of [] (answers half_then_mute_text)) session_start
  = Some (Ok (JArr [safe_operation]), entered session_start).
Proof.
  assert (Hxy : has_coordinates click_at_half) by (split; eexists; reflexivity).
  split.
  - destruct (proj1 (claude_37_collapses_double_click mixed_clicks_config
                       (world_of [] (answers half_then_text_text)) session_start
                       half_then_text_text "double click the Documents folder"
                       click_at_half click_on_text
                       eq_refl eq_refl eq_refl eq_refl eq_refl eq_refl eq_refl Hxy))
      as (flagged & s' & H & -> & _).
    + apply (described_with_text click_on_text (JStr "Documents")); reflexivity.
    + exists s'. exact H.
  - refine (proj2 (claude_37_collapses_double_click mixed_clicks_config
                     (world_of [] (answers half_then_mute_text)) session_start
                     half_then_mute_text "double click the Documents folder"
                     click_at_half click_without_words
                     eq_refl eq_refl eq_refl eq_refl eq_refl eq_refl eq_refl Hxy) _).
    intros H. vm_compute in H. exact H.
Defined.

Lemma claude_37_no_click_when_first_is_not_click_witness :
  exists out s',
    call_claude_37 double_click_config
      (world_of [] (answers press_then_click_text)) session_start
    = Some (Ok (JArr out), s') /\
    Forall (fun op => is_click op = false) out.
Proof.
  apply (claude_37_no_click_when_first_is_not_click double_click_config
           (world_of [] (answers press_then_click_text)) session_start
           press_then_click_text [JObj press_enter; JObj click_at_half]).
  - reflexivity.
  - reflexivity.
  - reflexivity.
  - exists press_enter. split; [constructor|]. right.
    exists "Double click did not work, press enter". repeat split; reflexivity.
  - exists (JObj press_enter), [JObj click_at_half]. split; reflexivity.
Defined.

End NormalizerExamples.

(** ** The OCR text-click resolution: C4 *)

Module ResolverProps.
Import Text Py Backend ResolverSpec.

Lemma index_where_first (p : ocr_element -> bool) (r : ocr_result) :
  forall i e,
    r !! i = Some e -> p e = true ->
    (forall j e', j < i -> r !! j = Some e' -> p e' = false) ->
    Resolver.index_where p r = Some i.
Proof.
  induction r as [|x r IH]; intros i e Hi He Hfirst; [discriminate|].
  cbn [Resolver.index_where]. destruct i as [|i].
  - injection Hi as ->. now rewrite He.
  - rewrite (Hfirst 0 x ltac:(lia) eq_refl).
    rewrite (IH i e); [reflexivity | exact Hi | exact He |].
    intros j e' Hj He'. apply (Hfirst (S j) e'); [lia | exact He'].
Qed.

Lemma exact_match_resolved (r : ocr_result) (t : string) (i : nat) (e : ocr_element) :
  first_exact r t i e -> Resolver.get_text_element r (JStr t) = Ok i.
Proof.
  intros (Hi & He & Hfirst). unfold Resolver.get_text_element.
  rewrite (index_where_first _ r i e); [reflexivity | exact Hi | |].
  - now apply String.eqb_eq.
  - intros j e' Hj He'. apply String.eqb_neq. eauto.
Qed.

Lemma click_on_exact_match (shorten : json -> result json) (a : attempt)
    (r : ocr_result) (m : gmap string json) (t : string) (i : nat) (e : ocr_element) :
  readtext a = Ok r ->
  shorten (get m "text") = Ok (JStr t) ->
  first_exact r t i e ->
  click_by_text spec_helpers shorten a m = Ok (placed m e a).
Proof.
  intros Hr Hs Hf. unfold click_by_text, placed. rewrite Hr. cbn [rbind].
  rewrite Hs. cbn [rbind spec_helpers get_text_element get_text_coordinates].
  rewrite (exact_match_resolved r t i e Hf). cbn [rbind].
  unfold Resolver.get_text_coordinates. destruct Hf as (Hi & _).
  rewrite Hi.
  destruct (quad_center e) as [cx cy]. reflexivity.
Qed.

Lemma take_chars_all (n : nat) (t : string) :
  String.length t <= n -> take_chars n t = t.
Proof.
  revert n. induction t as [|c t IH]; intros [|n] H; cbn in *;
    try reflexivity; try lia.
  f_equal. apply IH. lia.
Qed.

(** C4 (amended). With the resolver of the specification (exact matches
    first): in the backends that hand the whole text of the click to the
    resolver ([call_gpt_4o_with_ocr], [call_o1_with_ocr],
    [call_qwen_vl_with_ocr]), when an OCR element's text equals the
    target text the click receives the centre of the first such element,
    as a fraction of the screen. [call_claude_3_with_ocr] hands over the
    first three characters of the target only: the click receives the
    centre of the first element whose text equals those three
    characters; it is the exact match of the target when the target has
    at most three characters. *)
Theorem exact_match_is_clicked (a : attempt) (r : ocr_result)
    (m : gmap string json) (t : string) (i : nat) (e : ocr_element) :
  readtext a = Ok r ->
  m !! "text" = Some (JStr t) ->
  (first_exact r t i e ->
   click_by_text spec_helpers Ok a m = Ok (placed m e a)) /\
  (first_exact r (take_chars 3 t) i e ->
   click_by_text spec_helpers (slice_to 3) a m = Ok (placed m e a)) /\
  (String.length t <= 3 -> first_exact r t i e ->
   click_by_text spec_helpers (slice_to 3) a m = Ok (placed m e a)).
Proof.
  intros Hr Ht.
  assert (Hg : get m "text" = JStr t) by (unfold get; now rewrite Ht).
  split; [|split].
  - intros Hf. apply (click_on_exact_match Ok a r m t i e); auto.
    now rewrite Hg.
  - intros Hf. apply (click_on_exact_match (slice_to 3) a r m (take_chars 3 t) i e); auto.
    now rewrite Hg.
  - intros Hlen Hf.
    apply (click_on_exact_match (slice_to 3) a r m t i e); auto.
    rewrite Hg. cbn [slice_to]. now rewrite take_chars_all.
Qed.

End ResolverProps.

Module BackendExamples.
Import Text Py Normalizer Backend Examples BackendData.
Import NormalizerSpec BackendSpec ResolverSpec NormalizerProps BackendProps ResolverProps.

(** *** C1 *)

(** C1, counterexample. The batch press, click on the text [Nowhere],
    done, in [call_gpt_4o_with_ocr]: the text is not on the screen, and
    the turn returns the single wait operation that the fallback model
    answered; the press and the done operation of the batch are not
    emitted. *)
Lemma unresolvable_click_loses_the_batch :
  json_loads backend_config (clean_json nowhere_text)
  = Some (JArr [press_op; JObj (click_text "Nowhere"); done_op]) /\
  Resolver.get_text_element desktop (JStr "Nowhere") = Raise ResolveError /\
  exists s',
    call_gpt_4o_with_ocr backend_config spec_helpers
      (world_of [sees nowhere_text] (answers only_wait_text))
      3 "objective" "gpt-4-with-ocr" session_start
    = Some (Ok (JArr [wait_op]), s').
Proof.
  split; [reflexivity|]. split; [reflexivity|].
  eexists. vm_compute. reflexivity.
Qed.

Lemma unresolvable_click_abandons_batch_witness :
  with_ocr backend_config spec_helpers
    (world_of [sees nowhere_text] (answers only_wait_text))
    EmptyString 3 "objective" "gpt-4-with-ocr" session_start
  = gpt_4_fallback backend_config
      (world_of [sees nowhere_text] (answers only_wait_text)) 3 "objective"
      (asked backend_config EmptyString "gpt-4-with-ocr" "objective"
         (sees nowhere_text) session_start).
Proof.
  refine (proj1 (unresolvable_click_abandons_batch backend_config spec_helpers
                   (world_of [sees nowhere_text] (answers only_wait_text))
                   3 "objective" "gpt-4-with-ocr" session_start _ _)
            EmptyString nowhere_text
            [press_op; JObj (click_text "Nowhere"); done_op]
            (click_text "Nowhere") _ _ _ _ _).
  - discriminate.
  - reflexivity.
  - reflexivity.
  - reflexivity.
  - apply elem_of_cons. right. apply elem_of_cons. now left.
  - reflexivity.
  - exists desktop, ResolveError. split; reflexivity.
Defined.

(** *** C2 *)



(** *** C3 *)

(** C3, counterexample. The first operation is a click on the label
    [~9], which the detector did not find: [call_gpt_4o_labeled] returns
    the two operations that [call_gpt_4o] obtained. *)
Lemma labeled_can_return_two_operations :
  json_loads backend_config (clean_json label_text)
  = Some (JArr [JObj (click_label "~9"); done_op]) /\
  exists s',
    call_gpt_4o_labeled backend_config spec_helpers
      (world_of [sees label_text] (answers press_done_text))
      3 "objective" "gpt-4-with-som" session_start
    = Some (Ok (JArr [press_op; done_op]), s').
Proof.
  split; [reflexivity|]. eexists. vm_compute. reflexivity.
Qed.

Lemma labeled_returns_after_first_operation_witness :
  call_gpt_4o_labeled backend_config spec_helpers
    (world_of [sees label1_text] (answers press_done_text))
    3 "objective" "gpt-4-with-som" session_start
  = Some (Ok (JArr [JObj (<["y" := JStr "0.27"]> (<["x" := JStr "0.14"]> (click_label "~1")))]),
          labeled_asked backend_config "gpt-4-with-som" "objective" "bGFiZWxz"
            label1_text session_start).
Proof.
  refine (proj1 (proj2 (labeled_returns_after_first_operation backend_config spec_helpers
                   (world_of [sees label1_text] (answers press_done_text))
                   3 "objective" "gpt-4-with-som" session_start
                   ("bGFiZWxz", detected) label1_text (click_label "~1") [done_op]
                   _ _ _ _ _))
            (280 # 2000)%Q (430 # 1600)%Q _ _).
  - discriminate.
  - reflexivity.
  - reflexivity.
  - reflexivity.
  - reflexivity.
  - reflexivity.
  - reflexivity.
Defined.

(** *** C4 *)

(** C4, counterexample. The screen shows [Doc] and [Documents]; the
    model asks for a click on the text [Documents]. In
    [call_claude_3_with_ocr] the click lands at the centre of [Doc],
    not at the centre of the element whose text is exactly the target. *)
Lemma claude_3_misses_the_exact_match :
  otext documents_element = "Documents" /\
  (exists s',
     call_claude_3_with_ocr backend_config spec_helpers
       (world_of [sees documents_text] (answers only_wait_text))
       3 "objective" "claude-3" session_start
     = Some (Ok (JArr [placed (click_text "Documents") doc_element (sees documents_text)]),
             s')) /\
  placed (click_text "Documents") doc_element (sees documents_text)
  <> placed (click_text "Documents") documents_element (sees documents_text).
Proof.
  split; [reflexivity|]. split.
  - eexists. vm_compute. reflexivity.
  - intros H. vm_compute in H. discriminate.
Qed.

Lemma exact_match_is_clicked_witness :
  click_by_text spec_helpers Ok (sees documents_text) (click_text "Documents")
  = Ok (placed (click_text "Documents") documents_element (sees documents_text)).
Proof.
  refine (proj1 (exact_match_is_clicked (sees documents_text) desktop
                   (click_text "Documents") "Documents" 1 documents_element _ _) _).
  - reflexivity.
  - reflexivity.
  - split; [reflexivity|]. split; [reflexivity|].
    intros [|j] e' Hj He'; [|lia]. injection He' as <-. discriminate.
Defined.

(** *** C7 *)

(** C7, counterexample. When the model call fails, [call_claude_37]
    returns a wait operation whose thought is not the text of the claim,
    and [call_qwen_vl_with_ocr] returns the done operation that the
    fallback model answered. *)
Lemma failure_is_not_the_fixed_operation :
  (exists s',
     call_claude_37 backend_config (world_of [] fails) session_start
     = Some (Ok (JArr [safe_operation]), s')) /\
  safe_operation
  <> obj [("thought", JStr "continuing after error");
          ("operation", JStr "wait"); ("duration", JNum 1)] /\
  (exists s',
     call_qwen_vl_with_ocr backend_config spec_helpers
       (world_of [fails] (answers only_done_text)) 3 "objective" "qwen-vl" session_start
     = Some (Ok (JArr [done_op]), s')).
Proof.
  split; [|split].
  - eexists. vm_compute. reflexivity.
  - intros H. vm_compute in H. discriminate.
  - eexists. vm_compute. reflexivity.
Qed.

Lemma failure_of_a_turn_witness :
  call_claude_37 backend_config (world_of [] fails) session_start
  = Some (Ok (JArr [safe_operation]), entered session_start).
Proof.
  refine (proj1 (proj1 (failure_of_a_turn backend_config spec_helpers
                          (world_of [] fails) session_start) _)).
  right. left. exists ClientError. reflexivity.
Defined.

End BackendExamples.

Module VerifyExamples.
Import Verify VerifySpec VerifyProps VerifyData.

Lemma verify_success_spec_witness :
  verify_success opencv_like wall_before wall_after "open_folder" = Ok false /\
  verify_success opencv_like strip_before strip_after "open_folder" = Ok false /\
  verify_success opencv_like desktop_before desktop_after "open_folder" = Ok true.
Proof.
  split; [|split].
  - destruct (proj1 (verify_success_spec opencv_like wall_before wall_after "open_folder"
                       eq_refl ltac:(discriminate)) eq_refl eq_refl)
      as (b & Hb & Hiff).
    destruct b; [|exact Hb].
    destruct (proj1 Hiff eq_refl) as [_ H]. vm_compute in H. lia.
  - destruct (proj2 (verify_success_spec opencv_like strip_before strip_after
                       "open_folder" eq_refl ltac:(discriminate))
                ltac:(discriminate) eq_refl eq_refl)
      as (b & Hb & Hiff).
    destruct b; [|exact Hb].
    destruct (proj1 Hiff eq_refl) as [_ H]. vm_compute in H. lia.
  - destruct (proj2 (verify_success_spec opencv_like desktop_before desktop_after
                       "open_folder" eq_refl ltac:(discriminate))
                ltac:(discriminate) eq_refl eq_refl)
      as (b & Hb & Hiff).
    assert (b = true) as ->; [|exact Hb].
    apply Hiff. split; [reflexivity|]. vm_compute. lia.
Defined.

End VerifyExamples.

(** ** More on the normaliser of [call_claude_37] *)

Module NormalizerMore.
Import Text Py Normalizer NormalizerSpec NormalizerProps MoreSpec MoreData.

Lemma process_plain (ops : list json) :
  forall i out, process false i ops = Ok out -> out = ops.
Proof.
  induction ops as [|op ops IH]; intros i out H; cbn [process] in H.
  - now injection H as <-.
  - destruct op as [| | | | |m]; try discriminate. cbn [as_dict rbind] in H.
    destruct (eq_str (get m "operation") "click").
    + destruct (described m); [|discriminate]. cbn [rbind andb] in H.
      destruct (process false (S i) ops) as [tl|] eqn:Ht; [|discriminate].
      injection H as <-. f_equal. eapply IH; eauto.
    + destruct (process false (S i) ops) as [tl|] eqn:Ht; [|discriminate].
      injection H as <-. f_equal. eapply IH; eauto.
Qed.

(** X1. Without a double-click intent in the batch, the normaliser of
    [call_claude_37] emits the operations of a non-empty batch unchanged
    and in order, whenever it emits them at all. *)
Theorem normalize_plain_batch (ops out : list json) :
  need_double_click ops = Ok false ->
  ops <> [] ->
  normalize (JArr ops) = Ok out ->
  out = ops.
Proof.
  intros Hneed Hne H. unfold normalize in H. cbn [iterate rbind] in H.
  rewrite Hneed in H. cbn [rbind] in H.
  destruct (process false 0 ops) as [processed|] eqn:Hp; [|discriminate].
  cbn [rbind] in H. apply process_plain in Hp. subst processed.
  destruct ops; [congruence|]. now injection H.
Qed.

Lemma flagged_is_same_kind (m : gmap string json) :
  is_click (JObj (flag_double_click m)) = is_click (JObj m).
Proof.
  unfold flag_double_click. destruct (m !! "x"); [|reflexivity].
  destruct (m !! "y"); [|reflexivity].
  cbn [is_click]. unfold get. now rewrite lookup_insert_ne.
Qed.


Lemma process_keeps_others (need : bool) (ops : list json) :
  forall i out, process need i ops = Ok out ->
    filter other out = filter other ops.
Proof.
  induction ops as [|op ops IH]; intros i out H; cbn [process] in H.
  - now injection H as <-.
  - destruct op as [| | | | |m]; try discriminate. cbn [as_dict rbind] in H.
    destruct (eq_str (get m "operation") "click") eqn:Hc.
    + destruct (described m); [|discriminate]. cbn [rbind] in H.
      rewrite (filter_cons_False other (JObj m)) by (unfold other; cbn; congruence).
      destruct (need && (0 <? i)).
      * eapply IH; eauto.
      * destruct (process need (S i) ops) as [tl|] eqn:Ht; [|discriminate].
        injection H as <-.
        rewrite filter_cons_False; [eapply IH; eauto|].
        unfold other. destruct (need && (i =? 0)).
        -- rewrite flagged_is_same_kind. cbn. congruence.
        -- cbn. congruence.
    + destruct (process need (S i) ops) as [tl|] eqn:Ht; [|discriminate].
      injection H as <-.
      rewrite !filter_cons_True by (unfold other; cbn; exact Hc).
      f_equal. eapply IH; eauto.
Qed.

End NormalizerMore.

Module NormalizerInvariants.
Import Text Py Normalizer NormalizerSpec NormalizerProps MoreSpec MoreData NormalizerMore.
Import Examples BackendData.

Lemma normalize_processed (ops out : list json) :
  ops <> [] ->
  normalize (JArr ops) = Ok out ->
  exists need, need_double_click ops = Ok need /\ process need 0 ops = Ok out.
Proof.
  intros Hne H. unfold normalize in H. cbn [iterate rbind] in H.
  destruct (need_double_click ops) as [need|]; [|discriminate]. cbn [rbind] in H.
  destruct (process need 0 ops) as [processed|] eqn:Hp; [|discriminate].
  cbn [rbind] in H. exists need. split; [reflexivity|].
  destruct processed as [|x tl]; [|now injection H as <-].
  exfalso. destruct ops as [|op ops]; [congruence|].
  cbn [process] in Hp.
  destruct (as_dict op) as [m|]; [|discriminate]. cbn [rbind] in Hp.
  destruct (eq_str (get m "operation") "click").
  - destruct (described m); [|discriminate]. cbn [rbind] in Hp.
    rewrite andb_false_r in Hp.
    destruct (process need 1 ops); discriminate.
  - destruct (process need 1 ops); discriminate.
Qed.

(** X2. A non-click operation is never dropped on its own. What
    [call_claude_37] returns for a non-empty parsed batch either holds
    every operation of the batch that is not a click, unchanged and in
    the same order, or, when the processing of the batch raised, is the
    single fixed wait operation of the [except] clause, in which case the
    whole batch is lost. *)
Theorem normalize_keeps_other_operations (ops : list json) :
  ops <> [] ->
  filter other (returned_batch (JArr ops)) = filter other ops \/
  (returned_batch (JArr ops) = [safe_operation] /\
   exists e, normalize (JArr ops) = Raise e).
Proof.
  intros Hne. unfold returned_batch.
  destruct (normalize (JArr ops)) as [out|e] eqn:H.
  - left. destruct (normalize_processed ops out Hne H) as (need & _ & Hp).
    eapply process_keeps_others; eauto.
  - right. eauto.
Qed.

Lemma normalize_keeps_other_operations_witness :
  filter other (returned_batch (JArr double_batch)) = filter other double_batch.
Proof.
  destruct (normalize_keeps_other_operations double_batch) as [H | [_ [e H]]].
  - discriminate.
  - exact H.
  - vm_compute in H. discriminate.
Defined.

(** X3. With a double-click intent in the batch, only the first operation
    of the batch can come out as a click in the batch that the normaliser
    emits: it is then the first operation of that output, with the flag
    set when it carries [x] and [y], and no other operation of the output
    is a click. *)
Theorem normalize_double_click_keeps_first_click_only (ops out : list json) :
  need_double_click ops = Ok true ->
  ops <> [] ->
  normalize (JArr ops) = Ok out ->
  Forall other (tail out) /\
  (forall m rest, ops = JObj m :: rest -> is_click (JObj m) = true ->
     head out = Some (JObj (flag_double_click m))).
Proof.
  intros Hneed Hne H.
  destruct (normalize_processed ops out Hne H) as (need & Hn & Hp).
  rewrite Hneed in Hn. injection Hn as <-.
  destruct ops as [|op ops]; [congruence|]. cbn [process] in Hp.
  destruct op as [| | | | |m]; try discriminate. cbn [as_dict rbind] in Hp.
  destruct (eq_str (get m "operation") "click") eqn:Hc.
  - destruct (described m); [|discriminate]. cbn [rbind andb Nat.eqb Nat.ltb Nat.leb] in Hp.
    destruct (process true 1 ops) as [tl|] eqn:Ht; [|discriminate].
    injection Hp as <-. split.
    + cbn [tail]. eapply process_skips_clicks; [|exact Ht]. lia.
    + intros m' rest [= <- <-] _. reflexivity.
  - destruct (process true 1 ops) as [tl|] eqn:Ht; [|discriminate].
    injection Hp as <-. split.
    + cbn [tail]. eapply process_skips_clicks; [|exact Ht]. lia.
    + intros m' rest [= <- <-] Hm. cbn [is_click] in Hm. congruence.
Qed.

Lemma normalize_double_click_keeps_first_click_only_witness :
  Forall other (tail [JObj (<["double_click" := JBool true]> click_at_half); press_op; done_op]).
Proof.
  apply (normalize_double_click_keeps_first_click_only double_batch).
  - reflexivity.
  - discriminate.
  - vm_compute. reflexivity.
Defined.

Lemma normalize_plain_batch_witness :
  [press_op; JObj plain_click; done_op] = plain_batch.
Proof.
  apply (normalize_plain_batch plain_batch).
  - reflexivity.
  - discriminate.
  - vm_compute. reflexivity.
Defined.

End NormalizerInvariants.

(** ** A click that cannot be described fails the turn *)

Module BareProps.
Import Text Py Normalizer Backend NormalizerSpec BackendSpec BareSpec.
Import NormalizerProps BackendProps Examples BackendData.

Lemma described_bare (m : gmap string json) :
  bare_click m -> described m = Raise KeyError.
Proof.
  intros (_ & Ht & Hth & Hxy). unfold described, target_description, item.
  rewrite Ht, Hth. cbn [rbind truthy String.eqb negb].
  destruct (m !! "x"); [|reflexivity]. cbn [rbind].
  destruct Hxy as [Hx | ->]; [discriminate | reflexivity].
Qed.

Lemma process_bare (m : gmap string json) (ops : list json) :
  bare_click m -> JObj m ∈ ops ->
  forall need i, exists e, process need i ops = Raise e.
Proof.
  intros Hm Hin. induction ops as [|op rest IH]; [inversion Hin|].
  intros need i. cbn [process].
  apply elem_of_cons in Hin as [<-|Hin].
  - cbn [as_dict rbind]. destruct Hm as [Hclick Hrest]. rewrite Hclick.
    rewrite described_bare by (split; assumption). cbn [rbind]. eauto.
  - destruct (as_dict op) as [m'|e]; cbn [rbind]; [|eauto].
    destruct (eq_str (get m' "operation") "click").
    + destruct (described m') as [u|e]; cbn [rbind]; [|eauto].
      destruct (need && (0 <? i)); [apply (IH Hin)|].
      destruct (IH Hin need (S i)) as [e ->]. cbn [rbind]. eauto.
    + destruct (IH Hin need (S i)) as [e ->]. cbn [rbind]. eauto.
Qed.

(** X4. One click that cannot be described fails the whole turn of
    [call_claude_37]: when the parsed batch holds, anywhere, a click
    without text, without thought and without one of its coordinates, the
    turn returns the single operation of the [except] clause (wait, with
    thought [Continuing task after error]); the other operations of the
    batch are lost and the answer is not recorded in the history. *)
Theorem bare_click_fails_the_turn (cfg : config) (w : world) (s : state)
    (raw : string) (ops : list json) (m : gmap string json) :
  capture (w (attempts s)) = None ->
  reply (w (attempts s)) = Ok raw ->
  parse cfg raw = JArr ops ->
  JObj m ∈ ops ->
  bare_click m ->
  call_claude_37 cfg w s = Some (Ok (JArr [safe_operation]), entered s).
Proof.
  intros Hc Hr Hp Hin Hm. rewrite call_claude_37_run. cbn zeta.
  rewrite Hc, Hr, Hp. unfold normalize. cbn [iterate rbind].
  destruct (need_double_click ops) as [need|e]; cbn [rbind]; [|reflexivity].
  destruct (process_bare m ops Hm Hin need 0) as [e ->]. reflexivity.
Qed.

Lemma bare_click_fails_the_turn_witness :
  call_claude_37 bare_config (world_of [] (answers done_then_click_text)) session_start
  = Some (Ok (JArr [safe_operation]), entered session_start).
Proof.
  refine (bare_click_fails_the_turn bare_config
            (world_of [] (answers done_then_click_text)) session_start
            done_then_click_text [done_op; JObj click_only] click_only _ _ _ _ _).
  - reflexivity.
  - reflexivity.
  - vm_compute. reflexivity.
  - right. left.
  - repeat split; try reflexivity. left. reflexivity.
Defined.

End BareProps.

(** ** More on the backends *)

Module BackendMore.
Import Text Py Normalizer Backend NormalizerSpec BackendSpec NormalizerProps BackendProps.
Import Examples BackendData MoreSessions.

Lemma normalize_not_empty (v : json) (batch : list json) :
  normalize v = Ok batch -> batch <> [].
Proof.
  unfold normalize. destruct (iterate v) as [ops|]; [|discriminate]. cbn [rbind].
  destruct (need_double_click ops) as [need|]; [|discriminate]. cbn [rbind].
  destruct (process need 0 ops) as [[|x tl]|]; [| |discriminate];
    cbn [rbind]; intros [= <-]; discriminate.
Qed.

(** X5. [call_claude_37] never raises and never returns an empty list:
    whatever the model, the screen and the history, one attempt gives a
    list of at least one operation; the history is left as it was, or has
    grown by exactly one message, the raw answer of the model. *)
Theorem call_claude_37_always_returns_operations (cfg : config) (w : world) (s : state) :
  exists batch s',
    call_claude_37 cfg w s = Some (Ok (JArr batch), s') /\
    batch <> [] /\
    attempts s' = S (attempts s) /\
    (messages s' = messages s \/
     exists raw, reply (w (attempts s)) = Ok raw /\
                 messages s' = messages s ++ [assistant_message raw]).
Proof.
  rewrite call_claude_37_run. cbn zeta.
  destruct (capture _).
  { eexists _, _. split; [reflexivity|]. repeat split; [discriminate | now left]. }
  destruct (reply _) as [raw|].
  2: { eexists _, _. split; [reflexivity|]. repeat split; [discriminate | now left]. }
  destruct (normalize _) as [batch|] eqn:Hn.
  - eexists _, _. split; [reflexivity|]. split; [eapply normalize_not_empty; eauto|].
    split; [reflexivity|]. right. exists raw. split; reflexivity.
  - eexists _, _. split; [reflexivity|]. repeat split; [discriminate | now left].
Qed.

(** X6. An answer that is the empty list: the OCR-augmented backends
    return the empty list, [call_gpt_4o_labeled] returns [None] (its loop
    body, which holds the [return], never runs), and [call_claude_37]
    returns one wait operation. *)
Theorem empty_answer (cfg : config) (hp : helpers) (w : world) (fuel : nat)
    (objective model : string) (s : state) (raw : string) :
  messages s <> [] ->
  capture (w (attempts s)) = None ->
  reply (w (attempts s)) = Ok raw ->
  (json_loads cfg (clean_json raw) = Some (JArr []) ->
   forall suffix, exists s',
     with_ocr cfg hp w suffix fuel objective model s = Some (Ok (JArr []), s')) /\
  (json_loads cfg (clean_json raw) = Some (JArr []) ->
   forall labels, labelled (w (attempts s)) = Ok labels ->
   exists s', call_gpt_4o_labeled cfg hp w fuel objective model s = Some (Ok JNull, s')) /\
  (parse cfg raw = JArr [] ->
   exists s', call_claude_37 cfg w s = Some (Ok (JArr [wait_operation]), s')).
Proof.
  intros Hm Hc Hr. split; [|split].
  - intros Hj suffix. rewrite with_ocr_run by assumption. cbn zeta.
    rewrite Hr, Hj. cbn [iterate rbind resolve_text_clicks]. eauto.
  - intros Hj labels Hl.
    unfold call_gpt_4o_labeled, confirm_system_prompt, append_vision, loads. run.
    destruct (messages s) as [|first tl]; [congruence|].
    rewrite Hc, Hl, Hr, Hj. cbn [iterate]. eauto.
  - intros Hp. rewrite call_claude_37_run. cbn zeta. rewrite Hc, Hr, Hp.
    cbn. eauto.
Qed.

Lemma empty_answer_witness :
  (exists s', call_gpt_4o_with_ocr empty_list_config spec_helpers empty_list_world
                3 "objective" "gpt-4-with-ocr" session_start = Some (Ok (JArr []), s')) /\
  (exists s', call_gpt_4o_labeled empty_list_config spec_helpers empty_list_world
                3 "objective" "gpt-4-with-som" session_start = Some (Ok JNull, s')) /\
  (exists s', call_claude_37 empty_list_config empty_list_world session_start
              = Some (Ok (JArr [wait_operation]), s')).
Proof.
  destruct (empty_answer empty_list_config spec_helpers empty_list_world 3
              "objective" "gpt-4-with-ocr" session_start "[]") as (H1 & _ & H3);
    [discriminate | reflexivity | reflexivity |].
  destruct (empty_answer empty_list_config spec_helpers empty_list_world 3
              "objective" "gpt-4-with-som" session_start "[]") as (_ & H2 & _);
    [discriminate | reflexivity | reflexivity |].
  split; [|split].
  - apply (H1 eq_refl EmptyString).
  - apply (H2 eq_refl ("bGFiZWxz", detected) eq_refl).
  - apply (H3 eq_refl).
Defined.

End BackendMore.

(** ** The message history *)

Module HistoryProps.
Import Text Py Normalizer Backend NormalizerSpec BackendSpec HistorySpec.
Import NormalizerProps BackendProps.
Import Examples BackendData MoreSessions.

Lemma call_gpt_4o_records (cfg : config) (w : world) (fuel : nat) :
  forall s v s',
    call_gpt_4o cfg w fuel s = Some (Ok v, s') ->
    exists visions answer,
      messages s' = messages s ++ visions ++ [assistant_message answer] /\
      Forall from_user visions /\
      length visions = attempts s' - attempts s /\
      attempts s < attempts s' /\
      json_loads cfg answer = Some v.
Proof.
  induction fuel as [|fuel IH]; intros s v s' H; [discriminate|].
  rewrite call_gpt_4o_round in H. cbn zeta in H.
  destruct (capture (w (attempts s))); [discriminate|].
  destruct (reply (w (attempts s))) as [raw|]; [|discriminate].
  destruct (json_loads cfg (clean_json raw)) as [parsed|] eqn:Hj.
  - injection H as <- <-.
    exists [gpt_vision cfg (w (attempts s)) s], (clean_json raw).
    cbn [messages attempts with_message entered]. rewrite <- app_assoc.
    repeat split; auto.
    + constructor; [reflexivity | constructor].
    + cbn. lia.
  - apply IH in H as (visions & answer & Hm & Hv & Hl & Ha & Hp).
    cbn [messages attempts with_message entered] in *.
    exists (gpt_vision cfg (w (attempts s)) s :: visions), answer.
    rewrite Hm, <- !app_assoc. repeat split; auto.
    + constructor; [reflexivity | exact Hv].
    + cbn [length]. lia.
    + lia.
Qed.

(** X7. A call of [call_gpt_4o] that returns a value has only appended to
    the history: one user message for each attempt it made, the failed
    ones included, then one assistant message, whose text parses to the
    value returned. No earlier message is changed. *)
Theorem call_gpt_4o_history (cfg : config) (w : world) (fuel : nat)
    (s s' : state) (v : json) :
  call_gpt_4o cfg w fuel s = Some (Ok v, s') ->
  exists visions answer,
    messages s' = messages s ++ visions ++ [assistant_message answer] /\
    Forall from_user visions /\
    length visions = attempts s' - attempts s /\
    json_loads cfg answer = Some v.
Proof.
  intros H. apply call_gpt_4o_records in H as (visions & answer & H1 & H2 & H3 & _ & H4).
  now exists visions, answer.
Qed.

Lemma call_gpt_4o_history_witness :
  exists s' visions answer,
    call_gpt_4o backend_config third_time_lucky 3 session_start
    = Some (Ok (JArr [done_op]), s') /\
    messages s' = messages session_start ++ visions ++ [assistant_message answer] /\
    length visions = 3.
Proof.
  destruct (call_gpt_4o backend_config third_time_lucky 3 session_start)
    as [[[v|] s']|] eqn:H; vm_compute in H; try discriminate.
  injection H as <- <-.
  destruct (call_gpt_4o_history backend_config third_time_lucky 3 session_start
              _ (JArr [done_op]) ltac:(vm_compute; reflexivity))
    as (visions & answer & Hm & _ & Hl & _).
  eexists _, visions, answer. split; [vm_compute; reflexivity|].
  split; [exact Hm | exact Hl].
Defined.

End HistoryProps.

(** ** Failures and the history *)

Module FailureProps.
Import Text Py Normalizer Backend NormalizerSpec BackendSpec HistorySpec.
Import NormalizerProps BackendProps HistoryProps.
Import Examples BackendData MoreSessions.

(** The run of [call_claude_3_with_ocr] up to the answer. *)
Lemma call_claude_3_run (cfg : config) (hp : helpers) (w : world) (fuel : nat)
    (objective model : string) (s : state) :
  messages s <> [] ->
  capture (w (attempts s)) = None ->
  call_claude_3_with_ocr cfg hp w fuel objective model s
  = let a := w (attempts s) in
    let s' := claude_asked cfg model objective a s in
    let finish (text : string) (parsed : json) :=
      match (let? ops := iterate parsed in resolve_text_clicks hp (slice_to 3) a ops) with
      | Ok processed =>
          Some (Ok (JArr processed), with_message (assistant_message text) s')
      | Raise _ => claude_fallback cfg w fuel objective s'
      end in
    match reply a with
    | Raise _ => claude_fallback cfg w fuel objective s'
    | Ok raw =>
        match json_loads cfg (clean_json raw) with
        | Some parsed => finish (clean_json raw) parsed
        | None =>
            match repair a with
            | Raise _ => claude_fallback cfg w fuel objective s'
            | Ok raw' =>
                match json_loads cfg (clean_json raw') with
                | Some parsed => finish (clean_json raw') parsed
                | None => claude_fallback cfg w fuel objective s'
                end
            end
        end
    end.
Proof.
  intros Hm Hc.
  unfold call_claude_3_with_ocr, confirm_system_prompt, loads, claude_asked,
    claude_fallback, claude_vision. run.
  destruct (messages s) as [|first tl] eqn:Hs; [congruence|].
  rewrite Hc. cbn [tail].
  destruct (reply (w (attempts s))) as [raw|e]; [|reflexivity].
  destruct (json_loads cfg (clean_json raw)) as [parsed|].
  - cbn [fst snd].
    destruct (let? ops := iterate parsed in resolve_text_clicks hp (slice_to 3) _ ops);
      reflexivity.
  - destruct (repair (w (attempts s))) as [raw'|e]; [|reflexivity].
    destruct (json_loads cfg (clean_json raw')) as [parsed|]; [|reflexivity].
    cbn [fst snd].
    destruct (let? ops := iterate parsed in resolve_text_clicks hp (slice_to 3) _ ops);
      reflexivity.
Qed.

(** The hand-over of claude-3 gives the session back with its own list of
    messages. *)
Lemma claude_fallback_keeps_messages (cfg : config) (w : world) (fuel : nat)
    (objective : string) (s : state) (r : result json) (s' : state) :
  claude_fallback cfg w fuel objective s = Some (r, s') ->
  messages s' = messages s.
Proof.
  unfold claude_fallback. run.
  destruct (gpt4_messages (messages s)) as [converted|]; cbn.
  - destruct (gpt_4_fallback cfg w fuel objective _) as [[r' s'']|];
      [|discriminate]. now intros [= <- <-].
  - now intros [= <- <-].
Qed.

(** X8. After a failed model call, an OCR-augmented backend hands the
    session's own list to [gpt_4_fallback]: when the fallback returns, the
    session starts with the gpt-4o system prompt and holds everything
    [call_gpt_4o] appended. [call_claude_3_with_ocr] hands over a converted
    copy: whatever the fallback does, the session's list keeps the claude-3
    system prompt and ends with the user message of the failed turn. *)
Theorem history_after_a_fallback (cfg : config) (hp : helpers) (w : world) (fuel : nat)
    (objective model : string) (s : state) (e : exn) :
  messages s <> [] ->
  capture (w (attempts s)) = None ->
  reply (w (attempts s)) = Raise e ->
  (forall suffix v s',
      with_ocr cfg hp w suffix fuel objective model s = Some (Ok v, s') ->
      exists added,
        messages s'
        = system_message cfg "gpt-4o" objective
            :: tail (messages (asked cfg suffix model objective (w (attempts s)) s))
            ++ added /\
        added <> []) /\
  (forall r s',
      call_claude_3_with_ocr cfg hp w fuel objective model s = Some (r, s') ->
      messages s' = messages (claude_asked cfg model objective (w (attempts s)) s)).
Proof.
  intros Hm Hc Hr. split.
  - intros suffix v s' H. rewrite with_ocr_run in H by assumption.
    cbn zeta in H. rewrite Hr in H.
    unfold gpt_4_fallback, bind, set_first in H.
    set (s0 := asked cfg suffix model objective (w (attempts s)) s) in *.
    destruct (messages s0) as [|first tl] eqn:Hs0; [discriminate|].
    apply call_gpt_4o_records in H as (visions & answer & Hmsg & _ & _ & _ & _).
    cbn [messages] in Hmsg. exists (visions ++ [assistant_message answer]).
    split; [exact Hmsg|]. now destruct visions.
  - intros r s' H. rewrite call_claude_3_run in H by assumption.
    cbn zeta in H. rewrite Hr in H.
    now apply claude_fallback_keeps_messages in H.
Qed.

Lemma history_after_a_fallback_witness :
  exists r s',
    call_claude_3_with_ocr backend_config spec_helpers
      (world_of [fails] (answers only_done_text)) 3 "objective" "claude-3" session_start
    = Some (r, s') /\
    messages s' = messages (claude_asked backend_config "claude-3" "objective" fails
                              session_start).
Proof.
  destruct (call_claude_3_with_ocr backend_config spec_helpers
              (world_of [fails] (answers only_done_text)) 3 "objective" "claude-3"
              session_start) as [[r s']|] eqn:H; [|vm_compute in H; discriminate].
  exists r, s'. split; [reflexivity|].
  refine (proj2 (history_after_a_fallback backend_config spec_helpers
                   (world_of [fails] (answers only_done_text)) 3 "objective" "claude-3"
                   session_start ClientError _ _ _) r s' H).
  - discriminate.
  - reflexivity.
  - reflexivity.
Defined.

(** X9. On a session without any message, the OCR-augmented backends and
    [call_claude_3_with_ocr] raise IndexError out of the turn without
    asking any model (the [except] clause indexes the empty list again),
    while [call_gpt_4o_labeled] goes on with [call_gpt_4o], which accepts
    an empty history. *)
Theorem turn_on_an_empty_history (cfg : config) (hp : helpers) (w : world) (fuel : nat)
    (objective model : string) (s : state) :
  messages s = [] ->
  (forall suffix,
      with_ocr cfg hp w suffix fuel objective model s
      = Some (Raise IndexError, entered s)) /\
  call_claude_3_with_ocr cfg hp w fuel objective model s
  = Some (Raise IndexError, entered s) /\
  call_gpt_4o_labeled cfg hp w fuel objective model s
  = call_gpt_4o cfg w fuel (entered s).
Proof.
  intros Hm. destruct s as [msgs n]. cbn in Hm. subst msgs.
  split; [|split]; intros; reflexivity.
Qed.

Lemma turn_on_an_empty_history_witness :
  call_qwen_vl_with_ocr backend_config spec_helpers offline 3 "objective" "qwen-vl" no_history
  = Some (Raise IndexError, entered no_history).
Proof.
  refine (proj1 (turn_on_an_empty_history backend_config spec_helpers offline 3
                   "objective" "qwen-vl" no_history _) remember).
  reflexivity.
Defined.

End FailureProps.

(** ** The dispatcher *)

Module DispatchProps.
Import Text Py Normalizer Backend NormalizerSpec BackendSpec HistorySpec Models.
Import NormalizerProps BackendProps HistoryProps FailureProps.
Import Examples BackendData MoreSessions.

Section NetworkDown.

Context (cfg : config) (hp : helpers) (w : world) (fuel : nat) (objective : string).
Hypothesis down : network_down w.

Lemma gpt_4o_down (s : state) :
  exists s', call_gpt_4o cfg w (S fuel) s = Some (Raise UnboundLocalError, s').
Proof.
  rewrite call_gpt_4o_round. cbn zeta.
  destruct (down (attempts s)) as [-> ->]. eauto.
Qed.

Lemma fallback_down (s : state) :
  messages s <> [] ->
  exists s', gpt_4_fallback cfg w (S fuel) objective s
             = Some (Raise UnboundLocalError, s').
Proof.
  intros Hm. unfold gpt_4_fallback, bind, set_first.
  destruct (messages s); [congruence|]. apply gpt_4o_down.
Qed.

Lemma with_ocr_down (suffix model : string) (s : state) :
  messages s <> [] ->
  exists s', with_ocr cfg hp w suffix (S fuel) objective model s
             = Some (Raise UnboundLocalError, s').
Proof.
  intros Hm. destruct (down (attempts s)) as [Hc Hr].
  rewrite with_ocr_run by assumption. cbn zeta. rewrite Hr.
  apply fallback_down. unfold asked. cbn. now destruct (tail (messages s)).
Qed.

Lemma labeled_down (model : string) (s : state) :
  messages s <> [] ->
  exists s', call_gpt_4o_labeled cfg hp w (S fuel) objective model s
             = Some (Raise UnboundLocalError, s').
Proof.
  intros Hm. destruct (down (attempts s)) as [Hc Hr].
  unfold call_gpt_4o_labeled, confirm_system_prompt, append_vision. run.
  destruct (messages s) as [|first tl]; [congruence|]. rewrite Hc, Hr.
  destruct (labelled (w (attempts s))); apply gpt_4o_down.
Qed.

Lemma claude_3_down (model : string) (s : state) :
  messages s <> [] ->
  exists s', call_claude_3_with_ocr cfg hp w (S fuel) objective model s
             = Some (Raise UnboundLocalError, s').
Proof.
  intros Hm. destruct (down (attempts s)) as [Hc Hr].
  rewrite call_claude_3_run by assumption. cbn zeta. rewrite Hr.
  unfold claude_fallback, claude_asked, gpt4_messages, with_message. run.
  cbn [app]. unfold gpt_4_fallback, bind, set_first. cbn [messages attempts].
  match goal with
  | |- context [call_gpt_4o cfg w (S fuel) ?s0] =>
      destruct (gpt_4o_down s0) as [s' ->]
  end.
  eauto.
Qed.

Lemma gemini_down (s : state) :
  exists s', call_gemini_pro_vision cfg w (S fuel) s
             = Some (Raise UnboundLocalError, s').
Proof.
  destruct (down (attempts s)) as [Hc Hr].
  unfold call_gemini_pro_vision. run. rewrite Hc, Hr. apply gpt_4o_down.
Qed.

Lemma llava_down (s : state) :
  exists s', call_ollama_llava cfg w (S fuel) s = Some (Raise UnboundLocalError, s').
Proof.
  rewrite call_ollama_llava_round. cbn zeta.
  destruct (down (attempts s)) as [-> ->]. eauto.
Qed.

End NetworkDown.

(** X10. When every model call fails (the network is down) and the history
    is not empty, [get_next_action] lets UnboundLocalError escape for
    every model identifier served by [call_gpt_4o], directly or as a
    fallback: the [except] clause of [call_gpt_4o] (and of
    [call_ollama_llava]) prints [content] before it was ever assigned.
    Only [claude-3.7] returns an operation, the fixed wait. *)
Theorem get_next_action_when_the_network_is_down
    (cfg : config) (hp : helpers) (w : world) (fuel : nat)
    (model objective : string) (s : state) :
  network_down w ->
  messages s <> [] ->
  (model ∈ gpt_backed ->
   exists s', get_next_action cfg hp w (S fuel) model objective s
              = Some (Raise UnboundLocalError, s')) /\
  (model = "claude-3.7" ->
   get_next_action cfg hp w (S fuel) model objective s
   = Some (Ok (JArr [safe_operation]), entered s)).
Proof.
  intros Hdown Hm. split.
  - intros Hin. unfold gpt_backed in Hin.
    repeat (apply elem_of_cons in Hin as [-> | Hin]); [..|inversion Hin].
    + apply gpt_4o_down; assumption.
    + apply with_ocr_down; assumption.
    + apply labeled_down; assumption.
    + apply with_ocr_down; assumption.
    + apply with_ocr_down; assumption.
    + apply gemini_down; assumption.
    + apply llava_down; assumption.
    + apply claude_3_down; assumption.
  - intros ->. change (get_next_action cfg hp w (S fuel) "claude-3.7" objective s)
      with (call_claude_37 cfg w s).
    rewrite call_claude_37_run. cbn zeta.
    destruct (Hdown (attempts s)) as [-> ->]. reflexivity.
Qed.

Lemma get_next_action_when_the_network_is_down_witness :
  exists s', get_next_action backend_config spec_helpers offline 1 "gpt-4-with-ocr"
               "objective" session_start
             = Some (Raise UnboundLocalError, s').
Proof.
  refine (proj1 (get_next_action_when_the_network_is_down backend_config spec_helpers
                   offline 0 "gpt-4-with-ocr" "objective" session_start _ _) _).
  - intros n. split; reflexivity.
  - discriminate.
  - unfold gpt_backed. apply elem_of_cons. right. apply elem_of_cons. right.
    apply elem_of_cons. right. apply elem_of_cons. now left.
Defined.

(** X11. An identifier that [get_next_action] does not recognise raises
    ModelNotRecognizedException at once: no backend is entered, the
    history is untouched. *)
Theorem get_next_action_unknown_model
    (cfg : config) (hp : helpers) (w : world) (fuel : nat)
    (model objective : string) (s : state) :
  model ∉ recognised ->
  get_next_action cfg hp w fuel model objective s
  = Some (Raise ModelNotRecognizedException, s).
Proof.
  intros Hn. unfold get_next_action.
  repeat match goal with
  | |- context [String.eqb model ?lit] =>
      destruct (String.eqb_spec model lit) as [->|_];
      [exfalso; apply Hn; unfold recognised; set_solver|]
  end.
  reflexivity.
Qed.

Lemma get_next_action_unknown_model_witness :
  get_next_action backend_config spec_helpers offline 3 "gpt-5" "objective" session_start
  = Some (Raise ModelNotRecognizedException, session_start).
Proof.
  apply get_next_action_unknown_model.
  unfold recognised. intros H.
  repeat (apply elem_of_cons in H as [H | H]; [discriminate|]).
  inversion H.
Defined.

End DispatchProps.

(** ** Answers that are not JSON, and the conversion of the history *)

Module AnswerProps.
Import Text Py Normalizer Backend NormalizerSpec BackendSpec HistorySpec History.
Import NormalizerProps BackendProps HistoryProps FailureProps.
Import Examples BackendData MoreSessions RepairData.

(** X12. What a backend does with an answer that is not JSON. An
    OCR-augmented backend hands over to [gpt_4_fallback] a history that
    ends with its user message: the answer is not recorded.
    [call_gpt_4o_labeled] appends the answer before it parses it, and
    hands over to [call_gpt_4o] a history that ends with the unparseable
    assistant message. *)
Theorem answer_that_is_not_json (cfg : config) (hp : helpers) (w : world) (fuel : nat)
    (objective model : string) (s : state) (raw : string) :
  messages s <> [] ->
  capture (w (attempts s)) = None ->
  reply (w (attempts s)) = Ok raw ->
  json_loads cfg (clean_json raw) = None ->
  let a := w (attempts s) in
  (forall suffix,
      with_ocr cfg hp w suffix fuel objective model s
      = gpt_4_fallback cfg w fuel objective (asked cfg suffix model objective a s) /\
      exists text,
        last (messages (asked cfg suffix model objective a s))
        = Some (vision_message text (img_base64 a))) /\
  (forall labels, labelled a = Ok labels ->
      call_gpt_4o_labeled cfg hp w fuel objective model s
      = call_gpt_4o cfg w fuel (labeled_asked cfg model objective labels.1 raw s) /\
      last (messages (labeled_asked cfg model objective labels.1 raw s))
      = Some (assistant_message (clean_json raw))).
Proof.
  intros Hm Hc Hr Hj a. subst a. split.
  - intros suffix. split.
    + rewrite with_ocr_run by assumption. cbn zeta. now rewrite Hr, Hj.
    + unfold asked, with_message. cbn [messages]. eexists. apply last_snoc.
  - intros labels Hl. split.
    + unfold call_gpt_4o_labeled, confirm_system_prompt, append_vision, loads,
        labeled_asked, with_message. run.
      destruct (messages s) as [|first tl]; [congruence|].
      rewrite Hc, Hl, Hr. cbn [tail]. now rewrite Hj.
    + unfold labeled_asked, with_message. cbn [messages]. apply last_snoc.
Qed.

Lemma answer_that_is_not_json_witness :
  call_gpt_4o_labeled backend_config spec_helpers
    (world_of [sees "Sure!"] (answers only_done_text)) 3 "objective" "gpt-4-with-som"
    session_start
  = call_gpt_4o backend_config (world_of [sees "Sure!"] (answers only_done_text)) 3
      (labeled_asked backend_config "gpt-4-with-som" "objective" "bGFiZWxz" "Sure!"
         session_start).
Proof.
  refine (proj1 (proj2 (answer_that_is_not_json backend_config spec_helpers
                   (world_of [sees "Sure!"] (answers only_done_text)) 3 "objective"
                   "gpt-4-with-som" session_start "Sure!" _ _ _ _)
                   ("bGFiZWxz", detected) _)).
  - discriminate.
  - reflexivity.
  - reflexivity.
  - reflexivity.
  - reflexivity.
Defined.

(** X13. [call_claude_3_with_ocr] answers a first text that is not JSON
    with one corrective request. When the corrected text parses and its
    clicks resolve, the turn returns the corrected batch and records the
    corrected text (not the first answer) in the history. When the
    corrective request fails or its answer does not parse either, the turn
    is handed over to the fallback: there is no second correction. *)
Theorem claude_3_repairs_once (cfg : config) (hp : helpers) (w : world) (fuel : nat)
    (objective model : string) (s : state) (raw : string) :
  messages s <> [] ->
  capture (w (attempts s)) = None ->
  reply (w (attempts s)) = Ok raw ->
  json_loads cfg (clean_json raw) = None ->
  let a := w (attempts s) in
  let s' := claude_asked cfg model objective a s in
  (forall raw' ops out,
      repair a = Ok raw' ->
      json_loads cfg (clean_json raw') = Some (JArr ops) ->
      resolve_text_clicks hp (slice_to 3) a ops = Ok out ->
      call_claude_3_with_ocr cfg hp w fuel objective model s
      = Some (Ok (JArr out), with_message (assistant_message (clean_json raw')) s')) /\
  ((exists e, repair a = Raise e) \/
   (exists raw', repair a = Ok raw' /\ json_loads cfg (clean_json raw') = None) ->
   call_claude_3_with_ocr cfg hp w fuel objective model s
   = claude_fallback cfg w fuel objective s').
Proof.
  intros Hm Hc Hr Hj a s'. subst a s'. split.
  - intros raw' ops out Hrep Hj' Hres.
    rewrite call_claude_3_run by assumption. cbn zeta.
    rewrite Hr, Hj, Hrep, Hj'. cbn [iterate rbind]. now rewrite Hres.
  - intros H. rewrite call_claude_3_run by assumption. cbn zeta.
    rewrite Hr, Hj. destruct H as [[e ->] | (raw' & -> & ->)]; reflexivity.
Qed.

Lemma claude_3_repairs_once_witness :
  exists out,
    call_claude_3_with_ocr backend_config spec_helpers (world_of [repaired] fails)
      3 "objective" "claude-3" session_start
    = Some (Ok (JArr out),
            with_message (assistant_message (clean_json documents_text))
              (claude_asked backend_config "claude-3" "objective" repaired session_start)).
Proof.
  eexists.
  refine (proj1 (claude_3_repairs_once backend_config spec_helpers
                   (world_of [repaired] fails) 3 "objective" "claude-3" session_start
                   "Sure!" _ _ _ _)
            documents_text [JObj (click_text "Documents")] _ _ _ _).
  - discriminate.
  - reflexivity.
  - reflexivity.
  - reflexivity.
  - reflexivity.
  - reflexivity.
  - vm_compute. reflexivity.
Defined.

Lemma to_gpt4_message_converted (m m' : message) :
  to_gpt4_message m = Some m' -> converted_message m'.
Proof.
  unfold to_gpt4_message.
  destruct (String.eqb (role m) "user").
  - intros [= <-]. left. split; [reflexivity|]. eexists. split; [reflexivity|].
    destruct (content m) as [t|l]; [constructor|].
    induction l as [|b l IH]; [constructor|].
    rewrite fmap_cons. constructor; [now destruct b | exact IH].
  - destruct (String.eqb (role m) "assistant"); [|discriminate].
    intros [= <-]. now right.
Qed.

Lemma to_gpt4_message_converts (m m' : message) :
  to_gpt4_message m = Some m' -> converts m m'.
Proof.
  unfold to_gpt4_message. destruct m as [r c]. cbn [role content].
  destruct (String.eqb r "user") eqn:Hu.
  - apply String.eqb_eq in Hu as ->. intros [= <-].
    destruct c as [t|l]; [constructor|]. constructor.
    induction l as [|b l IH]; [constructor|].
    rewrite fmap_cons. constructor; [destruct b; constructor | exact IH].
  - destruct (String.eqb r "assistant") eqn:Ha; [|discriminate].
    apply String.eqb_eq in Ha as ->. intros [= <-]. constructor.
Qed.

(** X14. The conversion of the history in the [except] clause of
    [call_claude_3_with_ocr]: the first message is kept as it is; of the
    others, exactly the user and assistant messages are kept, in their
    order, each one converted: an assistant message unchanged, a user
    message block by block, with every Anthropic image block turned into
    an image_url block of the same data and every other block unchanged,
    and a user message whose content is a plain string with an empty
    content. On an empty history the conversion raises IndexError. *)
Theorem gpt4_messages_conversion (msgs : list message) :
  match msgs with
  | [] => gpt4_messages msgs = Raise IndexError
  | first :: rest =>
      exists converted,
        gpt4_messages msgs = Ok (first :: converted) /\
        Forall2 converts (filter (fun m => user_or_assistant m = true) rest) converted /\
        Forall converted_message converted /\
        length converted = length (filter (fun m => user_or_assistant m = true) rest) /\
        forall m t, m ∈ rest -> role m = "user" -> content m = CText t ->
                    {| role := "user"; content := CBlocks [] |} ∈ converted
  end.
Proof.
  destruct msgs as [|first rest]; [reflexivity|].
  exists (omap to_gpt4_message rest). split; [reflexivity|].
  assert (Forall2 converts (filter (fun m => user_or_assistant m = true) rest)
            (omap to_gpt4_message rest)) as Hall.
  { induction rest as [|m rest IH]; [constructor|].
    cbn [omap list_omap]. rewrite filter_cons.
    destruct (to_gpt4_message m) as [m'|] eqn:Hm.
    - rewrite decide_True.
      + constructor; [now apply to_gpt4_message_converts | exact IH].
      + unfold to_gpt4_message in Hm. unfold user_or_assistant.
        destruct (String.eqb (role m) "user"); [reflexivity|].
        destruct (String.eqb (role m) "assistant"); [reflexivity | discriminate].
    - rewrite decide_False; [exact IH|].
      unfold to_gpt4_message in Hm. unfold user_or_assistant.
      destruct (String.eqb (role m) "user"); [discriminate|].
      destruct (String.eqb (role m) "assistant"); [discriminate|]. discriminate. }
  split; [exact Hall|]. split; [|split].
  - apply Forall_forall. intros m' Hin.
    apply list_elem_of_omap in Hin as (m & _ & Hm).
    eapply to_gpt4_message_converted; eauto.
  - symmetry. eapply Forall2_length; eauto.
  - intros m t Hin Hrole Hcontent. apply list_elem_of_omap. exists m.
    split; [exact Hin|]. unfold to_gpt4_message. rewrite Hrole, Hcontent. reflexivity.
Qed.

End AnswerProps.

(** ** [get_last_assistant_message] *)

Module LastMessageProps.
Import History RepairData.

Lemma scan_back_spec (msgs : list message) (upto : nat) :
  match scan_back msgs upto with
  | Some m =>
      role m = "assistant" /\
      exists i, 0 < i < upto /\ msgs !! i = Some m /\
                forall j m', i < j < upto -> msgs !! j = Some m' ->
                             role m' <> "assistant"
  | None =>
      upto <= length msgs ->
      forall i m, 0 < i < upto -> msgs !! i = Some m -> role m <> "assistant"
  end.
Proof.
  induction upto as [|index IH]; cbn [scan_back].
  - intros _ i m Hi. lia.
  - destruct (msgs !! index) as [m|] eqn:Hm.
    + destruct (String.eqb (role m) "assistant") eqn:Hrole.
      * apply String.eqb_eq in Hrole.
        destruct (Nat.eqb_spec index 0) as [->|Hnz].
        -- intros _ i m' Hi. lia.
        -- split; [exact Hrole|]. exists index. split; [lia|]. split; [exact Hm|].
           intros j m' Hj. lia.
      * apply String.eqb_neq in Hrole.
        destruct (scan_back msgs index) as [found|].
        -- destruct IH as (Hfound & i & Hi & Hlook & Hlater).
           split; [exact Hfound|]. exists i. split; [lia|]. split; [exact Hlook|].
           intros j m' Hj Hlook'.
           destruct (decide (j = index)) as [->|Hne].
           ++ congruence.
           ++ apply (Hlater j m'); [lia | exact Hlook'].
        -- intros Hlen i m' Hi Hlook.
           destruct (decide (i = index)) as [->|Hne].
           ++ congruence.
           ++ apply (IH ltac:(lia) i m'); [lia | exact Hlook].
    + intros Hlen. apply lookup_ge_None in Hm. lia.
Qed.

(** X15. [get_last_assistant_message] returns the assistant message of
    the greatest index, provided that index is not 0; it returns None
    exactly when no message after the first one comes from the assistant
    (an assistant message at index 0 is never returned). *)
Theorem get_last_assistant_message_spec (msgs : list message) :
  match get_last_assistant_message msgs with
  | Some m =>
      role m = "assistant" /\
      exists i, 0 < i /\ msgs !! i = Some m /\
                forall j m', i < j -> msgs !! j = Some m' -> role m' <> "assistant"
  | None =>
      forall i m, 0 < i -> msgs !! i = Some m -> role m <> "assistant"
  end.
Proof.
  unfold get_last_assistant_message.
  pose proof (scan_back_spec msgs (length msgs)) as H.
  destruct (scan_back msgs (length msgs)) as [found|].
  - destruct H as (Hrole & i & Hi & Hlook & Hlater).
    split; [exact Hrole|]. exists i. split; [lia|]. split; [exact Hlook|].
    intros j m' Hj Hlook'. apply (Hlater j m'); [|exact Hlook'].
    apply lookup_lt_Some in Hlook'. lia.
  - intros i m Hi Hlook. apply (H ltac:(lia) i m); [|exact Hlook].
    apply lookup_lt_Some in Hlook. lia.
Qed.

End LastMessageProps.

(** ** No backend removes or rewrites a message *)

Module GrowthProps.
Import Text Py Normalizer Backend BackendSpec GrowthSpec.
Import Examples BackendData.

Lemma extends_refl (s : state) : extends s s.
Proof.
  split; [exists []; now rewrite app_nil_r|]. split; lia.
Qed.

Lemma extends_trans (s1 s2 s3 : state) : extends s1 s2 -> extends s2 s3 -> extends s1 s3.
Proof.
  intros ([a1 H1] & Hl1 & Ha1) ([a2 H2] & Hl2 & Ha2).
  split; [exists (a1 ++ a2); now rewrite H2, H1, app_assoc|]. split; lia.
Qed.

Lemma grows_ret {A} (a : A) : grows (ret a).
Proof. intros s r s' [= <- <-]. apply extends_refl. Qed.

Lemma grows_raise {A} (e : exn) : grows (@raise A e).
Proof. intros s r s' [= <- <-]. apply extends_refl. Qed.

Lemma grows_lift {A} (x : result A) : grows (lift x).
Proof. destruct x; [apply grows_ret | apply grows_raise]. Qed.

Lemma grows_bind {A B} (m : M A) (k : A -> M B) :
  grows m -> (forall a, grows (k a)) -> grows (bind m k).
Proof.
  intros Hm Hk s r s' H. unfold bind in H.
  destruct (m s) as [[[a|e] s1]|] eqn:E; [| |discriminate].
  - eapply extends_trans; [eapply Hm; eauto | eapply Hk; eauto].
  - injection H as <- <-. eapply Hm; eauto.
Qed.

Lemma grows_catch {A} (m : M A) (h : exn -> M A) :
  grows m -> (forall e, grows (h e)) -> grows (catch m h).
Proof.
  intros Hm Hh s r s' H. unfold catch in H.
  destruct (m s) as [[[a|e] s1]|] eqn:E; [| |discriminate].
  - injection H as <- <-. eapply Hm; eauto.
  - eapply extends_trans; [eapply Hm; eauto | eapply Hh; eauto].
Qed.

Lemma grows_append_any (f : state -> message) : grows (fun s => append (f s) s).
Proof.
  intros s r s' [= <- <-]. unfold extends. cbn [messages attempts]. split; [|split].
  - destruct (messages s); [now exists [] | now exists [f s]].
  - rewrite length_app. lia.
  - lia.
Qed.

Lemma grows_append (m : message) : grows (append m).
Proof. apply (grows_append_any (fun _ => m)). Qed.

Lemma grows_set_first (m : message) : grows (set_first m).
Proof.
  intros s r s' H. unfold set_first in H.
  destruct (messages s) as [|first rest] eqn:E; injection H as <- <-.
  - apply extends_refl.
  - unfold extends. cbn [messages attempts]. rewrite E.
    split; [exists []; now rewrite app_nil_r|]. split; cbn; lia.
Qed.

Lemma grows_get_messages : grows get_messages.
Proof. intros s r s' [= <- <-]. apply extends_refl. Qed.

Lemma grows_enter (w : world) : grows (enter w).
Proof.
  intros s r s' [= <- <-]. unfold extends. cbn [messages attempts].
  split; [exists []; now rewrite app_nil_r|]. split; lia.
Qed.

Lemma grows_captured (a : attempt) : grows (captured a).
Proof. unfold captured. destruct (capture a); [apply grows_raise | apply grows_ret]. Qed.

Lemma grows_on_messages {A} (other : list message) (m : M A) :
  grows m -> grows (on_messages other m).
Proof.
  intros Hm s r s' H. unfold on_messages in H.
  destruct (m _) as [[r1 s1]|] eqn:E; [|discriminate]. injection H as <- <-.
  apply Hm in E as (_ & _ & Ha). unfold extends. cbn [messages attempts] in *.
  split; [exists []; now rewrite app_nil_r|]. split; lia.
Qed.

Ltac grow :=
  repeat first
    [ assumption
    | apply grows_ret | apply grows_raise | apply grows_lift | apply grows_append
    | apply grows_set_first | apply grows_get_messages | apply grows_enter
    | apply grows_captured | apply grows_append_any
    | apply grows_on_messages
    | apply grows_bind; [|intros ?]
    | apply grows_catch; [|intros ?]
    | match goal with
      | |- grows (match ?x with _ => _ end) => destruct x
      end ].

Section Growth.

Context (cfg : config) (hp : helpers) (w : world).

Lemma grows_call_gpt_4o (fuel : nat) : grows (call_gpt_4o cfg w fuel).
Proof.
  induction fuel as [|fuel IH]; [apply grows_raise|].
  cbn [call_gpt_4o]. unfold append_vision. grow.
Qed.

Lemma grows_gpt_4_fallback (fuel : nat) (objective : string) :
  grows (gpt_4_fallback cfg w fuel objective).
Proof. unfold gpt_4_fallback. pose proof (grows_call_gpt_4o fuel). grow. Qed.

Lemma grows_with_ocr (suffix : string) (fuel : nat) (objective model : string) :
  grows (with_ocr cfg hp w suffix fuel objective model).
Proof.
  unfold with_ocr, confirm_system_prompt, append_vision.
  pose proof (grows_gpt_4_fallback fuel objective). grow.
Qed.

Lemma grows_call_gpt_4o_labeled (fuel : nat) (objective model : string) :
  grows (call_gpt_4o_labeled cfg hp w fuel objective model).
Proof.
  unfold call_gpt_4o_labeled, confirm_system_prompt, append_vision, label_first.
  pose proof (grows_call_gpt_4o fuel). grow.
Qed.

Lemma grows_call_ollama_llava (fuel : nat) : grows (call_ollama_llava cfg w fuel).
Proof.
  induction fuel as [|fuel IH]; [apply grows_raise|].
  cbn [call_ollama_llava]. grow.
Qed.

Lemma grows_call_gemini_pro_vision (fuel : nat) :
  grows (call_gemini_pro_vision cfg w fuel).
Proof. unfold call_gemini_pro_vision. pose proof (grows_call_gpt_4o fuel). grow. Qed.

Lemma grows_call_claude_3_with_ocr (fuel : nat) (objective model : string) :
  grows (call_claude_3_with_ocr cfg hp w fuel objective model).
Proof.
  unfold call_claude_3_with_ocr, confirm_system_prompt.
  pose proof (grows_gpt_4_fallback fuel objective). grow.
Qed.

Lemma grows_call_claude_37 : grows (call_claude_37 cfg w).
Proof. unfold call_claude_37. grow. Qed.

Lemma grows_get_next_action (fuel : nat) (model objective : string) :
  grows (get_next_action cfg hp w fuel model objective).
Proof.
  unfold get_next_action, call_gpt_4o_with_ocr, call_o1_with_ocr, call_qwen_vl_with_ocr.
  repeat match goal with
         | |- grows (if ?b then _ else _) => destruct b
         end;
    first [ apply grows_call_gpt_4o | apply grows_call_claude_37 | apply grows_with_ocr
          | apply grows_call_gpt_4o_labeled | apply grows_call_gemini_pro_vision
          | apply grows_call_ollama_llava | apply grows_call_claude_3_with_ocr
          | apply grows_ret | apply grows_raise ].
Qed.

End Growth.

(** X16. No backend removes or rewrites a message of the history, the
    first one apart: whatever [get_next_action] returns or raises, for
    whatever model, the messages after the first one are still there, in
    the same order, new messages have only been added at the end, and the
    history has not become shorter. *)
Theorem history_is_append_only (cfg : config) (hp : helpers) (w : world) (fuel : nat)
    (model objective : string) (s s' : state) (r : result json) :
  get_next_action cfg hp w fuel model objective s = Some (r, s') ->
  (exists added, tail (messages s') = tail (messages s) ++ added) /\
  length (messages s) <= length (messages s') /\
  attempts s <= attempts s'.
Proof. apply grows_get_next_action. Qed.

Lemma history_is_append_only_witness :
  exists added,
    tail (messages (with_message (assistant_message documents_text)
                      (asked backend_config EmptyString "gpt-4-with-ocr"
                         "objective" (sees documents_text) session_start)))
    = tail (messages session_start) ++ added.
Proof.
  refine (proj1 (history_is_append_only backend_config spec_helpers
                   (world_of [] (sees documents_text)) 3 "gpt-4-with-ocr" "objective"
                   session_start _ (Ok _) _)).
  vm_compute. reflexivity.
Defined.

End GrowthProps.

(** ** A turn of [call_gemini_pro_vision] *)

Module GeminiProps.
Import Text Py Normalizer Backend BackendSpec HistorySpec.
Import BackendProps HistoryProps Examples BackendData.

(** X17. A turn of [call_gemini_pro_vision] that returns a value either
    got it from Gemini, by parsing the answer without its first
    character, and then left the history as it was (neither the request
    nor the answer is recorded); or got it from [call_gpt_4o], to which
    every failure hands over, and then the history has grown by the user
    messages and the assistant message of [call_gpt_4o] only. *)
Theorem gemini_turn (cfg : config) (w : world) (fuel : nat) (s s' : state) (v : json) :
  call_gemini_pro_vision cfg w fuel s = Some (Ok v, s') ->
  (messages s' = messages s /\ attempts s' = S (attempts s) /\
   exists raw, reply (w (attempts s)) = Ok raw /\
               json_loads cfg (drop_chars 1 raw) = Some v) \/
  (exists visions answer,
      messages s' = messages s ++ visions ++ [assistant_message answer] /\
      Forall from_user visions /\
      json_loads cfg answer = Some v).
Proof.
  unfold call_gemini_pro_vision, loads. run.
  assert (forall s0, messages s0 = messages s ->
            call_gpt_4o cfg w fuel s0 = Some (Ok v, s') ->
            exists visions answer,
              messages s' = messages s ++ visions ++ [assistant_message answer] /\
              Forall from_user visions /\ json_loads cfg answer = Some v) as Hgpt.
  { intros s0 Hs0 H.
    apply call_gpt_4o_records in H as (visions & answer & H1 & H2 & _ & _ & H3).
    exists visions, answer. now rewrite <- Hs0. }
  destruct (capture (w (attempts s))).
  { intros H. right. exact (Hgpt (entered s) eq_refl H). }
  destruct (reply (w (attempts s))) as [raw|e] eqn:Hr.
  2: { intros H. right. exact (Hgpt (entered s) eq_refl H). }
  cbn [lift]. destruct (json_loads cfg (drop_chars 1 raw)) as [parsed|] eqn:Hj.
  - intros [= <- <-]. left. cbn [messages attempts]. eauto.
  - intros H. right. exact (Hgpt (entered s) eq_refl H).
Qed.

Lemma gemini_turn_witness :
  call_gemini_pro_vision backend_config
    (world_of [] (answers (String " " only_done_text))) 3 session_start
  = Some (Ok (JArr [done_op]), entered session_start) /\
  json_loads backend_config (drop_chars 1 (String " " only_done_text))
  = Some (JArr [done_op]).
Proof.
  split; [vm_compute; reflexivity|].
  destruct (gemini_turn backend_config
              (world_of [] (answers (String " " only_done_text))) 3
              session_start (entered session_start) (JArr [done_op]))
    as [(_ & _ & raw & Hr & Hj) | (visions & answer & Hm & _)].
  - vm_compute. reflexivity.
  - injection Hr as <-. exact Hj.
  - exfalso. apply (f_equal length) in Hm. rewrite !length_app in Hm.
    cbn in Hm. lia.
Defined.

End GeminiProps.


(** ** The Text Target Extractor never invents a target *)

Module ExtractMore.
Import Text Re Extract RegexSpec QuotedFacts RegexFacts.

Lemma piece_in (n : nat) (s g : string) : piece n s g -> str_in g s = true.
Proof. intros (_ & pre & post & ->). apply str_in_intro. Qed.

Lemma piece_not_empty (n : nat) (s g : string) :
  piece (S n) s g -> g <> EmptyString /\ s <> EmptyString.
Proof.
  intros (Hl & pre & post & ->). split.
  - intros ->. cbn in Hl. lia.
  - intros H. apply (f_equal String.length) in H.
    rewrite !length_append in H. cbn [String.length] in H. lia.
Qed.

Lemma piece_of_piece (n : nat) (s t g : string) :
  (exists pre post, s = pre +:+ t +:+ post) -> piece n t g -> piece n s g.
Proof.
  intros (pre & post & ->) (Hl & pre' & post' & ->). split; [exact Hl|].
  exists (pre +:+ pre'), (post' +:+ post). now rewrite !append_assoc.
Qed.

Lemma find_piece (n : nat) (s : string) (f : string -> bool) (l : list string) (m : string) :
  Forall (piece n s) l -> List.find f l = Some m -> piece n s m.
Proof.
  intros Hall Hf. apply find_some in Hf as [Hin _].
  rewrite Forall_forall in Hall. apply Hall. now apply list_elem_of_In.
Qed.

Lemma after_first_inv (sep s tail : string) :
  after_first sep s = Some tail -> exists pre, s = pre +:+ sep +:+ tail.
Proof.
  induction s as [|x s IH].
  - cbn [after_first]. destruct (startswith sep EmptyString) eqn:E; [|discriminate].
    intros [= <-]. apply startswith_inv in E as [post E].
    destruct sep; [|discriminate]. now exists EmptyString.
  - cbn [after_first]. destruct (startswith sep (String x s)) eqn:E.
    + intros [= <-]. apply startswith_inv in E as [post E]. exists EmptyString.
      rewrite append_empty_l, E. f_equal.
      clear. induction sep as [|y sep IH]; [reflexivity|].
      rewrite append_cons. cbn [String.length drop_chars]. exact IH.
    + intros H. destruct (IH H) as [pre ->]. now exists (String x pre).
Qed.

Lemma before_first_prefix (c : ascii) (s : string) :
  exists post, s = before_first c s +:+ post.
Proof.
  induction s as [|x s [post IH]]; [now exists EmptyString|].
  cbn [before_first]. destruct (ascii_dec x c).
  - now exists (String x s).
  - exists post. rewrite append_cons. now f_equal.
Qed.

Lemma lstrip_suffix (s : string) : exists ws, s = ws +:+ lstrip s.
Proof.
  induction s as [|x s [ws IH]]; [now exists EmptyString|].
  cbn [lstrip]. destruct (is_space x).
  - exists (String x ws). rewrite append_cons. now f_equal.
  - now exists EmptyString.
Qed.

Lemma rev_onto_append (a b acc : string) :
  rev_onto (a +:+ b) acc = rev_onto b (rev_onto a acc).
Proof.
  revert acc. induction a as [|x a IH]; intros acc; [reflexivity|].
  rewrite append_cons. cbn [rev_onto]. apply IH.
Qed.

Lemma rev_onto_acc (s acc : string) : rev_onto s acc = rev s +:+ acc.
Proof.
  unfold rev. revert acc. induction s as [|x s IH]; intros acc; [reflexivity|].
  cbn [rev_onto]. rewrite IH, (IH (String x EmptyString)), append_assoc.
  reflexivity.
Qed.

Lemma rev_append (a b : string) : rev (a +:+ b) = rev b +:+ rev a.
Proof. unfold rev at 1. rewrite rev_onto_append, rev_onto_acc. reflexivity. Qed.

Lemma rstrip_prefix (s : string) : exists ws, s = rstrip s +:+ ws.
Proof.
  unfold rstrip. destruct (lstrip_suffix (rev s)) as [ws H].
  exists (rev ws). rewrite <- rev_append, <- H. symmetry. apply rev_involutive.
Qed.

Lemma strip_inside (s : string) : exists pre post, s = pre +:+ strip s +:+ post.
Proof.
  unfold strip. destruct (lstrip_suffix s) as [pre H].
  destruct (rstrip_prefix (lstrip s)) as [post H'].
  exists pre, post. now rewrite <- H', <- H.
Qed.

Lemma priority3_piece (phrases : list string) (text target : string) :
  priority3 phrases text = Some target -> piece 1 (lower text) target.
Proof.
  induction phrases as [|phrase rest IH]; [discriminate|]. cbn [priority3].
  destruct (after_first phrase (lower text)) as [tail|] eqn:Ha; [|exact IH].
  destruct (_ && _) eqn:Hn; [|exact IH].
  intros [= <-]. apply andb_prop in Hn as [Hn _]. apply Nat.leb_le in Hn.
  split.
  - destruct (strip _); [cbn in Hn; lia | cbn; lia].
  - apply after_first_inv in Ha as [pre Ha].
    destruct (before_first_prefix "." tail) as [post1 H1].
    destruct (before_first_prefix "," (before_first "." tail)) as [post2 H2].
    destruct (strip_inside (before_first "," (before_first "." tail)))
      as (pre3 & post3 & H3).
    exists (pre +:+ phrase +:+ pre3), (post3 +:+ post2 +:+ post1).
    rewrite Ha. rewrite H1 at 1. rewrite H2 at 1. rewrite H3 at 1.
    now rewrite !append_assoc.
Qed.

(** X18. [extract_target_from_text] never invents a target: what it
    returns is a substring of the text or of the lower-cased text, and it
    is the empty string only when the text is empty. *)
Theorem extract_target_is_a_piece_of_the_text (text : string) :
  let target := extract_target_from_text text in
  (str_in target text = true \/ str_in target (lower text) = true) /\
  (target = EmptyString <-> text = EmptyString).
Proof.
  cbn zeta.
  assert (forall n g, piece (S n) text g ->
            (str_in g text = true \/ str_in g (lower text) = true) /\
            (g = EmptyString <-> text = EmptyString)) as Hp.
  { intros n g Hg. split; [left; eapply piece_in; eauto|].
    destruct (piece_not_empty _ _ _ Hg). split; intros; congruence. }
  unfold extract_target_from_text.
  destruct (findall quoted_pattern text) as [|q others] eqn:Hq.
  2: { apply (Hp 0). pose proof (findall_quoted text) as H. rewrite Hq in H.
       now inversion H. }
  destruct (priority2 text) as [m|] eqn:H2.
  { apply (Hp 2). eapply find_piece; [apply findall_file | exact H2]. }
  destruct (priority3 click_phrases text) as [target|] eqn:H3.
  { apply priority3_piece in H3. split; [right; eapply piece_in; eauto|].
    destruct (piece_not_empty _ _ _ H3) as [Ht Hl]. split; [congruence|].
    intros ->. now destruct Hl. }
  destruct (priority4 text) as [m|] eqn:H4.
  { apply (Hp 1). eapply find_piece; [apply findall_cap_word | exact H4]. }
  split; [|reflexivity]. left.
  rewrite <- (append_empty_r text) at 2. apply (str_in_intro text EmptyString).
Qed.

End ExtractMore.

(** ** An answer in prose *)

Module ProseFacts.
Import Text Re Py Normalizer RegexSpec ProseSpec.
Import QuotedFacts RegexFacts ExtractMore.

Lemma free_of_append (p : ascii -> bool) (a b : string) :
  free_of p (a +:+ b) = free_of p a && free_of p b.
Proof.
  induction a as [|x a IH]; [reflexivity|].
  rewrite append_cons. cbn [free_of]. rewrite IH. now rewrite andb_assoc.
Qed.

(** A pattern fails on a subject on every piece of which its continuation
    fails. *)
Lemma rmatch_fails {R : Type} (p : ascii -> bool) (r : re) :
  forall (k : cont R),
    (forall prev s c, free_of p s = true -> k prev s c = None) ->
    forall prev s c, free_of p s = true -> rmatch r prev s c k = None.
Proof.
  induction r as [q | r1 IH1 r2 IH2 | r1 IH1 r2 IH2 | r1 IH1 | | r1 IH1];
    intros k Hk prev s c Hs.
  - destruct s as [|a s']; [apply rmatch_Cls_nil|]. rewrite rmatch_Cls.
    cbn [free_of] in Hs. apply andb_prop in Hs as [_ Hs].
    destruct (q a); [now apply Hk | reflexivity].
  - rewrite rmatch_Cat. apply IH1; [|exact Hs].
    intros prev' s' c' Hs'. now apply IH2.
  - cbn [rmatch]. rewrite IH1 by assumption. now apply IH2.
  - rewrite rmatch_Star.
    remember (String.length s) as n eqn:En. clear En.
    revert prev s c Hs. induction n as [|n IHn]; intros prev s c Hs; cbn [star_loop].
    + now apply Hk.
    + rewrite IH1; [now apply Hk | exact IHn | exact Hs].
  - cbn [rmatch]. destruct (xorb _ _); [now apply Hk | reflexivity].
  - rewrite rmatch_Grp. apply IH1; [|exact Hs].
    intros prev' s' c' Hs'. now apply Hk.
Qed.

(** A pattern that needs a character of a class fails on a subject
    without any. *)
Lemma rmatch_needs {R : Type} (p : ascii -> bool) (r : re) :
  needs p r ->
  forall (k : cont R) prev s c, free_of p s = true -> rmatch r prev s c k = None.
Proof.
  induction r as [q | r1 IH1 r2 IH2 | r1 IH1 r2 IH2 | r1 IH1 | | r1 IH1];
    cbn [needs]; intros Hn k prev s c Hs.
  - destruct s as [|a s']; [apply rmatch_Cls_nil|]. rewrite rmatch_Cls.
    cbn [free_of] in Hs. apply andb_prop in Hs as [Ha _].
    destruct (q a) eqn:Hq; [|reflexivity].
    rewrite (Hn a Hq) in Ha. discriminate.
  - rewrite rmatch_Cat. destruct Hn as [Hn|Hn].
    + now apply IH1.
    + apply (rmatch_fails p); [|exact Hs]. intros prev' s' c' Hs'. now apply IH2.
  - destruct Hn as [Hn1 Hn2]. cbn [rmatch]. rewrite IH1 by assumption. now apply IH2.
  - destruct Hn.
  - destruct Hn.
  - rewrite rmatch_Grp. now apply IH1.
Qed.

Lemma search_needs (p : ascii -> bool) (r : re) (s : string) :
  needs p r -> free_of p s = true -> search r s = None.
Proof.
  intros Hn Hs. unfold search.
  enough (forall prev, search_from r prev s = None) as -> by reflexivity.
  induction s as [|x s IH]; intros prev; cbn [search_from]; unfold match_here;
    rewrite (rmatch_needs p r Hn) by exact Hs.
  - reflexivity.
  - cbn [free_of] in Hs. apply andb_prop in Hs as [_ Hs]. now apply IH.
Qed.

Lemma json_block_needs_bracket : needs bracket json_block.
Proof.
  unfold json_block, bracket. cbn [needs].
  split; left; intros a Ha; rewrite Ha; [reflexivity | apply orb_true_r].
Qed.

Lemma strip_free_of (p : ascii -> bool) (s : string) :
  free_of p s = true -> free_of p (strip s) = true.
Proof.
  destruct (strip_inside s) as (pre & post & H). intros Hs. rewrite H in Hs.
  rewrite !free_of_append in Hs.
  apply andb_prop in Hs as [_ Hs]. now apply andb_prop in Hs as [Hs _].
Qed.

Lemma json_text_of_prose (raw : string) :
  free_of bracket raw = true ->
  json_text raw = if mentions_done raw then done_text else wait_text.
Proof.
  intros Hs. unfold json_text, mentions_done.
  pose proof (strip_free_of bracket raw Hs) as Hstrip.
  destruct (strip raw) as [|a t].
  - cbn [startswith orb].
    now rewrite (search_needs bracket json_block raw json_block_needs_bracket Hs).
  - cbn [free_of] in Hstrip. apply andb_prop in Hstrip as [Ha _].
    unfold bracket, is_char in Ha. apply negb_true_iff, orb_false_elim in Ha as [H1 H2].
    apply bool_decide_eq_false in H1, H2. cbn [startswith].
    destruct (ascii_dec "[" a) as [<-|_]; [congruence|].
    destruct (ascii_dec "{" a) as [<-|_]; [congruence|]. cbn [orb].
    now rewrite (search_needs bracket json_block raw json_block_needs_bracket Hs).
Qed.

End ProseFacts.

Module ProseProps.
Import Text Py Normalizer Backend BackendSpec RegexSpec ProseSpec.
Import ProseFacts NormalizerProps BackendProps Examples.

(** X19. An answer of the model without any opening bracket is prose for
    [call_claude_37]: the turn returns the single operation [done], with
    thought [Task complete], when the answer contains the letters of
    [done] or [complete] anywhere, in any case, and the single operation
    [wait] with thought [Continuing task] otherwise; the raw answer is
    recorded in the history. *)
Theorem claude_37_answer_in_prose (cfg : config) (w : world) (s : state) (raw : string) :
  reads_fixed_texts cfg ->
  capture (w (attempts s)) = None ->
  reply (w (attempts s)) = Ok raw ->
  free_of bracket raw = true ->
  call_claude_37 cfg w s
  = Some (Ok (JArr [if mentions_done raw then done_task else wait_task]),
          with_message (assistant_message raw) (entered s)).
Proof.
  intros [Hdone Hwait] Hc Hr Hs. rewrite call_claude_37_run. cbn zeta.
  rewrite Hc, Hr. unfold parse. rewrite (json_text_of_prose raw Hs).
  destruct (mentions_done raw).
  - rewrite Hdone. reflexivity.
  - rewrite Hwait. reflexivity.
Qed.

Lemma claude_37_answer_in_prose_witness :
  call_claude_37 prose_config (world_of [] (answers "I have not done it yet.")) session_start
  = Some (Ok (JArr [done_task]),
          with_message (assistant_message "I have not done it yet.") (entered session_start)).
Proof.
  refine (claude_37_answer_in_prose prose_config
            (world_of [] (answers "I have not done it yet.")) session_start
            "I have not done it yet." _ _ _ _).
  - split; reflexivity.
  - reflexivity.
  - reflexivity.
  - reflexivity.
Defined.

End ProseProps.

(** ** [clean_json] removes the fence *)

Module FenceProps.
Import Text Spec Normalizer FenceSpec RegexFacts ExtractMore.

Lemma lstrip_blank (ws s : string) : blank ws = true -> lstrip (ws +:+ s) = lstrip s.
Proof.
  unfold blank. induction ws as [|x ws IH]; [reflexivity|].
  cbn [all_chars]. intros H. apply andb_prop in H as [Hx H].
  rewrite append_cons. cbn [lstrip]. rewrite Hx. now apply IH.
Qed.

Lemma lstrip_clean (s : string) :
  s <> EmptyString -> starts_clean s = true -> lstrip s = s.
Proof.
  destruct s as [|c s]; [congruence|]. cbn [starts_clean lstrip]. intros _ H.
  now destruct (is_space c).
Qed.

Lemma all_chars_append (p : ascii -> bool) (a b : string) :
  all_chars p (a +:+ b) = all_chars p a && all_chars p b.
Proof.
  induction a as [|x a IH]; [reflexivity|].
  rewrite append_cons. cbn [all_chars]. rewrite IH. now rewrite andb_assoc.
Qed.

Lemma rev_cons (c : ascii) (s : string) : rev (String c s) = rev s +:+ String c EmptyString.
Proof. unfold rev at 1. cbn [rev_onto]. apply rev_onto_acc. Qed.

Lemma blank_rev (ws : string) : blank ws = true -> blank (rev ws) = true.
Proof.
  unfold blank. induction ws as [|x ws IH]; [reflexivity|].
  cbn [all_chars]. intros H. apply andb_prop in H as [Hx H].
  rewrite rev_cons, all_chars_append, IH by exact H. cbn [all_chars].
  now rewrite Hx.
Qed.

Lemma rstrip_blank (s ws : string) : blank ws = true -> rstrip (s +:+ ws) = rstrip s.
Proof.
  intros H. unfold rstrip. rewrite rev_append, lstrip_blank; [reflexivity|].
  now apply blank_rev.
Qed.

Lemma rstrip_clean (s : string) :
  s <> EmptyString -> starts_clean (rev s) = true -> rstrip s = s.
Proof.
  intros Hs H. unfold rstrip. rewrite lstrip_clean; [apply rev_involutive | | exact H].
  intros E. apply Hs. rewrite <- (rev_involutive s), E. reflexivity.
Qed.

Lemma strip_blank (ws : string) : blank ws = true -> strip ws = EmptyString.
Proof.
  intros H. unfold strip. rewrite <- (append_empty_r ws), lstrip_blank by exact H.
  reflexivity.
Qed.

(** [strip] removes the blanks around a trimmed text. *)
Lemma strip_around (ws1 s ws2 : string) :
  blank ws1 = true -> blank ws2 = true -> trimmed s = true ->
  strip (ws1 +:+ s +:+ ws2) = s.
Proof.
  intros H1 H2 Ht. unfold trimmed in Ht. apply andb_prop in Ht as [Hl Hr].
  destruct (decide (s = EmptyString)) as [->|Hne].
  - rewrite append_empty_l. apply strip_blank.
    unfold blank. rewrite all_chars_append. unfold blank in H1, H2. now rewrite H1, H2.
  - unfold strip. rewrite lstrip_blank by exact H1.
    rewrite lstrip_clean.
    + rewrite rstrip_blank by exact H2. now apply rstrip_clean.
    + destruct s; [congruence | now rewrite append_cons].
    + destruct s; [congruence | now rewrite append_cons].
Qed.

Lemma starts_clean_append (a b : string) :
  a <> EmptyString -> starts_clean (a +:+ b) = starts_clean a.
Proof. destruct a; [congruence | reflexivity]. Qed.

Lemma trimmed_fence_end (s ws : string) :
  starts_clean s = true -> blank ws = true ->
  trimmed (s +:+ ws +:+ fence) = true \/ s = EmptyString.
Proof.
  intros Hs Hw. destruct (decide (s = EmptyString)) as [->|Hne]; [now right|left].
  unfold trimmed. rewrite starts_clean_append by exact Hne. rewrite Hs.
  rewrite <- append_assoc, rev_append. reflexivity.
Qed.

Lemma endswith_append (p s : string) : endswith p (s +:+ p) = true.
Proof. unfold endswith. rewrite rev_append. apply startswith_append. Qed.

Lemma take_chars_append (a b : string) : take_chars (String.length a) (a +:+ b) = a.
Proof.
  induction a as [|x a IH]; [now destruct b|].
  rewrite append_cons. cbn [String.length take_chars]. now rewrite IH.
Qed.

Lemma without_fence (s : string) :
  take_chars (String.length (s +:+ fence) - 3) (s +:+ fence) = s.
Proof.
  rewrite length_append. cbn [fence String.length].
  replace (String.length s + 3 - 3) with (String.length s) by lia.
  apply take_chars_append.
Qed.

Lemma startswith_longer (p q s : string) :
  startswith p s = false -> startswith (p +:+ q) s = false.
Proof.
  revert s. induction p as [|x p IH]; intros s H; [discriminate|].
  rewrite append_cons. destruct s as [|y s]; [reflexivity|].
  cbn [startswith] in *. destruct (ascii_dec x y); [now apply IH | reflexivity].
Qed.

(** What [clean_json] does to a text without fences. *)
Lemma clean_json_unfenced (body : string) :
  unfenced body = true -> clean_json body = join newline (strip <$> splitlines body).
Proof.
  unfold unfenced, fence. intros H. apply andb_prop in H as [Hs He].
  apply negb_true_iff in Hs, He. unfold clean_json.
  change "```json" with ("```" +:+ "json").
  rewrite (startswith_longer "```" "json" body Hs), Hs. cbn zeta. now rewrite He.
Qed.

Lemma strip_left (ws s : string) :
  blank ws = true -> trimmed s = true -> strip (ws +:+ s) = s.
Proof.
  intros Hw Ht. rewrite <- (append_empty_r s) at 1.
  now apply strip_around.
Qed.

Lemma strip_right (s ws : string) :
  blank ws = true -> trimmed s = true -> strip (s +:+ ws) = s.
Proof.
  intros Hw Ht. rewrite <- (append_empty_l (s +:+ ws)).
  now apply strip_around.
Qed.

Lemma strip_trimmed (s : string) : trimmed s = true -> strip s = s.
Proof.
  intros Ht. rewrite <- (append_empty_r s) at 1. now apply strip_right.
Qed.

(** The second step of [clean_json], on what the first step leaves. *)
Lemma closing_fence (body ws2 : string) :
  blank ws2 = true -> trimmed body = true ->
  (let content := strip (body +:+ ws2 +:+ fence) in
   if endswith fence content
   then strip (take_chars (String.length content - 3) content)
   else content) = body.
Proof.
  intros H2 Ht. cbn zeta.
  destruct (decide (body = EmptyString)) as [->|Hne].
  - rewrite append_empty_l, (strip_left ws2 fence H2) by reflexivity. reflexivity.
  - assert (trimmed (body +:+ ws2 +:+ fence) = true) as Hall.
    { unfold trimmed in Ht. apply andb_prop in Ht as [Hl _].
      destruct (trimmed_fence_end body ws2 Hl H2); congruence. }
    rewrite (strip_trimmed _ Hall).
    rewrite <- append_assoc, endswith_append, without_fence.
    now apply strip_right.
Qed.

Lemma opening_fence (opening ws1 rest : string) :
  opening = "```json" \/ opening = fence /\ ws1 <> EmptyString ->
  blank ws1 = true ->
  (let content := opening +:+ ws1 +:+ rest in
   if startswith "```json" content then strip (drop_chars 7 content)
   else if startswith "```" content then strip (drop_chars 3 content)
   else content) = strip (ws1 +:+ rest).
Proof.
  intros [-> | [-> Hne]] Hw; cbn zeta.
  - reflexivity.
  - destruct ws1 as [|c ws1]; [congruence|].
    cbn [blank all_chars] in Hw. apply andb_prop in Hw as [Hc _].
    rewrite append_cons. unfold fence.
    change (startswith "```json" ("```" +:+ String c (ws1 +:+ rest)))
      with (if ascii_dec "j" c then startswith "son" (ws1 +:+ rest) else false).
    destruct (ascii_dec "j" c) as [<-|_]; [discriminate|]. reflexivity.
Qed.

(** X20. [clean_json] removes a Markdown fence: a text between an opening
    fence (three backquotes, with or without the word json) and a closing
    fence, separated from them by blanks or line breaks, is cleaned to what
    the text alone is cleaned to; when the text holds one line, that is the
    text itself. *)
Theorem clean_json_removes_the_fence (opening ws1 body ws2 : string) :
  opening = "```json" \/ opening = fence /\ ws1 <> EmptyString ->
  blank ws1 = true -> blank ws2 = true ->
  trimmed body = true -> unfenced body = true ->
  clean_json (fenced opening ws1 body ws2) = clean_json body /\
  (one_line body = true -> clean_json (fenced opening ws1 body ws2) = body).
Proof.
  intros Ho H1 H2 Ht Hu.
  assert (clean_json (fenced opening ws1 body ws2) = clean_json body) as Heq.
  { rewrite (clean_json_unfenced body Hu). unfold clean_json, fenced. cbv zeta.
    pose proof (opening_fence opening ws1 (body +:+ ws2 +:+ fence) Ho H1) as Hopen.
    pose proof (closing_fence body ws2 H2 Ht) as Hclose.
    cbv zeta in Hopen, Hclose. rewrite Hopen.
    assert (strip (ws1 +:+ body +:+ ws2 +:+ fence) = strip (body +:+ ws2 +:+ fence))
      as ->.
    { unfold strip. now rewrite lstrip_blank. }
    change "```" with fence.
    now rewrite Hclose. }
  split; [exact Heq|].
  intros Hline. rewrite Heq, (clean_json_unfenced body Hu).
  unfold splitlines.
  enough (forall cur s, one_line s = true ->
            splitlines_aux cur s
            = match rev cur +:+ s with
              | EmptyString => []
              | _ => [rev cur +:+ s]
              end) as Hsplit.
  { rewrite (Hsplit EmptyString body Hline). cbn [rev rev_onto].
    rewrite append_empty_l. destruct body as [|c b]; [reflexivity|].
    cbn [fmap list_fmap join]. now apply strip_trimmed. }
  clear. intros cur s. revert cur. unfold one_line.
  induction s as [|c s IH]; intros cur H.
  - cbn [splitlines_aux]. rewrite append_empty_r.
    destruct cur as [|x cur]; [reflexivity|].
    rewrite rev_cons. now destruct (rev cur).
  - cbn [all_chars] in H. apply andb_prop in H as [Hc H].
    apply negb_true_iff in Hc. cbn [splitlines_aux]. rewrite Hc.
    rewrite (IH (String c cur) H), rev_cons, append_assoc. reflexivity.
Qed.

Lemma clean_json_removes_the_fence_witness :
  clean_json (fenced "```json" newline (dq "[{'operation': 'done'}]") newline)
  = dq "[{'operation': 'done'}]".
Proof.
  refine (proj2 (clean_json_removes_the_fence "```json" newline
                   (dq "[{'operation': 'done'}]") newline _ _ _ _ _) _).
  - left. reflexivity.
  - reflexivity.
  - reflexivity.
  - reflexivity.
  - reflexivity.
  - reflexivity.
Defined.

End FenceProps.

(** ** The JSON block that [call_claude_37] cuts out of an answer *)

Module BlockFacts.
Import Text Re Spec Py Normalizer RegexSpec ProseSpec BlockSpec FenceSpec.
Import QuotedFacts RegexFacts ExtractMore ProseFacts FenceProps.

Lemma star_any {R : Type} (k : cont R) (n : nat) :
  forall prev s c,
    String.length s <= n ->
    star_loop (rmatch (Cls (fun _ => true))) k n prev s c = try_from_end k prev s c.
Proof.
  induction n as [|n IH]; intros prev s c Hn.
  - destruct s; [reflexivity | cbn in Hn; lia].
  - cbn [star_loop]. destruct s as [|a s'].
    + now rewrite rmatch_Cls_nil.
    + rewrite rmatch_Cls. cbn [try_from_end]. rewrite IH; [reflexivity|].
      cbn in Hn. lia.
Qed.

Lemma try_from_end_later {R : Type} (k : cont R) (mid t : string) (x : R) :
  forall prev c,
    (forall prev', try_from_end k prev' t (record_all mid c) = Some x) ->
    try_from_end k prev (mid +:+ t) c = Some x.
Proof.
  induction mid as [|a mid IH]; intros prev c H.
  - rewrite append_empty_l. apply H.
  - rewrite append_cons. cbn [try_from_end]. rewrite IH; [reflexivity|].
    intros prev'. apply H.
Qed.

Lemma try_from_end_fails {R : Type} (q : ascii) (k : cont R) (post : string) :
  free_of (is_char q) post = true ->
  forall prev c,
    try_from_end (fun p s c' => rmatch (Cls (is_char q)) p s c' k) prev post c = None.
Proof.
  induction post as [|a post IH]; intros Hfree prev c.
  - reflexivity.
  - cbn [free_of] in Hfree. apply andb_prop in Hfree as [Ha Hfree].
    cbn [try_from_end]. rewrite IH by exact Hfree. rewrite rmatch_Cls.
    apply negb_true_iff in Ha. now rewrite Ha.
Qed.

Lemma rmatch_Alt {R} r1 r2 prev s c (k : cont R) :
  rmatch (Alt r1 r2) prev s c k
  = match rmatch r1 prev s c k with
    | Some x => Some x
    | None => rmatch r2 prev s c k
    end.
Proof. reflexivity. Qed.

(** From an opening bracket, the block reaches the last closing bracket. *)
Lemma match_here_block (prev : option ascii) (mid post : string) :
  free_of (is_char "]") post = true ->
  match_here json_block prev (String "[" (mid +:+ String "]" post))
  = Some (block_of mid, Some "]"%char, post).
Proof.
  intros Hfree. unfold match_here, json_block.
  rewrite rmatch_Grp, rmatch_Alt, rmatch_Cat, rmatch_Cls.
  replace (is_char "[" "[") with true by reflexivity.
  rewrite rmatch_Cat, rmatch_Star, star_any by reflexivity.
  erewrite try_from_end_later; [reflexivity|].
  intros prev'. cbn [try_from_end].
  rewrite (try_from_end_fails "]" _ post Hfree).
  rewrite rmatch_Cls. replace (is_char "]" "]") with true by reflexivity.
  cbn [record]. rewrite record_all_open. cbn [record close group1].
  rewrite rev_cons, rev_rev_onto. reflexivity.
Qed.

Lemma match_here_not_a_bracket (prev : option ascii) (a : ascii) (t : string) :
  bracket a = false -> match_here json_block prev (String a t) = None.
Proof.
  intros Ha. unfold bracket in Ha. apply orb_false_elim in Ha as [H1 H2].
  unfold match_here, json_block.
  rewrite rmatch_Grp, rmatch_Alt, !rmatch_Cat, !rmatch_Cls. now rewrite H1, H2.
Qed.

Lemma search_block (pre mid post : string) :
  free_of bracket pre = true ->
  free_of (is_char "]") post = true ->
  search json_block (around pre mid post) = Some (block_of mid).
Proof.
  intros Hpre Hpost. unfold search, around.
  enough (forall prev,
            search_from json_block prev (pre +:+ String "[" (mid +:+ String "]" post))
            = Some (block_of mid, Some "]"%char, post)) as -> by reflexivity.
  induction pre as [|a pre IH]; intros prev.
  - rewrite append_empty_l. cbn [search_from]. now rewrite match_here_block.
  - cbn [free_of] in Hpre. apply andb_prop in Hpre as [Ha Hpre].
    apply negb_true_iff in Ha. rewrite append_cons. cbn [search_from].
    rewrite (match_here_not_a_bracket prev a _ Ha). now apply IH.
Qed.

Lemma rstrip_blank_rest (s : string) : exists ws, s = rstrip s +:+ ws /\ blank ws = true.
Proof.
  unfold rstrip.
  assert (forall t, exists ws, t = ws +:+ lstrip t /\ blank ws = true) as Hl.
  { induction t as [|x t (ws & IH & Hws)]; [now exists EmptyString|].
    cbn [lstrip]. destruct (is_space x) eqn:Hx.
    - exists (String x ws). rewrite append_cons. split; [now f_equal|].
      unfold blank in *. cbn [all_chars]. now rewrite Hx.
    - now exists EmptyString. }
  destruct (Hl (rev s)) as (ws & H & Hws).
  exists (rev ws). split; [|now apply blank_rev].
  rewrite <- rev_append, <- H. symmetry. apply rev_involutive.
Qed.

(** [strip] keeps a first character that is not a blank. *)
Lemma strip_head (a : ascii) (t : string) :
  is_space a = false -> exists t', strip (String a t) = String a t'.
Proof.
  intros Ha. unfold strip. cbn [lstrip]. rewrite Ha.
  destruct (rstrip_blank_rest (String a t)) as (ws & H & Hws).
  destruct (rstrip (String a t)) as [|b t'].
  - rewrite append_empty_l in H. subst ws. unfold blank in Hws.
    cbn [all_chars] in Hws. rewrite Ha in Hws. discriminate.
  - rewrite append_cons in H. injection H as <- _. now exists t'.
Qed.

End BlockFacts.

Module BlockProps.
Import Text Spec Py Normalizer RegexSpec ProseSpec BlockSpec FenceSpec.
Import ProseFacts FenceProps BlockFacts.

(** X21. The JSON text that [call_claude_37] parses. When the answer of
    the model starts (after blanks) with an opening bracket, the whole
    answer is cleaned and parsed, with whatever follows the JSON. When
    the answer starts with prose that holds no opening bracket, the text
    from the first opening square bracket to the last closing one is cut
    out and cleaned: the prose before it and the prose after it, when
    that holds no closing square bracket, are dropped. *)
Theorem json_text_of_an_answer (pre mid post : string) :
  free_of (is_char "]") post = true ->
  (blank pre = true ->
   json_text (around pre mid post) = clean_json (around pre mid post)) /\
  (pre <> EmptyString -> starts_clean pre = true -> free_of bracket pre = true ->
   json_text (around pre mid post) = clean_json (block_of mid)).
Proof.
  intros Hpost. split.
  - intros Hpre. unfold json_text.
    assert (exists t, strip (around pre mid post) = String "[" t) as [t ->].
    { unfold around, strip. rewrite lstrip_blank by exact Hpre.
      apply (strip_head "[" _). reflexivity. }
    reflexivity.
  - intros Hne Hclean Hfree. unfold json_text.
    destruct pre as [|a pre]; [congruence|].
    cbn [starts_clean] in Hclean. apply negb_true_iff in Hclean.
    pose proof Hfree as Hfree'. cbn [free_of] in Hfree'.
    apply andb_prop in Hfree' as [Ha _]. apply negb_true_iff in Ha.
    unfold bracket, is_char in Ha. apply orb_false_elim in Ha as [H1 H2].
    apply bool_decide_eq_false in H1, H2.
    assert (exists t, strip (around (String a pre) mid post) = String a t) as [t ->].
    { unfold around. rewrite append_cons. now apply strip_head. }
    cbn [startswith].
    destruct (ascii_dec "[" a) as [<-|_]; [congruence|].
    destruct (ascii_dec "{" a) as [<-|_]; [congruence|]. cbn [orb].
    now rewrite (search_block (String a pre) mid post Hfree Hpost).
Qed.

Lemma json_text_of_an_answer_witness :
  json_text (around "Here is the plan: " (dq "{'operation': 'done'}") " Good luck!")
  = dq "[{'operation': 'done'}]".
Proof.
  refine (proj2 (json_text_of_an_answer "Here is the plan: " (dq "{'operation': 'done'}")
                   " Good luck!" _) _ _ _).
  - reflexivity.
  - discriminate.
  - reflexivity.
  - reflexivity.
Defined.

End BlockProps.

(** ** The three approaches of the locator *)

Module FinderProps.
Import Text Locator Finder FinderSpec FinderData LocatorProps.

(** The selection returns the point of a candidate of highest confidence. *)
Lemma selection_best (pool : list candidate) (screen : size) :
  pool <> [] ->
  exists best,
    best ∈ pool /\
    (forall c, c ∈ pool -> (confidence c <= confidence best)%Q) /\
    Locator.find_ui_element_by_text_and_vision pool screen = Some (point_of best screen).
Proof.
  intros Hne.
  destruct (sort_desc_head pool Hne) as (l1 & best & l2 & tl & -> & H1 & H2 & Hs).
  exists best. split; [|split].
  - apply elem_of_app. right. left.
  - intros c Hc. apply elem_of_app in Hc as [Hc|Hc].
    + rewrite Forall_forall in H1. apply Qlt_le_weak. now apply H1.
    + apply elem_of_cons in Hc as [->|Hc]; [apply Qle_refl|].
      rewrite Forall_forall in H2. now apply H2.
  - unfold Locator.find_ui_element_by_text_and_vision, point_of. rewrite Hs.
    destruct l1; cbn [app]; now destruct (center best).
Qed.

(** When no candidate is less confident than the first one is, the first
    one is selected. *)
Lemma selection_first (first : candidate) (others : list candidate) (screen : size) :
  Forall (fun c => (confidence c <= confidence first)%Q) others ->
  Locator.find_ui_element_by_text_and_vision (first :: others) screen
  = Some (point_of first screen).
Proof.
  intros Hall.
  destruct (sort_desc_head (first :: others)) as (l1 & best & l2 & tl & Hl & H1 & H2 & Hs);
    [discriminate|].
  unfold Locator.find_ui_element_by_text_and_vision, point_of. rewrite Hs.
  destruct l1 as [|x l1].
  - injection Hl as <- _. now destruct (center first).
  - injection Hl as <- Hl. exfalso.
    apply Forall_cons in H1 as [Hlt _].
    assert (best ∈ others) as Hin by (rewrite Hl; apply elem_of_app; right; left).
    rewrite Forall_forall in Hall. apply Hall in Hin.
    exact (Qlt_not_le _ _ Hlt Hin).
Qed.

Lemma icon_outranks_label (v : sight) (target : string) (e : ocr_element) :
  (0 < match_score v target e)%Q ->
  (confidence (text_candidate v target e) < confidence (icon_candidate v target e))%Q.
Proof.
  intros Hpos. unfold text_candidate, icon_candidate.
  destruct (bbox_rect e) as [[[x1 y1] x2] y2]. cbn [confidence].
  rewrite <- (Qmult_1_r (match_score v target e)) at 1.
  apply Qmult_lt_l; [exact Hpos | reflexivity].
Qed.

Lemma elem_of_flat_map {A B : Type} (f : A -> list B) (l : list A) (y : B) :
  y ∈ flat_map f l <-> exists x, x ∈ l /\ y ∈ f x.
Proof.
  rewrite list_elem_of_In, in_flat_map. split; intros (x & Hx & Hy); exists x.
  - now rewrite !list_elem_of_In.
  - now rewrite <- !list_elem_of_In.
Qed.

Lemma minimum_le_maximum (l : list Z) : l <> [] -> (minimum l <= maximum l)%Z.
Proof.
  destruct l as [|x l]; [congruence|]. intros _. unfold minimum, maximum. cbn [hd].
  assert (forall d, (foldr Z.min d (x :: l) <= x)%Z) as Hmin.
  { intros d. cbn [foldr]. lia. }
  assert (forall d, (x <= foldr Z.max d (x :: l))%Z) as Hmax.
  { intros d. cbn [foldr]. lia. }
  specialize (Hmin x). specialize (Hmax x). lia.
Qed.

(** Where the icon is looked for: between the sides of the label, never
    above the screen, and above the label when there is room for it. *)
Lemma icon_center_place (e : ocr_element) :
  let '(x1, y1, x2, _) := bbox_rect e in
  let '(x, y) := icon_center e in
  (x1 <= x <= x2)%Z /\ (0 <= y)%Z /\ ((x2 - x1) + 10 <= y1 -> y < y1)%Z.
Proof.
  unfold icon_center.
  assert (let '(x1, _, x2, _) := bbox_rect e in (x1 <= x2)%Z) as Hw.
  { unfold bbox_rect, bbox_points. destruct (corners e) as [[[p1 p2] p3] p4].
    apply minimum_le_maximum. discriminate. }
  destruct (bbox_rect e) as [[[x1 y1] x2] y2].
  assert (0 <= (x2 - x1) / 2 <= x2 - x1)%Z as Hhalf.
  { split; [apply Z.div_pos; lia | apply Z.div_le_upper_bound; lia]. }
  assert ((x2 - x1) <= 0 \/ (x2 - x1) / 2 < x2 - x1)%Z as Hlt.
  { destruct (decide (x2 - x1 <= 0)%Z); [now left|right].
    apply Z.div_lt_upper_bound; lia. }
  repeat split; lia.
Qed.

(** X22. The icon above a label outranks the label. For every text that
    OCR reads, that matches the target, that looks like the label of a
    desktop icon and whose match score is positive, the locator returns
    the point of a candidate at least as confident as the icon area above
    the text, hence strictly more confident than the text itself: it does
    not select the label. The icon area lies between the sides of the
    label, never above the screen, and above the label when the label is
    far enough from the top. *)
Theorem label_is_outranked_by_its_icon (v : sight) (target : string)
    (pool : list candidate) (entries : ocr_result) (e : ocr_element) :
  results v target = Ok pool ->
  ocr_results v = Ok entries ->
  e ∈ entries ->
  matches target e = true ->
  icon_label (lower (otext e)) = true ->
  (0 < match_score v target e)%Q ->
  (exists best,
      best ∈ pool /\
      Finder.find_ui_element_by_text_and_vision target v
      = Ok (Some (point_of best (screenshot_size v))) /\
      (confidence (text_candidate v target e) < confidence (icon_candidate v target e))%Q /\
      (confidence (icon_candidate v target e) <= confidence best)%Q) /\
  (let '(x1, y1, x2, _) := bbox_rect e in
   let '(x, y) := icon_center e in
   center (icon_candidate v target e) = (inject_Z x, inject_Z y) /\
   (x1 <= x <= x2)%Z /\ (0 <= y)%Z /\ ((x2 - x1) + 10 <= y1 -> y < y1)%Z).
Proof.
  intros Hres Hocr He Hm Hl Hpos. split.
  - assert (icon_candidate v target e ∈ pool) as Hin.
    { unfold results in Hres.
      destruct (approach1 target (icon_templates v)) as [templates|]; [|discriminate].
      injection Hres as <-. apply elem_of_app. right. apply elem_of_app. left.
      unfold approach2. rewrite Hocr. apply elem_of_flat_map. exists e.
      split; [exact He|]. unfold ocr_candidates. rewrite Hm, Hl.
      right. left. }
    destruct (selection_best pool (screenshot_size v)) as (best & Hb & Hmax & Hfind).
    { intros ->. inversion Hin. }
    exists best. split; [exact Hb|]. split; [|split].
    + unfold Finder.find_ui_element_by_text_and_vision. rewrite Hres.
      cbn [rbind]. now rewrite Hfind.
    + now apply icon_outranks_label.
    + now apply Hmax.
  - pose proof (icon_center_place e) as Hplace.
    unfold icon_candidate.
    destruct (bbox_rect e) as [[[x1 y1] x2] y2].
    destruct (icon_center e) as [x y]. cbn [center]. split; [reflexivity | exact Hplace].
Qed.

Lemma label_is_outranked_by_its_icon_witness :
  exists best,
    best ∈ [text_candidate desktop_sight "sbc-images-main" label_element;
            icon_candidate desktop_sight "sbc-images-main" label_element] /\
    Finder.find_ui_element_by_text_and_vision "sbc-images-main" desktop_sight
    = Ok (Some (point_of best (screenshot_size desktop_sight))).
Proof.
  destruct (label_is_outranked_by_its_icon desktop_sight "sbc-images-main"
              [text_candidate desktop_sight "sbc-images-main" label_element;
               icon_candidate desktop_sight "sbc-images-main" label_element]
              [other_element; label_element] label_element)
    as [(best & Hin & Hfind & _) _].
  - vm_compute. reflexivity.
  - reflexivity.
  - right. left.
  - reflexivity.
  - reflexivity.
  - vm_compute. reflexivity.
  - exists best. split; [exact Hin | exact Hfind].
Defined.

(** The selection returns the first candidate that no earlier one
    equals and no later one exceeds in confidence. *)
Lemma selection_at (l1 : list candidate) (c : candidate) (l2 : list candidate)
    (screen : size) :
  Forall (fun x => (confidence x < confidence c)%Q) l1 ->
  Forall (fun x => (confidence x <= confidence c)%Q) l2 ->
  Locator.find_ui_element_by_text_and_vision (l1 ++ c :: l2) screen
  = Some (point_of c screen).
Proof.
  intros H1 H2.
  assert (exists tl, sort_desc (l1 ++ c :: l2) = c :: tl) as [tl Hs].
  { induction H1 as [|x l1 Hx _ IH].
    - cbn [app sort_desc]. destruct l2 as [|y l2']; [now exists []|].
      destruct (sort_desc_head (y :: l2')) as (a & b & d & tl & Hl & _ & _ & Hs);
        [discriminate|].
      rewrite Hs. cbn [insert_desc].
      assert (b ∈ y :: l2') as Hb by (rewrite Hl; apply elem_of_app; right; left).
      rewrite Forall_forall in H2. apply H2 in Hb.
      destruct (Qlt_le_dec (confidence c) (confidence b)) as [Hlt|_]; [|eauto].
      destruct (Qlt_not_le _ _ Hlt Hb).
    - destruct IH as [tl IH]. cbn [app sort_desc]. rewrite IH. cbn [insert_desc].
      destruct (Qlt_le_dec (confidence x) (confidence c)) as [_|Hle]; [eauto|].
      destruct (Qlt_not_le _ _ Hx Hle). }
  unfold Locator.find_ui_element_by_text_and_vision, point_of. rewrite Hs.
  destruct l1; cbn [app]; now destruct (center c).
Qed.

Lemma flat_map_only {A B : Type} (f : A -> list B) (pre post : list A) (x : A) :
  Forall (fun y => f y = []) (pre ++ post) ->
  flat_map f (pre ++ x :: post) = f x.
Proof.
  intros H. apply Forall_app in H as [Hpre Hpost].
  rewrite flat_map_app. cbn [flat_map].
  assert (forall l, Forall (fun y => f y = []) l -> flat_map f l = []) as Hnil.
  { induction 1 as [|y l Hy _ IH]; [reflexivity|]. cbn [flat_map]. now rewrite Hy, IH. }
  rewrite (Hnil pre Hpre), (Hnil post Hpost). cbn [app]. apply app_nil_r.
Qed.

Lemma shapes_ranked (v : sight) (target : string) :
  Forall (fun c => kind c = Shape /\ confidence c = 1 # 2) (approach3 v target).
Proof.
  unfold approach3. cbn zeta. destruct (_ || _); [|constructor].
  destruct (contours v) as [found|]; [|constructor].
  apply Forall_forall. intros c Hc. apply elem_of_flat_map in Hc as (x & _ & Hc).
  unfold shape_candidate in Hc.
  destruct (Qlt_le_dec 100 (area x)); [|inversion Hc].
  destruct (Qlt_le_dec (area x) 5000); [|inversion Hc].
  destruct (Qlt_le_dec 0 (m00 x)); [|inversion Hc].
  destruct (rect x) as [[[x0 y0] w0] h0].
  apply list_elem_of_singleton in Hc as ->. now split.
Qed.

(** X23. When OCR is the only approach that finds something, when one
    text only matches the target and this text looks like the label of a
    desktop icon, the locator returns the centre of the square above the
    label, not the centre of the label: here no template is stored, and a
    match score of 5/12 or more outranks whatever the shape detection
    finds. *)
Theorem only_match_is_the_label_of_an_icon (v : sight) (target : string)
    (pre post : ocr_result) (e : ocr_element) :
  icon_templates v = [] ->
  ocr_results v = Ok (pre ++ e :: post) ->
  Forall (fun e' => matches target e' = false) (pre ++ post) ->
  matches target e = true ->
  icon_label (lower (otext e)) = true ->
  (5 # 12 <= match_score v target e)%Q ->
  Finder.find_ui_element_by_text_and_vision target v
  = Ok (Some (fraction (inject_Z (icon_center e).1) (screenshot_size v).1,
              fraction (inject_Z (icon_center e).2) (screenshot_size v).2)).
Proof.
  intros Ht Hocr Hothers Hm Hl Hscore.
  unfold Finder.find_ui_element_by_text_and_vision, results.
  rewrite Ht. cbn [approach1 rbind app]. unfold approach2. rewrite Hocr.
  rewrite flat_map_only.
  2: { eapply Forall_impl; [exact Hothers|]. intros e' He'.
       unfold ocr_candidates. now rewrite He'. }
  unfold ocr_candidates. rewrite Hm, Hl.
  assert (0 < match_score v target e)%Q as Hpos.
  { eapply Qlt_le_trans; [|exact Hscore]. reflexivity. }
  pose proof (selection_at [text_candidate v target e] (icon_candidate v target e)
                (approach3 v target) (screenshot_size v)) as Hsel.
  cbn [app] in Hsel |- *. rewrite Hsel.
  - unfold point_of, icon_candidate. destruct (bbox_rect e) as [[[x1 y1] x2] y2].
    reflexivity.
  - constructor; [now apply icon_outranks_label | constructor].
  - eapply Forall_impl; [apply shapes_ranked|]. intros c [_ ->].
    unfold icon_candidate. destruct (bbox_rect e) as [[[x1 y1] x2] y2].
    cbn [confidence].
    apply Qle_trans with ((5 # 12) * (12 # 10))%Q; [discriminate|].
    apply Qmult_le_compat_r; [exact Hscore | discriminate].
Qed.

Lemma only_match_is_the_label_of_an_icon_witness :
  Finder.find_ui_element_by_text_and_vision "sbc-images-main" desktop_sight
  = Ok (Some (fraction 160 1000, fraction 230 800)).
Proof.
  refine (only_match_is_the_label_of_an_icon desktop_sight "sbc-images-main"
            [other_element] [] label_element _ _ _ _ _ _).
  - reflexivity.
  - reflexivity.
  - repeat constructor.
  - reflexivity.
  - reflexivity.
  - vm_compute. discriminate.
Defined.

Lemma templates_ranked (target : string) (files : list template_file)
    (templates : list candidate) :
  approach1 target files = Ok templates ->
  Forall (fun c => kind c = Template /\ (21 # 20 < confidence c)%Q) templates.
Proof.
  revert templates. induction files as [|f rest IH]; intros templates; cbn [approach1].
  - intros [= <-]. constructor.
  - destruct (_ && _); [|apply IH].
    destruct (template f) as [shape|]; [|apply IH].
    destruct (matched f) as [found|]; [|discriminate]. cbn [rbind].
    destruct (approach1 target rest) as [others|]; [|discriminate]. cbn [rbind].
    destruct (Qlt_le_dec (7 # 10) found.1) as [Hgood|_].
    + intros [= <-]. constructor; [|now apply IH].
      unfold template_candidate. destruct shape as [h w]. cbn [kind confidence].
      split; [reflexivity|].
      apply Qle_lt_trans with ((7 # 10) * (3 # 2))%Q; [discriminate|].
      apply Qmult_lt_compat_r; [reflexivity | exact Hgood].
    + intros [= <-]. now apply IH.
Qed.

(** X24. The confidence of a candidate follows from the approach that
    found it: a template match has a confidence above 1.05, a shape has
    the confidence 0.5, texts and icon areas come from OCR. So when a
    stored template matches, the locator returns the point of a candidate
    of confidence above 1.05, which no shape is. *)
Theorem template_match_outranks_shapes (v : sight) (target : string)
    (pool : list candidate) :
  results v target = Ok pool ->
  Forall ranked pool /\
  ((exists c, c ∈ pool /\ kind c = Template) ->
   exists best,
     best ∈ pool /\ kind best <> Shape /\ (21 # 20 < confidence best)%Q /\
     Finder.find_ui_element_by_text_and_vision target v
     = Ok (Some (point_of best (screenshot_size v)))).
Proof.
  intros Hres.
  assert (Forall ranked pool) as Hranked.
  { unfold results in Hres.
    destruct (approach1 target (icon_templates v)) as [templates|] eqn:H1;
      [|discriminate].
    injection Hres as <-. apply Forall_app. split; [|apply Forall_app; split].
    - eapply Forall_impl; [apply (templates_ranked _ _ _ H1)|].
      intros c [Hk Hc]. unfold ranked. now rewrite Hk.
    - unfold approach2. destruct (ocr_results v) as [entries|]; [|constructor].
      apply Forall_forall. intros c Hc. apply elem_of_flat_map in Hc as (e & _ & Hc).
      unfold ocr_candidates in Hc. destruct (matches target e); [|inversion Hc].
      apply elem_of_cons in Hc as [-> | Hc].
      + unfold ranked, text_candidate. now destruct (bbox_rect e) as [[[x1 y1] x2] y2].
      + destruct (icon_label _); [|inversion Hc].
        apply list_elem_of_singleton in Hc as ->.
        unfold ranked, icon_candidate. now destruct (bbox_rect e) as [[[x1 y1] x2] y2].
    - eapply Forall_impl; [apply shapes_ranked|].
      intros c [Hk Hc]. unfold ranked. now rewrite Hk. }
  split; [exact Hranked|].
  intros (c & Hc & Hk).
  destruct (selection_best pool (screenshot_size v)) as (best & Hb & Hmax & Hfind).
  { intros ->. inversion Hc. }
  assert (21 # 20 < confidence best)%Q as Hconf.
  { eapply Qlt_le_trans; [|apply (Hmax c Hc)].
    rewrite Forall_forall in Hranked. specialize (Hranked c Hc).
    unfold ranked in Hranked. now rewrite Hk in Hranked. }
  exists best. split; [exact Hb|]. split; [|split; [exact Hconf|]].
  - intros Hshape. rewrite Forall_forall in Hranked. specialize (Hranked best Hb).
    unfold ranked in Hranked. rewrite Hshape in Hranked. rewrite Hranked in Hconf.
    discriminate.
  - unfold Finder.find_ui_element_by_text_and_vision. rewrite Hres.
    cbn [rbind]. now rewrite Hfind.
Qed.

Lemma template_match_outranks_shapes_witness :
  exists best,
    kind best <> Shape /\
    Finder.find_ui_element_by_text_and_vision "the sbc folder" folder_sight
    = Ok (Some (point_of best (screenshot_size folder_sight))).
Proof.
  destruct (template_match_outranks_shapes folder_sight "the sbc folder"
              [template_candidate (9 # 10) (100, 200)%Z (48, 48)%Z;
               {| kind := Shape; confidence := 1 # 2; center := (500, 100)%Q;
                  bbox := (485, 85, 515, 115)%Q |}])
    as [_ H].
  - vm_compute. reflexivity.
  - destruct H as (best & _ & Hk & _ & Hfind).
    + eexists. split; [left | reflexivity].
    + exists best. split; [exact Hk | exact Hfind].
Defined.

Lemma rev_not_empty (s : string) : s <> EmptyString -> rev s <> EmptyString.
Proof.
  intros Hs E. apply Hs. rewrite <- (RegexFacts.rev_involutive s), E. reflexivity.
Qed.

Lemma split_aux_not_empty (cur s : string) :
  Forall (fun word => word <> EmptyString) (split_aux cur s).
Proof.
  revert cur. induction s as [|c s IH]; intros cur; cbn [split_aux].
  - destruct cur; [constructor|].
    constructor; [now apply rev_not_empty | constructor].
  - destruct (is_space c); [|apply IH].
    destruct cur; [apply IH|].
    constructor; [now apply rev_not_empty | apply IH].
Qed.

Lemma approach1_without_words (target : string) (files : list template_file) :
  target_words target = [] -> approach1 target files = Ok [].
Proof.
  intros Hw. induction files as [|f rest IH]; [reflexivity|]. cbn [approach1].
  assert (name_matches target (filename f) = false) as ->.
  { unfold name_matches, clean_target. rewrite Hw. cbn [existsb join orb].
    pose proof (split_aux_not_empty EmptyString (lower (template_name (filename f))))
      as Hne.
    unfold split. induction Hne as [|word l Hword _ IHl]; [reflexivity|].
    cbn [existsb]. rewrite IHl. now destruct word. }
  rewrite andb_false_r. exact IH.
Qed.

Lemma score_zero (v : sight) (target : string) (e : ocr_element) :
  (ratio v (clean_target target) (lower (otext e)) == 0)%Q ->
  (match_score v target e == 0)%Q.
Proof.
  intros Hr. unfold match_score. cbn zeta.
  destruct (Qlt_le_dec _ _); rewrite Hr; ring.
Qed.

(** X25. A target made of stop words only (such as [click on it]) is
    cleaned to the empty string, which is contained in every text: no
    template and no shape is looked for, every text that OCR reads becomes
    a candidate, and, the similarity of the empty string to a text being
    0, the locator returns the centre of the first text that OCR has
    read. *)
Theorem target_of_stop_words_only (v : sight) (target : string)
    (e : ocr_element) (others : ocr_result) :
  target_words target = [] ->
  ocr_results v = Ok (e :: others) ->
  (forall e', e' ∈ e :: others -> (ratio v EmptyString (lower (otext e')) == 0)%Q) ->
  Finder.find_ui_element_by_text_and_vision target v
  = Ok (Some (fraction (mean (fst <$> bbox_points e)) (screenshot_size v).1,
              fraction (mean (snd <$> bbox_points e)) (screenshot_size v).2)).
Proof.
  intros Hw Hocr Hratio.
  assert (clean_target target = EmptyString) as Hclean.
  { unfold clean_target. now rewrite Hw. }
  assert (forall e', matches target e' = true) as Hm.
  { intros e'. unfold matches. cbn zeta. rewrite Hclean.
    rewrite (str_in_unfold EmptyString). cbn [startswith].
    now rewrite orb_true_r. }
  assert (forall e', e' ∈ e :: others ->
            Forall (fun c => (confidence c == 0)%Q) (ocr_candidates v target e'))
    as Hzero.
  { intros e' He'. unfold ocr_candidates. rewrite Hm.
    assert (match_score v target e' == 0)%Q as Hs.
    { apply score_zero. rewrite Hclean. now apply Hratio. }
    constructor.
    - unfold text_candidate. now destruct (bbox_rect e') as [[[x1 y1] x2] y2].
    - destruct (icon_label _); constructor; [|constructor].
      unfold icon_candidate. destruct (bbox_rect e') as [[[x1 y1] x2] y2].
      cbn [confidence]. rewrite Hs. ring. }
  unfold Finder.find_ui_element_by_text_and_vision, results.
  rewrite (approach1_without_words target _ Hw). cbn [rbind app].
  assert (approach3 v target = []) as ->.
  { unfold approach3. cbn zeta. now rewrite Hclean. }
  rewrite app_nil_r. unfold approach2. rewrite Hocr. cbn [flat_map].
  unfold ocr_candidates at 1. rewrite Hm. cbn [app].
  rewrite selection_first.
  - unfold point_of, text_candidate. now destruct (bbox_rect e) as [[[x1 y1] x2] y2].
  - assert (confidence (text_candidate v target e) == 0)%Q as Hfirst.
    { specialize (Hzero e ltac:(left)). unfold ocr_candidates in Hzero.
      rewrite Hm in Hzero. now apply Forall_cons in Hzero as [H _]. }
    apply Forall_forall. intros c Hc. rewrite Hfirst.
    assert (confidence c == 0)%Q as ->; [|apply Qle_refl].
    apply elem_of_app in Hc as [Hc|Hc].
    + specialize (Hzero e ltac:(left)). unfold ocr_candidates in Hzero.
      rewrite Hm in Hzero. apply Forall_cons in Hzero as [_ Hzero].
      rewrite Forall_forall in Hzero. now apply Hzero.
    + apply elem_of_flat_map in Hc as (e' & He' & Hc).
      specialize (Hzero e' ltac:(now right)).
      rewrite Forall_forall in Hzero. now apply Hzero.
Qed.

Lemma target_of_stop_words_only_witness :
  Finder.find_ui_element_by_text_and_vision "click on it" desktop_sight
  = Ok (Some (fraction (1720 # 4) 1000, fraction (120 # 4) 800)).
Proof.
  refine (target_of_stop_words_only desktop_sight "click on it"
            other_element [label_element] _ _ _).
  - reflexivity.
  - reflexivity.
  - intros e' He'. apply elem_of_cons in He' as [->|He'].
    + reflexivity.
    + apply list_elem_of_singleton in He' as ->. reflexivity.
Defined.

End FinderProps.

(** ** The verification probe on an unchanged screen *)

Module VerifyMore.
Import Verify VerifySpec VerifyProps VerifyData.

Lemma distance_same (a : Z) : distance a a = 0%Z.
Proof. unfold distance. lia. Qed.

Lemma unchanged_count (cv : opencv) (l : list (Z * Z * Z)) :
  (gray cv (0, 0, 0) <= 30)%Z ->
  length (filter (fun pq => changed_pixel cv pq = true) (zip l l)) = 0.
Proof.
  intros Hgray. induction l as [|p l IH]; [reflexivity|].
  cbn [zip zip_with]. rewrite filter_cons.
  destruct (decide (changed_pixel cv (p, p) = true)) as [H|_]; [|exact IH].
  destruct p as [[b g] r]. unfold changed_pixel in H. rewrite !distance_same in H.
  apply Z.ltb_lt in H. lia.
Qed.

(** X26. The probe never reports success on an unchanged screen: when the
    screenshot taken after the operation equals the one taken before,
    [verify_success] returns False for every kind of task. The image has
    at least one pixel and the grey value of a black pixel does not
    exceed the threshold 30. *)
Theorem verify_success_unchanged_screen (cv : opencv) (screenshot : image)
    (task_type : string) :
  well_formed screenshot ->
  rows screenshot * cols screenshot <> 0 ->
  (gray cv (0, 0, 0) <= 30)%Z ->
  verify_success cv screenshot screenshot task_type = Ok false.
Proof.
  intros Hwf Hne Hgray. unfold verify_success. cbn zeta.
  rewrite decide_True by reflexivity.
  destruct (String.eqb task_type "open_folder"); [|reflexivity].
  unfold absdiff. rewrite decide_True by reflexivity. cbn [pixels].
  set (th := threshold <$> _).
  assert (length th = rows screenshot * cols screenshot) as Hlen.
  { unfold th. rewrite !length_fmap, length_zip_with. unfold well_formed in Hwf. lia. }
  rewrite decide_False by (rewrite Hlen; exact Hne).
  assert (count_nonzero th = 0) as ->.
  { unfold th. rewrite count_thresholded. now apply unchanged_count. }
  rewrite Hlen. destruct (Qlt_le_dec _ _) as [Hlt|_]; [|reflexivity].
  apply (percentage_above 0 _ Hne) in Hlt. lia.
Qed.

Lemma verify_success_unchanged_screen_witness :
  verify_success opencv_like desktop_after desktop_after "open_folder" = Ok false.
Proof.
  refine (verify_success_unchanged_screen opencv_like desktop_after "open_folder" _ _ _).
  - reflexivity.
  - discriminate.
  - vm_compute. discriminate.
Defined.

End VerifyMore.
